(** * Dynamic credentials for n8n nodes: a shallow embedding

    The development follows the TypeScript sources:
    - [DynamicCredentialsHelper] (generic helper, credentials proxy and
      [wrapNodeExecute]; both copies of the class),
    - [ZammadDynamicCredentialsHelper] (Zammad variant with base-URL rewrite),
    - [addDynamicCredentialsProperties] and [addDynamicCredentialsToZammad]
      (node description transforms and their property tables),
    - [microsoftApiRequest] / [microsoftApiRequestAllItems] (Outlook transport).

    JavaScript objects live in an explicit heap, so that aliasing between the
    caller's request options and the options a helper returns is visible.
    Functions that may throw return a [result]; functions that also touch the
    heap run in the state-and-exception monad [St heap].  The host (parameter
    reads, stored credentials, HTTP client) is not part of the sources: the
    functions take it as an argument and the theorems hold for every host.

    The file has three parts: the embedding of the sources, the vocabulary
    and the concrete inputs of the statements, and the properties. *)

From Stdlib Require Import ZArith Ascii String.
From stdpp Require Import gmap strings list pretty.

Open Scope Z_scope.

(** ** JavaScript values, errors and results *)

(** Primitive values and references to heap cells.  Numbers are restricted
    to integers; strings are byte sequences (UTF-8 encoded text). *)
Inductive value :=
| VUndefined
| VNull
| VBool (b : bool)
| VNum (n : Z)
| VStr (s : string)
| VRef (l : nat).

#[global] Instance value_eq_dec : EqDecision value.
Proof. solve_decision. Defined.

(** The own enumerable properties of a plain object. *)
Abbreviation obj := (gmap string value).

(** Heap cells: plain objects and dense arrays. *)
Inductive cell :=
| CObj (o : obj)
| CArr (a : list value).

Abbreviation heap := (list cell).

(** A thrown value.  The sources only ever read [message] and
    [description] of what they catch. *)
Record error := JsError { message : value; description : value }.

#[global] Instance error_eq_dec : EqDecision error.
Proof. solve_decision. Defined.

Inductive result (A : Type) :=
| Ok (a : A)
| Throw (e : error).
Arguments Ok {A} a.
Arguments Throw {A} e.

#[global] Instance result_eq_dec {A} `{EqDecision A} : EqDecision (result A).
Proof. solve_decision. Defined.

#[global] Instance result_ret : MRet result := λ A a, Ok a.
#[global] Instance result_bind : MBind result :=
  λ A B f r, match r with Ok a => f a | Throw e => Throw e end.

(** [try { body } catch (error) { handler }] *)
Definition try_catch {A} (body : result A) (handler : error → result A) : result A :=
  match body with
  | Ok a => Ok a
  | Throw e => handler e
  end.

(** [new Error(msg)] and [new TypeError(msg)]: both carry the message and no
    description. *)
Definition new_Error (msg : string) : error :=
  {| message := VStr msg; description := VUndefined |}.

Definition new_TypeError (msg : string) : error :=
  {| message := VStr msg; description := VUndefined |}.

(** State and exceptions: a computation may change the state and still
    throw, as a JavaScript function that mutates before failing. *)
Definition St (S A : Type) : Type := S → result A * S.

#[global] Instance St_ret {S} : MRet (St S) := λ A a s, (Ok a, s).
#[global] Instance St_bind {S} : MBind (St S) :=
  λ A B f m s, match m s with
               | (Ok a, s') => f a s'
               | (Throw e, s') => (Throw e, s')
               end.

Definition lift {S A} (r : result A) : St S A := λ s, (r, s).

Definition st_try_catch {S A} (body : St S A) (handler : error → St S A) : St S A :=
  λ s, match body s with
       | (Ok a, s') => (Ok a, s')
       | (Throw e, s') => handler e s'
       end.

(** ToBoolean *)
Definition truthy (v : value) : bool :=
  match v with
  | VUndefined | VNull => false
  | VBool b => b
  | VNum n => negb (Z.eqb n 0)
  | VStr s => negb (String.eqb s "")
  | VRef _ => true
  end.

(** [a === b] *)
Definition strict_eq (a b : value) : bool := bool_decide (a = b).

(** ToString, as a template literal applies it to strings, booleans,
    [null], [undefined] and the integers that a number holds exactly.  The
    other values are given a text as well, which is not always the text of
    the language: a larger number is printed in full, and every reference as
    a plain object is (an array would join its elements).  The statements
    that fix a text are about the former values. *)
Definition to_string (v : value) : string :=
  match v with
  | VUndefined => "undefined"
  | VNull => "null"
  | VBool true => "true"
  | VBool false => "false"
  | VNum n => pretty n
  | VStr s => s
  | VRef _ => "[object Object]"
  end.

(** [o.k] on an object held by value. *)
Definition field (o : obj) (k : string) : value := default VUndefined (o !! k).

(** ** Heap operations *)

(** The indexed properties of an array. *)
Fixpoint index_props_from (i : nat) (a : list value) : obj :=
  match a with
  | [] => ∅
  | v :: r => <[pretty i := v]> (index_props_from (S i) r)
  end.

(** The indexed properties of a string: one per byte, which is one per
    character on ASCII text. *)
Fixpoint string_props_from (i : nat) (s : string) : obj :=
  match s with
  | EmptyString => ∅
  | String c r => <[pretty i := VStr (String c EmptyString)]> (string_props_from (S i) r)
  end.

(** The properties an object spread [{ ...v }] copies. *)
Definition own_props_of (h : heap) (v : value) : obj :=
  match v with
  | VRef l =>
      match h !! l with
      | Some (CObj o) => o
      | Some (CArr a) => index_props_from 0 a
      | None => ∅
      end
  | VStr s => string_props_from 0 s
  | _ => ∅
  end.

Definition own_props (v : value) : St heap obj := λ h, (Ok (own_props_of h v), h).

(** [new] object or array: the next free location. *)
Definition alloc (c : cell) : St heap value := λ h, (Ok (VRef (List.length h)), h ++ [c]).

(** [v[k]] *)
Definition get_prop (v : value) (k : string) : St heap value := λ h,
  match v with
  | VUndefined | VNull =>
      (Throw (new_TypeError ("Cannot read properties of " +:+ to_string v)), h)
  | VRef l =>
      match h !! l with
      | Some (CObj o) => (Ok (field o k), h)
      | Some (CArr a) =>
          if String.eqb k "length" then (Ok (VNum (Z.of_nat (List.length a))), h)
          else (Ok (field (index_props_from 0 a) k), h)
      | None => (Ok VUndefined, h)
      end
  | VStr s =>
      if String.eqb k "length" then (Ok (VNum (Z.of_nat (String.length s))), h)
      else (Ok (field (string_props_from 0 s) k), h)
  | _ => (Ok VUndefined, h)
  end.

(** [v[k] = x] in strict mode (the sources are modules).  Writing through a
    primitive throws; only plain objects are written by the sources, and a
    write to an array cell or a dangling location is left without effect.
    Every name is stored as an own property, also ['__proto__'], which the
    language hands to an inherited setter instead: the statements about a
    name that the host chooses leave that one out. *)
Definition set_prop (v : value) (k : string) (x : value) : St heap () := λ h,
  match v with
  | VRef l =>
      match h !! l with
      | Some (CObj o) => (Ok (), <[l := CObj (<[k := x]> o)]> h)
      | _ => (Ok (), h)
      end
  | _ => (Throw (new_TypeError ("Cannot set properties of " +:+ to_string v)), h)
  end.

(** [delete v[k]] *)
Definition delete_prop (v : value) (k : string) : St heap () := λ h,
  match v with
  | VRef l =>
      match h !! l with
      | Some (CObj o) => (Ok (), <[l := CObj (delete k o)]> h)
      | _ => (Ok (), h)
      end
  | VUndefined | VNull =>
      (Throw (new_TypeError ("Cannot convert undefined or null to object")), h)
  | _ => (Ok (), h)
  end.

(** ** The host interface

    [IExecuteFunctions.getNodeParameter(name, itemIndex, fallback?)].  The
    host is not part of the sources: the helpers are stated over any
    implementation. *)
Record IExecuteFunctions := {
  getNodeParameter : string → Z → option value → result value;
}.

(** Modelled from the spec: the ParameterStore ("getParameter(name,
    itemIndex, default?) -> T, fails with ParameterNotFound when absent and
    no default given"), a snapshot of parameters per item index. *)
Definition ParameterStore := Z → gmap string value.

Definition ParameterNotFound (name : string) : error :=
  new_Error ("ParameterNotFound: " +:+ name).

Definition getParameter (ps : ParameterStore) (name : string) (itemIndex : Z)
    (fallback : option value) : result value :=
  match ps itemIndex !! name, fallback with
  | Some v, _ => Ok v
  | None, Some d => Ok d
  | None, None => Throw (ParameterNotFound name)
  end.

Definition store_exec (ps : ParameterStore) : IExecuteFunctions :=
  {| getNodeParameter := getParameter ps |}.

(** ** Base64 ([Buffer.from(s).toString('base64')]) *)

Definition base64_alphabet : list ascii :=
  list_ascii_of_string
    "ABCDEFGHIJKLMNOPQRSTUVWXYZabcdefghijklmnopqrstuvwxyz0123456789+/".

Definition base64_digit (n : N) : ascii :=
  nth (N.to_nat n) base64_alphabet "="%char.

(** Three bytes give four digits; one or two trailing bytes are padded. *)
Fixpoint base64_bytes (bs : list N) : list ascii :=
  match bs with
  | [] => []
  | [a] =>
      [base64_digit (N.shiftr a 2);
       base64_digit (N.shiftl (N.land a 3) 4);
       "="%char; "="%char]
  | [a; b] =>
      [base64_digit (N.shiftr a 2);
       base64_digit (N.lor (N.shiftl (N.land a 3) 4) (N.shiftr b 4));
       base64_digit (N.shiftl (N.land b 15) 2);
       "="%char]
  | a :: b :: c :: rest =>
      base64_digit (N.shiftr a 2)
      :: base64_digit (N.lor (N.shiftl (N.land a 3) 4) (N.shiftr b 4))
      :: base64_digit (N.lor (N.shiftl (N.land b 15) 2) (N.shiftr c 6))
      :: base64_digit (N.land c 63)
      :: base64_bytes rest
  end.

(** [Buffer.from(s)]: the bytes of the (UTF-8) string. *)
Definition Buffer_from (s : string) : list N :=
  map N_of_ascii (list_ascii_of_string s).

Definition base64 (s : string) : string :=
  string_of_list_ascii (base64_bytes (Buffer_from s)).

(** ** The generic helper: class [DynamicCredentialsHelper]

    The class as exported with the credentials proxy.  The copy kept next to
    the property list differs in one line: for ['oauth2'] it sets the header
    to the bare token, without the [Bearer] prefix. *)

Module DynamicCredentialsHelper.

Section Helper.

(** [constructor(private readonly execFunctions: IExecuteFunctions)] *)
Variable execFunctions : IExecuteFunctions.

Definition isDynamicCredentialEnabled (itemIndex : Z) : result bool :=
  try_catch
    (useDynamicCredentials ←
       getNodeParameter execFunctions "useDynamicCredentials" itemIndex None;
     mret (strict_eq useDynamicCredentials (VBool true)))
    (λ _, mret false).

Definition getDynamicCredentials (itemIndex : Z) : result obj :=
  enabled ← isDynamicCredentialEnabled itemIndex;
  if negb enabled then
    Throw (new_Error "Dynamic credentials are not enabled for this node")
  else
    try_catch
      (credentialType ← getNodeParameter execFunctions "credentialType" itemIndex None;
       if strict_eq credentialType (VStr "basic") then
         username ← getNodeParameter execFunctions "basicUsername" itemIndex None;
         password ← getNodeParameter execFunctions "basicPassword" itemIndex None;
         mret (<["username" := username]> (<["password" := password]> ∅))
       else
         tokenValue ← getNodeParameter execFunctions "credentialPath" itemIndex None;
         if strict_eq credentialType (VStr "oauth2") then
           mret (<["accessToken" := tokenValue]> ∅)
         else if strict_eq credentialType (VStr "apiKey") then
           mret (<["apiKey" := tokenValue]> ∅)
         else
           Throw (new_Error ("Unsupported credential type: " +:+ to_string credentialType)))
      (λ error,
         Throw (new_Error ("Failed to get dynamic credentials: "
                           +:+ to_string (message error)))).

Definition applyDynamicCredentials (options : value) (itemIndex : Z) : St heap value :=
  enabled ← lift (isDynamicCredentialEnabled itemIndex);
  if negb enabled then mret options
  else
    credentials ← lift (getDynamicCredentials itemIndex);
    credentialType ← lift (getNodeParameter execFunctions "credentialType" itemIndex None);
    (* const newOptions = { ...options }; *)
    copied ← own_props options;
    newOptions ← alloc (CObj copied);
    (* newOptions.headers = { ...newOptions.headers }; *)
    oldHeaders ← get_prop newOptions "headers";
    copiedHeaders ← own_props oldHeaders;
    freshHeaders ← alloc (CObj copiedHeaders);
    set_prop newOptions "headers" freshHeaders;;
    (if strict_eq credentialType (VStr "oauth2") then
       headers ← get_prop newOptions "headers";
       set_prop headers "Authorization"
         (VStr ("Bearer " +:+ to_string (field credentials "accessToken")))
     else if strict_eq credentialType (VStr "apiKey") then
       location ← lift (getNodeParameter execFunctions "apiKeyLocation" itemIndex
                          (Some (VStr "header")));
       keyName ← lift (getNodeParameter execFunctions "apiKeyName" itemIndex
                         (Some (VStr "X-API-Key")));
       if strict_eq location (VStr "header") then
         headers ← get_prop newOptions "headers";
         set_prop headers (to_string keyName) (field credentials "apiKey")
       else if strict_eq location (VStr "query") then
         (* newOptions.qs = newOptions.qs || {}; *)
         qs ← get_prop newOptions "qs";
         qs' ← (if truthy qs then mret qs else alloc (CObj ∅));
         set_prop newOptions "qs" qs';;
         qs ← get_prop newOptions "qs";
         set_prop qs (to_string keyName) (field credentials "apiKey")
       else mret ()
     else if strict_eq credentialType (VStr "basic") then
       let auth := base64 (to_string (field credentials "username") +:+ ":"
                           +:+ to_string (field credentials "password")) in
       headers ← get_prop newOptions "headers";
       set_prop headers "Authorization" (VStr ("Basic " +:+ auth))
     else
       lift (Throw (new_Error ("Unsupported credential type: "
                               +:+ to_string credentialType))));;
    mret newOptions.

End Helper.

(** *** [createCredentialsProxy]

    The original [getCredentials] belongs to the host: it is any function of
    its receiver, its arguments and a host state [H], and it may throw.
    Every application of it is recorded, in order. *)

(** What the proxy hands back: [Promise.resolve(credentials)], or whatever
    the original method returned. *)
Inductive proxy_value :=
| PromiseResolve (credentials : obj)
| Returned (v : value).

Section Proxy.

Context {H : Type}.

Record host_state := HostState {
  host : H;
  invocations : list (value * list value);
}.

Variable originalMethod : value → list value → H → result value * H.
Variable execFunctions : IExecuteFunctions.

(** [originalMethod.apply(this, args)] *)
Definition apply_original (this : value) (args : list value) : St host_state value :=
  λ w, let '(r, s) := originalMethod this args (host w) in
       (r, {| host := s; invocations := invocations w ++ [(this, args)] |}).

(** The function [createCredentialsProxy(originalMethod, execFunctions)]
    returns, applied to a receiver and arguments. *)
Definition createCredentialsProxy (this : value) (args : list value)
    : St host_state proxy_value :=
  st_try_catch
    (useDynamicCredentials ←
       lift (getNodeParameter execFunctions "useDynamicCredentials" 0 (Some (VBool false)));
     if truthy useDynamicCredentials then
       credentials ← lift (getDynamicCredentials execFunctions 0);
       mret (PromiseResolve credentials)
     else
       r ← apply_original this args;
       mret (Returned r))
    (λ _,
       r ← apply_original this args;
       mret (Returned r)).

End Proxy.

Arguments host_state H : clear implicits.

End DynamicCredentialsHelper.

(** *** The copy of the class kept next to the property list

    The file of the property list holds the class a second time, without the
    proxy.  It differs from the class above in one line of
    [applyDynamicCredentials]: for ['oauth2'] it sets the header to the token
    as it is. *)

Module UtilsDynamicCredentialsHelper.

Section Helper.

Variable execFunctions : IExecuteFunctions.

Definition isDynamicCredentialEnabled (itemIndex : Z) : result bool :=
  try_catch
    (useDynamicCredentials ←
       getNodeParameter execFunctions "useDynamicCredentials" itemIndex None;
     mret (strict_eq useDynamicCredentials (VBool true)))
    (λ _, mret false).

Definition getDynamicCredentials (itemIndex : Z) : result obj :=
  enabled ← isDynamicCredentialEnabled itemIndex;
  if negb enabled then
    Throw (new_Error "Dynamic credentials are not enabled for this node")
  else
    try_catch
      (credentialType ← getNodeParameter execFunctions "credentialType" itemIndex None;
       if strict_eq credentialType (VStr "basic") then
         username ← getNodeParameter execFunctions "basicUsername" itemIndex None;
         password ← getNodeParameter execFunctions "basicPassword" itemIndex None;
         mret (<["username" := username]> (<["password" := password]> ∅))
       else
         tokenValue ← getNodeParameter execFunctions "credentialPath" itemIndex None;
         if strict_eq credentialType (VStr "oauth2") then
           mret (<["accessToken" := tokenValue]> ∅)
         else if strict_eq credentialType (VStr "apiKey") then
           mret (<["apiKey" := tokenValue]> ∅)
         else
           Throw (new_Error ("Unsupported credential type: " +:+ to_string credentialType)))
      (λ error,
         Throw (new_Error ("Failed to get dynamic credentials: "
                           +:+ to_string (message error)))).

Definition applyDynamicCredentials (options : value) (itemIndex : Z) : St heap value :=
  enabled ← lift (isDynamicCredentialEnabled itemIndex);
  if negb enabled then mret options
  else
    credentials ← lift (getDynamicCredentials itemIndex);
    credentialType ← lift (getNodeParameter execFunctions "credentialType" itemIndex None);
    (* const newOptions = { ...options }; *)
    copied ← own_props options;
    newOptions ← alloc (CObj copied);
    (* newOptions.headers = { ...newOptions.headers }; *)
    oldHeaders ← get_prop newOptions "headers";
    copiedHeaders ← own_props oldHeaders;
    freshHeaders ← alloc (CObj copiedHeaders);
    set_prop newOptions "headers" freshHeaders;;
    (if strict_eq credentialType (VStr "oauth2") then
       headers ← get_prop newOptions "headers";
       set_prop headers "Authorization" (field credentials "accessToken")
     else if strict_eq credentialType (VStr "apiKey") then
       location ← lift (getNodeParameter execFunctions "apiKeyLocation" itemIndex
                          (Some (VStr "header")));
       keyName ← lift (getNodeParameter execFunctions "apiKeyName" itemIndex
                         (Some (VStr "X-API-Key")));
       if strict_eq location (VStr "header") then
         headers ← get_prop newOptions "headers";
         set_prop headers (to_string keyName) (field credentials "apiKey")
       else if strict_eq location (VStr "query") then
         (* newOptions.qs = newOptions.qs || {}; *)
         qs ← get_prop newOptions "qs";
         qs' ← (if truthy qs then mret qs else alloc (CObj ∅));
         set_prop newOptions "qs" qs';;
         qs ← get_prop newOptions "qs";
         set_prop qs (to_string keyName) (field credentials "apiKey")
       else mret ()
     else if strict_eq credentialType (VStr "basic") then
       let auth := base64 (to_string (field credentials "username") +:+ ":"
                           +:+ to_string (field credentials "password")) in
       headers ← get_prop newOptions "headers";
       set_prop headers "Authorization" (VStr ("Basic " +:+ auth))
     else
       lift (Throw (new_Error ("Unsupported credential type: "
                               +:+ to_string credentialType))));;
    mret newOptions.

End Helper.

End UtilsDynamicCredentialsHelper.

(** *** [wrapNodeExecute]

    The wrapper replaces the method [getCredentials] of the execution
    context it runs on.  The context is an object with one method slot; the
    functions that can sit in the slot are the host's own method and the
    closures [createCredentialsProxy] returns, each around the function it
    was given.  The wrapped [execute] belongs to a node: it is any program
    that calls [this.getCredentials] some number of times and then returns
    or throws. *)

Module WrapNodeExecute.

Section Wrap.

Context {H : Type}.

(** The host's own [getCredentials], and its parameter reads. *)
Variable hostGetCredentials : value → list value → H → result value * H.
Variable execFunctions : IExecuteFunctions.

(** A function value in the slot. *)
Inductive method :=
| HostMethod
| ProxyOf (originalMethod : method).

(** [m.apply(this, args)]: the proxy closure runs the body of
    [createCredentialsProxy] around the function it closed over. *)
Fixpoint apply_method (m : method) (this : value) (args : list value)
    : St (DynamicCredentialsHelper.host_state H) DynamicCredentialsHelper.proxy_value :=
  match m with
  | HostMethod =>
      r ← DynamicCredentialsHelper.apply_original hostGetCredentials this args;
      mret (DynamicCredentialsHelper.Returned r)
  | ProxyOf originalMethod =>
      st_try_catch
        (useDynamicCredentials ←
           lift (getNodeParameter execFunctions "useDynamicCredentials" 0
                   (Some (VBool false)));
         if truthy useDynamicCredentials then
           credentials ← lift (DynamicCredentialsHelper.getDynamicCredentials execFunctions 0);
           mret (DynamicCredentialsHelper.PromiseResolve credentials)
         else apply_method originalMethod this args)
        (λ _, apply_method originalMethod this args)
  end.

(** The execution context: the slot and the state of the host. *)
Record context := ExecutionContext {
  getCredentials : method;
  state : DynamicCredentialsHelper.host_state H;
}.

(** A node's [execute]: calls of [this.getCredentials], each followed by
    what the node does with the outcome. *)
Inductive execute (A : Type) :=
| Finish (r : result A)
| GetCredentials (args : list value) (next : result DynamicCredentialsHelper.proxy_value → execute A).
Arguments Finish {A} r.
Arguments GetCredentials {A} args next.

(** [originalExecute.apply(this, args)] on a context. *)
Fixpoint run {A} (node : execute A) (this : value) : St context A :=
  match node with
  | Finish r => lift r
  | GetCredentials args next =>
      λ c, let '(r, s) := apply_method (getCredentials c) this args (state c) in
           run (next r) this {| getCredentials := getCredentials c; state := s |}
  end.

(** The function [wrapNodeExecute(originalExecute)] returns, applied to a
    context and arguments. *)
Definition wrapNodeExecute {A} (originalExecute : list value → execute A)
    (this : value) (args : list value) : St context A :=
  λ c,
    let originalGetCredentials := getCredentials c in
    run (originalExecute args) this
      {| getCredentials := ProxyOf originalGetCredentials; state := state c |}.

End Wrap.

Arguments Finish {A} r.
Arguments GetCredentials {A} args next.
Arguments context H : clear implicits.

End WrapNodeExecute.


(** ** String primitives used by the Zammad helper *)

(** [s.endsWith(suffix)] *)
Definition endsWith (s suffix : string) : bool :=
  let n := String.length s in
  let m := String.length suffix in
  (m <=? n)%nat && String.eqb (substring (n - m) m s) suffix.

(** [s.substr(start, len)] for in-range arguments. *)
Definition substr (s : string) (start len : nat) : string := substring start len s.

Fixpoint strip_prefix (p s : string) : option string :=
  match p, s with
  | EmptyString, _ => Some s
  | String a p', String b s' => if Ascii.eqb a b then strip_prefix p' s' else None
  | String _ _, EmptyString => None
  end.

(** A regular-expression dot matches everything but a line terminator: LF,
    CR, U+2028 and U+2029 (the last two as their UTF-8 bytes). *)
Definition line_terminator_at (s : string) : bool :=
  match s with
  | String c r =>
      let n := nat_of_ascii c in
      (n =? 10)%nat || (n =? 13)%nat
      || match r with
         | String c1 (String c2 _) =>
             (n =? 226)%nat && (nat_of_ascii c1 =? 128)%nat
             && ((nat_of_ascii c2 =? 168)%nat || (nat_of_ascii c2 =? 169)%nat)
         | _ => false
         end
  | EmptyString => false
  end.

(** The capture group (any characters, greedy) followed by the end-of-input
    anchor: it matches the whole rest when no line terminator occurs. *)
Fixpoint dot_star_to_end (s : string) : bool :=
  match s with
  | EmptyString => true
  | String _ r => negb (line_terminator_at s) && dot_star_to_end r
  end.

(** [uri.match] with the expression /api/v1, a capture group of any
    characters, and the end anchor: the leftmost match, reduced to its
    capture group; [None] when the expression does not match. *)
Fixpoint match_api_v1 (uri : string) : option string :=
  let here :=
    match strip_prefix "/api/v1" uri with
    | Some rest => if dot_star_to_end rest then Some rest else None
    | None => None
    end in
  match here, uri with
  | Some group, _ => Some group
  | None, String _ r => match_api_v1 r
  | None, EmptyString => None
  end.

(** ** The Zammad helper: class [ZammadDynamicCredentialsHelper] *)

Module ZammadDynamicCredentialsHelper.

Section Helper.

Variable execFunctions : IExecuteFunctions.

Definition isDynamicCredentialEnabled (itemIndex : Z) : result bool :=
  try_catch
    (useZammadDynamicCredentials ←
       getNodeParameter execFunctions "useZammadDynamicCredentials" itemIndex None;
     mret (strict_eq useZammadDynamicCredentials (VBool true)))
    (λ _, mret false).

Definition getAuthenticationType (itemIndex : Z) : result value :=
  getNodeParameter execFunctions "authentication" itemIndex None.

Definition getDynamicCredentials (itemIndex : Z) : result obj :=
  enabled ← isDynamicCredentialEnabled itemIndex;
  if negb enabled then
    Throw (new_Error "Dynamic credentials are not enabled for this node")
  else
    try_catch
      (authenticationType ← getAuthenticationType itemIndex;
       baseUrl ← getNodeParameter execFunctions "baseUrl" itemIndex (Some (VStr ""));
       allowUnauthorizedCerts ←
         getNodeParameter execFunctions "allowUnauthorizedCerts" itemIndex
           (Some (VBool false));
       let credentials : obj :=
         <["allowUnauthorizedCerts" := allowUnauthorizedCerts]> (<["baseUrl" := baseUrl]> ∅) in
       if strict_eq authenticationType (VStr "basicAuth") then
         username ← getNodeParameter execFunctions "username" itemIndex None;
         password ← getNodeParameter execFunctions "password" itemIndex None;
         mret (<["password" := password]> (<["username" := username]> credentials))
       else
         accessToken ← getNodeParameter execFunctions "accessToken" itemIndex None;
         mret (<["accessToken" := accessToken]> credentials))
      (λ error,
         Throw (new_Error ("Failed to get dynamic credentials: "
                           +:+ to_string (message error)))).

(** The URI the helper writes: the base URL without its final slash, the
    fixed prefix, and what followed the prefix in the descriptor's URI. *)
Definition rewrite_uri (baseUrl : string) (uri : value) : string :=
  let baseUrl :=
    if endsWith baseUrl "/" then substr baseUrl 0 (String.length baseUrl - 1)
    else baseUrl in
  let endpoint :=
    match uri with
    | VStr u =>
        if truthy uri then
          match match_api_v1 u with
          | Some group => if truthy (VStr group) then group else ""
          | None => ""
          end
        else ""
    | _ => ""
    end in
  baseUrl +:+ "/api/v1" +:+ endpoint.

Definition applyDynamicCredentials (options : value) (itemIndex : Z) : St heap value :=
  enabled ← lift (isDynamicCredentialEnabled itemIndex);
  if negb enabled then mret options
  else
    credentials ← lift (getDynamicCredentials itemIndex);
    authenticationType ← lift (getAuthenticationType itemIndex);
    (* const newOptions = { ...options }; *)
    copied ← own_props options;
    newOptions ← alloc (CObj copied);
    match field credentials "baseUrl" with
    | VStr baseUrl =>
        if truthy (VStr baseUrl) then
          uri ← get_prop newOptions "uri";
          set_prop newOptions "uri" (VStr (rewrite_uri baseUrl uri))
        else mret ()
    | _ => mret ()
    end;;
    (if strict_eq authenticationType (VStr "basicAuth") then
       if truthy (field credentials "username") && truthy (field credentials "password") then
         auth ← alloc (CObj (<["user" := field credentials "username"]>
                               (<["pass" := field credentials "password"]> ∅)));
         set_prop newOptions "auth" auth
       else mret ()
     else
       if truthy (field credentials "accessToken") then
         (* newOptions.headers = newOptions.headers || {}; *)
         headers ← get_prop newOptions "headers";
         headers' ← (if truthy headers then mret headers else alloc (CObj ∅));
         set_prop newOptions "headers" headers';;
         headers ← get_prop newOptions "headers";
         set_prop headers "Authorization"
           (VStr ("Token token=" +:+ to_string (field credentials "accessToken")))
       else mret ());;
    (if negb (strict_eq (field credentials "allowUnauthorizedCerts") VUndefined) then
       set_prop newOptions "rejectUnauthorized"
         (VBool (negb (truthy (field credentials "allowUnauthorizedCerts"))))
     else mret ());;
    mret newOptions.

End Helper.

End ZammadDynamicCredentialsHelper.

(** ** JSON: [JSON.stringify] and [JSON.parse] over the heap

    The text between the two calls is kept as a tree.  [JSON.stringify]
    reads the heap: an undefined field is left out, an undefined array
    element becomes null, and a reference met again below itself is a
    circular structure.  [JSON.parse] only allocates. *)

#[warnings="-register-all"]
Inductive json :=
| JNull
| JBool (b : bool)
| JNum (n : Z)
| JStr (s : string)
| JArr (elements : list json)
| JObj (members : list (string * json)).

(** What [JSON.stringify] throws on a circular structure.  The message is
    the first line of the engine's, which goes on to describe the cycle; the
    sources never read it. *)
Definition circular : error := new_TypeError "Converting circular structure to JSON".

Fixpoint mapM_result {A B} (f : A → result B) (l : list A) : result (list B) :=
  match l with
  | [] => Ok []
  | x :: r => y ← f x; ys ← mapM_result f r; mret (y :: ys)
  end.

(** [stack] holds the references being serialised, as the algorithm of the
    language standard does; [fuel] bounds the depth, and [JSON_stringify]
    starts with more fuel than the heap has cells. *)
Fixpoint stringify (fuel : nat) (stack : list nat) (h : heap) (v : value)
    : result (option json) :=
  match v with
  | VUndefined => Ok None
  | VNull => Ok (Some JNull)
  | VBool b => Ok (Some (JBool b))
  | VNum n => Ok (Some (JNum n))
  | VStr s => Ok (Some (JStr s))
  | VRef l =>
      if bool_decide (l ∈ stack) then Throw circular
      else
        match fuel with
        | O => Throw circular
        | S fuel' =>
            match h !! l with
            | Some (CObj o) =>
                members ← mapM_result
                  (λ kv : string * value,
                     j ← stringify fuel' (l :: stack) h kv.2; mret (kv.1, j))
                  (map_to_list o);
                mret (Some (JObj (omap (λ kj : string * option json,
                                          pair kj.1 <$> kj.2) members)))
            | Some (CArr a) =>
                elements ← mapM_result (stringify fuel' (l :: stack) h) a;
                mret (Some (JArr (default JNull <$> elements)))
            | None => Ok (Some (JObj []))
            end
        end
  end.

Definition JSON_stringify (h : heap) (v : value) : result (option json) :=
  stringify (S (List.length h)) [] h v.

(** Object members are written in order: a repeated key keeps the last. *)
Definition obj_of_members (kvs : list (string * value)) : obj :=
  foldl (λ o kv, <[kv.1 := kv.2]> o) ∅ kvs.

Fixpoint parse (j : json) : St heap value :=
  match j with
  | JNull => mret VNull
  | JBool b => mret (VBool b)
  | JNum n => mret (VNum n)
  | JStr s => mret (VStr s)
  | JArr elements =>
      vs ← (fix parse_elements (js : list json) : St heap (list value) :=
              match js with
              | [] => mret []
              | j :: r => v ← parse j; vs ← parse_elements r; mret (v :: vs)
              end) elements;
      alloc (CArr vs)
  | JObj members =>
      kvs ← (fix parse_members (kjs : list (string * json))
               : St heap (list (string * value)) :=
               match kjs with
               | [] => mret []
               | kj :: r => v ← parse kj.2; kvs ← parse_members r; mret ((kj.1, v) :: kvs)
               end) members;
      alloc (CObj (obj_of_members kvs))
  end.

(** [JSON.parse(JSON.stringify(v))]; the text of an undefined value does
    not parse. *)
Definition JSON_clone (v : value) : St heap value :=
  text ← (λ h, (JSON_stringify h v, h));
  match text with
  | Some j => parse j
  | None => lift (Throw (new_Error "Unexpected token u in JSON at position 0"))
  end.

(** ** Arrays *)

(** The elements a spread [...v] inside an array literal yields. *)
Definition iterate (v : value) : St heap (list value) := λ h,
  match v with
  | VRef l =>
      match h !! l with
      | Some (CArr a) => (Ok a, h)
      | _ => (Throw (new_TypeError "object is not iterable"), h)
      end
  | VStr s => (Ok ((λ c, VStr (String c EmptyString)) <$> list_ascii_of_string s), h)
  | _ => (Throw (new_TypeError (to_string v +:+ " is not iterable")), h)
  end.

Fixpoint mapM_St {S A B} (f : A → St S B) (l : list A) : St S (list B) :=
  match l with
  | [] => mret []
  | x :: r => y ← f x; ys ← mapM_St f r; mret (y :: ys)
  end.

(** [v.map(f)]: only arrays have the method. *)
Definition array_map (f : value → St heap value) (v : value) : St heap value := λ h,
  match v with
  | VRef l =>
      match h !! l with
      | Some (CArr a) => (vs ← mapM_St f a; alloc (CArr vs)) h
      | _ => (Throw (new_TypeError "map is not a function"), h)
      end
  | VUndefined | VNull =>
      (Throw (new_TypeError ("Cannot read properties of " +:+ to_string v)), h)
  | _ => (Throw (new_TypeError "map is not a function"), h)
  end.

(** ** The node description transform

    [addDynamicCredentialsProperties] (generic) and
    [addDynamicCredentialsToZammad] have the same body; each closes over its
    own module constant [dynamicCredentialsProperties], an array in the
    heap. *)

Module DynamicCredentialsProperties.

Section Literals.
Local Open Scope string_scope.

Definition show (conditions : list (string * json)) : (string * json) :=
  ("displayOptions", JObj [("show", JObj conditions)]).

Definition dynamicCredentialsProperties_literal : json :=
  JArr [
    JObj [("displayName", JStr "Use Dynamic Credentials");
          ("name", JStr "useDynamicCredentials");
          ("type", JStr "boolean");
          ("default", JBool false);
          ("description",
           JStr "Whether to use credentials from a previous node instead of stored credentials")];
    JObj [("displayName", JStr "Credential Type");
          ("name", JStr "credentialType");
          ("type", JStr "options");
          show [("useDynamicCredentials", JArr [JBool true])];
          ("options", JArr [JObj [("name", JStr "OAuth2"); ("value", JStr "oauth2")];
                            JObj [("name", JStr "API Key"); ("value", JStr "apiKey")];
                            JObj [("name", JStr "Basic Auth"); ("value", JStr "basic")]]);
          ("default", JStr "oauth2");
          ("description", JStr "Type of credential to use from the input data")];
    JObj [("displayName", JStr "Access Token");
          ("name", JStr "credentialPath");
          ("type", JStr "string");
          show [("useDynamicCredentials", JArr [JBool true]);
                ("credentialType", JArr [JStr "oauth2"])];
          ("default", JStr "");
          ("description", JStr "Access token for OAuth2 authentication")];
    JObj [("displayName", JStr "API Key");
          ("name", JStr "credentialPath");
          ("type", JStr "string");
          show [("useDynamicCredentials", JArr [JBool true]);
                ("credentialType", JArr [JStr "apiKey"])];
          ("default", JStr "");
          ("description", JStr "API key for authentication")];
    JObj [("displayName", JStr "Username");
          ("name", JStr "basicUsername");
          ("type", JStr "string");
          show [("useDynamicCredentials", JArr [JBool true]);
                ("credentialType", JArr [JStr "basic"])];
          ("default", JStr "");
          ("description", JStr "Username for basic authentication")];
    JObj [("displayName", JStr "Password");
          ("name", JStr "basicPassword");
          ("type", JStr "string");
          ("typeOptions", JObj [("password", JBool true)]);
          show [("useDynamicCredentials", JArr [JBool true]);
                ("credentialType", JArr [JStr "basic"])];
          ("default", JStr "");
          ("description", JStr "Password for basic authentication")];
    JObj [("displayName", JStr "API Key Location");
          ("name", JStr "apiKeyLocation");
          ("type", JStr "options");
          show [("useDynamicCredentials", JArr [JBool true]);
                ("credentialType", JArr [JStr "apiKey"])];
          ("options", JArr [JObj [("name", JStr "Header"); ("value", JStr "header")];
                            JObj [("name", JStr "Query Parameter"); ("value", JStr "query")]]);
          ("default", JStr "header");
          ("description", JStr "Where to add the API key in the request")];
    JObj [("displayName", JStr "API Key Name");
          ("name", JStr "apiKeyName");
          ("type", JStr "string");
          show [("useDynamicCredentials", JArr [JBool true]);
                ("credentialType", JArr [JStr "apiKey"])];
          ("default", JStr "X-API-Key");
          ("description", JStr "Name of the header or query parameter for the API key")]
  ].

End Literals.

(** Loading the module evaluates the array literal: the constant
    [dynamicCredentialsProperties] is the reference it returns. *)
Definition load_dynamicCredentialsProperties : St heap value :=
  parse dynamicCredentialsProperties_literal.

Section Transform.

(** The module constant the function closes over. *)
Variable dynamicCredentialsProperties : value.

Definition addDynamicCredentialsProperties (nodeDescription : value) : St heap value :=
  (* Clone the description to avoid modifying the original *)
  newDescription ← JSON_clone nodeDescription;
  (* [...dynamicCredentialsProperties, ...(newDescription.properties || [])] *)
  dynamic ← iterate dynamicCredentialsProperties;
  properties ← get_prop newDescription "properties";
  properties' ← (if truthy properties then mret properties else alloc (CArr []));
  existing ← iterate properties';
  merged ← alloc (CArr (dynamic ++ existing));
  set_prop newDescription "properties" merged;;
  credentials ← get_prop newDescription "credentials";
  (if truthy credentials then
     mapped ← array_map
       (λ credential,
          copied ← own_props credential;
          alloc (CObj (<["required" := VBool false]> copied)))
       credentials;
     set_prop newDescription "credentials" mapped
   else mret ());;
  mret newDescription.

End Transform.

End DynamicCredentialsProperties.

(** ** The Zammad property table and its transform

    The Zammad file has a property table of its own and the function
    [addDynamicCredentialsToZammad], whose body is the body of
    [addDynamicCredentialsProperties] over that table. *)

Module ZammadDynamicCredentialsProperties.

Section Literals.
Local Open Scope string_scope.

Definition show (conditions : list (string * json)) : (string * json) :=
  ("displayOptions", JObj [("show", JObj conditions)]).

Definition dynamicCredentialsProperties_literal : json :=
  JArr [
    JObj [("displayName", JStr "Use Dynamic Credentials");
          ("name", JStr "useDynamicCredentials");
          ("type", JStr "boolean");
          ("default", JBool false);
          ("description",
           JStr "Whether to use credentials from a previous node instead of stored credentials")];
    JObj [("displayName", JStr "Authentication");
          ("name", JStr "dynamicAuthentication");
          ("type", JStr "options");
          show [("useDynamicCredentials", JArr [JBool true])];
          ("options", JArr [JObj [("name", JStr "Basic Auth"); ("value", JStr "basicAuth")];
                            JObj [("name", JStr "Token Auth"); ("value", JStr "tokenAuth")]]);
          ("default", JStr "tokenAuth")];
    JObj [("displayName", JStr "Base URL");
          ("name", JStr "baseUrl");
          ("type", JStr "string");
          show [("useDynamicCredentials", JArr [JBool true])];
          ("default", JStr "");
          ("description",
           JStr "Base URL of the Zammad instance, e.g. https://your-domain.zammad.com");
          ("placeholder",
           JStr "e.g. https://your-domain.zammad.com or {{ $json.credentials.baseUrl }}")];
    JObj [("displayName", JStr "Allow Unauthorized Certificates");
          ("name", JStr "allowUnauthorizedCerts");
          ("type", JStr "boolean");
          show [("useDynamicCredentials", JArr [JBool true])];
          ("default", JBool false);
          ("description", JStr "Whether to connect even if SSL certificate is not trusted")];
    JObj [("displayName", JStr "Username");
          ("name", JStr "username");
          ("type", JStr "string");
          show [("useDynamicCredentials", JArr [JBool true]);
                ("dynamicAuthentication", JArr [JStr "basicAuth"])];
          ("default", JStr "");
          ("description", JStr "Username for basic authentication");
          ("placeholder",
           JStr "e.g. admin@example.com or {{ $json.credentials.username }}")];
    JObj [("displayName", JStr "Password");
          ("name", JStr "password");
          ("type", JStr "string");
          ("typeOptions", JObj [("password", JBool true)]);
          show [("useDynamicCredentials", JArr [JBool true]);
                ("dynamicAuthentication", JArr [JStr "basicAuth"])];
          ("default", JStr "");
          ("description", JStr "Password for basic authentication");
          ("placeholder", JStr "e.g. password123 or {{ $json.credentials.password }}")];
    JObj [("displayName", JStr "Access Token");
          ("name", JStr "accessToken");
          ("type", JStr "string");
          ("typeOptions", JObj [("password", JBool true)]);
          show [("useDynamicCredentials", JArr [JBool true]);
                ("dynamicAuthentication", JArr [JStr "tokenAuth"])];
          ("default", JStr "");
          ("description", JStr "Access token for token authentication");
          ("placeholder",
           JStr "e.g. abcdef1234567890 or {{ $json.credentials.accessToken }}")]
  ].

End Literals.

(** Loading the module evaluates the array literal. *)
Definition load_dynamicCredentialsProperties : St heap value :=
  parse dynamicCredentialsProperties_literal.

Section Transform.

(** The module constant the function closes over. *)
Variable dynamicCredentialsProperties : value.

Definition addDynamicCredentialsToZammad (nodeDescription : value) : St heap value :=
  (* Clone the description to avoid modifying the original *)
  newDescription ← JSON_clone nodeDescription;
  (* [...dynamicCredentialsProperties, ...(newDescription.properties || [])] *)
  dynamic ← iterate dynamicCredentialsProperties;
  properties ← get_prop newDescription "properties";
  properties' ← (if truthy properties then mret properties else alloc (CArr []));
  existing ← iterate properties';
  merged ← alloc (CArr (dynamic ++ existing));
  set_prop newDescription "properties" merged;;
  credentials ← get_prop newDescription "credentials";
  (if truthy credentials then
     mapped ← array_map
       (λ credential,
          copied ← own_props credential;
          alloc (CObj (<["required" := VBool false]> copied)))
       credentials;
     set_prop newDescription "credentials" mapped
   else mret ());;
  mret newDescription.

End Transform.

End ZammadDynamicCredentialsProperties.


(** ** The Outlook transport: [microsoftApiRequest] and
    [microsoftApiRequestAllItems] *)

(** [s.toLowerCase()] on ASCII letters. *)
Definition lower_ascii (c : ascii) : ascii :=
  let n := nat_of_ascii c in
  if (65 <=? n)%nat && (n <=? 90)%nat then ascii_of_nat (n + 32) else c.

Fixpoint toLowerCase (s : string) : string :=
  match s with
  | EmptyString => EmptyString
  | String c r => String (lower_ascii c) (toLowerCase r)
  end.

(** [s.includes(sub)] *)
Fixpoint includes (s sub : string) : bool :=
  String.prefix sub s
  || match s with
     | EmptyString => false
     | String _ r => includes r sub
     end.

(** The double-quote character, as a string. *)
Definition dquote : string := String (ascii_of_nat 34) EmptyString.

(** [a > b] for a number [b]; a value that is not a number compares false
    (the only left operand in the sources is an array length). *)
Definition js_gt (a : value) (b : Z) : bool :=
  match a with
  | VNum n => (b <? n)%Z
  | _ => false
  end.

Module MicrosoftOutlook.

(** What the host was asked, in order.  A request keeps the options
    reference and the heap as it was when the request left. *)
Inductive event :=
| EvGetCredentials (name : string)
| EvRequest (options : value) (at_call : heap)
| EvRequestWithAuthentication (name : string) (options : value) (at_call : heap).

Section Transport.

(** The state of the host (credential store, remote service). *)
Context {H : Type}.

Record world := World {
  w_heap : heap;
  w_host : H;
  w_events : list event;
}.

(** [this]: the execution context.  Load-options and poll contexts lack
    some methods, hence the options.  Host functions read the heap, answer
    with data and never write to the objects they are given.
    [prepareApiError] comes from the helpers module of the node. *)
Record Context := {
  ctx_getNodeParameter : option (string → Z → option value → result value);
  ctx_getInputData : option (result value);
  ctx_getCredentials : string → H → result json * H;
  ctx_request : value → heap → H → result json * H;
  ctx_requestWithAuthentication : string → value → heap → H → result json * H;
  prepareApiError : error → result (option error);
}.

Variable this : Context.

Definition on_heap {A} (m : St heap A) : St world A :=
  λ w, let '(r, h) := m (w_heap w) in
       (r, {| w_heap := h; w_host := w_host w; w_events := w_events w |}).

(** A host call: the event is recorded, the host state advances and the
    answer is built in the heap. *)
Definition host_call (ev : heap → event) (f : heap → H → result json * H)
    : St world value :=
  λ w, let '(r, s) := f (w_heap w) (w_host w) in
       let w' := {| w_heap := w_heap w; w_host := s;
                    w_events := w_events w ++ [ev (w_heap w)] |} in
       match r with
       | Ok j => on_heap (parse j) w'
       | Throw e => (Throw e, w')
       end.

Definition getCredentials (name : string) : St world value :=
  host_call (λ _, EvGetCredentials name) (λ _, ctx_getCredentials this name).

Definition helpers_request (options : value) : St world value :=
  host_call (EvRequest options) (ctx_request this options).

Definition helpers_requestWithAuthentication (name : string) (options : value)
    : St world value :=
  host_call (EvRequestWithAuthentication name options)
    (ctx_requestWithAuthentication this name options).

(** [this.getNodeParameter && this.getInputData] *)
Definition has_parameters_and_input : bool :=
  match ctx_getNodeParameter this, ctx_getInputData this with
  | Some _, Some _ => true
  | _, _ => false
  end.

Definition this_getNodeParameter (name : string) (itemIndex : Z) (fallback : option value)
    : result value :=
  match ctx_getNodeParameter this with
  | Some f => f name itemIndex fallback
  | None => Throw (new_TypeError "this.getNodeParameter is not a function")
  end.

Definition this_getInputData : result value :=
  match ctx_getInputData this with
  | Some r => r
  | None => Throw (new_TypeError "this.getInputData is not a function")
  end.

(** A parameter with a default value: [undefined] takes the default. *)
Definition or_default (v : value) (d : St heap value) : St world value :=
  if strict_eq v VUndefined then on_heap d else mret v.

(** [Object.keys(v).length] *)
Definition keys_length (v : value) : St heap nat := λ h,
  match v with
  | VUndefined | VNull =>
      (Throw (new_TypeError "Cannot convert undefined or null to object"), h)
  | _ => (Ok (size (own_props_of h v)), h)
  end.

(** [Object.assign(target, source)] *)
Definition Object_assign (target source : value) : St heap () := λ h,
  match target with
  | VRef l =>
      match h !! l with
      | Some (CObj o) => (Ok (), <[l := CObj (own_props_of h source ∪ o)]> h)
      | _ => (Ok (), h)
      end
  | VUndefined | VNull =>
      (Throw (new_TypeError "Cannot convert undefined or null to object"), h)
  | _ => (Ok (), h)
  end.

(** The branch [credentialsSource === 'dynamic']: the credentials are read
    from the input item. *)
Definition input_credentials (itemIndex : Z) : St world value :=
  credentialsParameterName ←
    lift (this_getNodeParameter "credentialsParameterName" itemIndex
            (Some (VStr "credentials")));
  inputData ← lift this_getInputData;
  available ←
    ((if truthy inputData then
        len ← on_heap (get_prop inputData "length");
        if js_gt len itemIndex then
          item ← on_heap (get_prop inputData (pretty itemIndex));
          data ← on_heap (get_prop item "json");
          mret (truthy data)
        else mret false
      else mret false) : St world bool);
  if available : bool then
    item ← on_heap (get_prop inputData (pretty itemIndex));
    data ← on_heap (get_prop item "json");
    credentials ← on_heap (get_prop data (to_string credentialsParameterName));
    if negb (truthy credentials) then
      lift (Throw (new_Error
        ("No credentials found in input data with parameter name "
         +:+ dquote +:+ to_string credentialsParameterName +:+ dquote)))
    else mret credentials
  else
    lift (Throw (new_Error "No input data available for dynamic credentials")).

Definition resolve_credentials (itemIndex : Z) : St world value :=
  if has_parameters_and_input then
    st_try_catch
      (credentialsSource ←
         lift (this_getNodeParameter "credentialsSource" itemIndex (Some (VStr "static")));
       if strict_eq credentialsSource (VStr "dynamic") then input_credentials itemIndex
       else getCredentials "microsoftOutlookOAuth2Api")
      (λ _, getCredentials "microsoftOutlookOAuth2Api")
  else getCredentials "microsoftOutlookOAuth2Api".

(** The [catch] block of [microsoftApiRequest]: what is thrown in the end. *)
Definition api_error (thrown : error) : result error :=
  lowered ←
    match message thrown with
    | VStr m => Ok (toLowerCase (if truthy (message thrown) then m else ""))
    | m => if truthy m then Throw (new_TypeError "toLowerCase is not a function")
           else Ok (toLowerCase "")
    end;
  if (includes lowered "bad request" || includes lowered "unknown error")
     && truthy (description thrown) then
    let updatedError :=
      match prepareApiError this thrown with
      | Ok (Some e) => Some e
      | _ => None
      end in
    match updatedError with
    | Some e => Ok e
    | None => Ok {| message := description thrown; description := VStr "" |}
    end
  else Ok thrown.

Definition microsoftApiRequest (method resource body qs uri headers option : value)
    (itemIndex : Z) : St world value :=
  body ← or_default body (alloc (CObj ∅));
  qs ← or_default qs (alloc (CObj ∅));
  headers ← or_default headers (alloc (CObj ∅));
  option ← or_default option (alloc (CObj (<["json" := VBool true]> ∅)));
  credentials ← resolve_credentials itemIndex;
  useShared ← on_heap (get_prop credentials "useShared");
  userPrincipalName ←
    (if truthy useShared then on_heap (get_prop credentials "userPrincipalName")
     else mret useShared);
  let apiUrl :=
    if truthy useShared && truthy userPrincipalName then
      "https://graph.microsoft.com/v1.0/users/" +:+ to_string userPrincipalName
      +:+ to_string resource
    else "https://graph.microsoft.com/v1.0/me" +:+ to_string resource in
  contentType ← on_heap (alloc (CObj (<["Content-Type" := VStr "application/json"]> ∅)));
  options ← on_heap (alloc (CObj
    (<["headers" := contentType]>
       (<["method" := method]>
          (<["body" := body]>
             (<["qs" := qs]>
                (<["uri" := if truthy uri then uri else VStr apiUrl]> ∅)))))));
  st_try_catch
    (on_heap (Object_assign options option);;
     n ← on_heap (keys_length headers);
     (if negb (n =? 0)%nat then
        merged ← on_heap (alloc (CObj ∅));
        current ← on_heap (get_prop options "headers");
        on_heap (Object_assign merged current);;
        on_heap (Object_assign merged headers);;
        on_heap (set_prop options "headers" merged)
      else mret ());;
     m ← on_heap (keys_length body);
     (if (m =? 0)%nat then on_heap (delete_prop options "body") else mret ());;
     dynamic ←
       ((if truthy credentials && has_parameters_and_input then
           credentialsSource ←
             lift (this_getNodeParameter "credentialsSource" itemIndex (Some (VStr "static")));
           mret (strict_eq credentialsSource (VStr "dynamic"))
         else mret false) : St world bool);
     (if dynamic : bool then
       current ← on_heap (get_prop options "headers");
       copied ← on_heap (own_props current);
       token ← on_heap (get_prop credentials "access_token");
       withAuth ← on_heap (alloc (CObj
         (<["Authorization" := VStr ("Bearer " +:+ to_string token)]> copied)));
       on_heap (set_prop options "headers" withAuth);;
       helpers_request options
     else
       helpers_requestWithAuthentication "microsoftOutlookOAuth2Api" options)
      : St world value)
    (λ caught, thrown ← lift (api_error caught); lift (Throw thrown)).

(** [returnData.push.apply(returnData, items)]: an absent argument list
    pushes nothing, an array pushes its elements, a primitive is refused. *)
Definition push_apply (returnData items : value) : St heap () := λ h,
  match items with
  | VUndefined | VNull => (Ok (), h)
  | VRef l =>
      let pushed :=
        match h !! l with
        | Some (CArr a) => a
        | _ => []
        end in
      match returnData with
      | VRef r =>
          match h !! r with
          | Some (CArr old) => (Ok (), <[r := CArr (old ++ pushed)]> h)
          | _ => (Ok (), h)
          end
      | _ => (Ok (), h)
      end
  | _ => (Throw (new_TypeError "CreateListFromArrayLike called on non-object"), h)
  end.

(** The [do ... while] loop; [fuel] bounds the number of pages fetched and
    [false] is returned when it runs out before the last page. *)
Fixpoint pages (fuel : nat) (propertyName method endpoint body query headers : value)
    (itemIndex : Z) (returnData nextLink : value) : St world bool :=
  match fuel with
  | O => mret false
  | S fuel' =>
      option ← on_heap (alloc (CObj (<["json" := VBool true]> ∅)));
      responseData ←
        microsoftApiRequest method endpoint body
          (if truthy nextLink then VUndefined else query)
          nextLink headers option itemIndex;
      nextLink' ← on_heap (get_prop responseData "@odata.nextLink");
      items ← on_heap (get_prop responseData (to_string propertyName));
      on_heap (push_apply returnData items);;
      again ← on_heap (get_prop responseData "@odata.nextLink");
      if negb (strict_eq again VUndefined) then
        pages fuel' propertyName method endpoint body query headers itemIndex
          returnData nextLink'
      else mret true
  end.

(** [None]: still paging when the fuel ran out. *)
Definition microsoftApiRequestAllItems (fuel : nat)
    (propertyName method endpoint body query headers : value) (itemIndex : Z)
    : St world (option value) :=
  body ← or_default body (alloc (CObj ∅));
  query ← or_default query (alloc (CObj ∅));
  headers ← or_default headers (alloc (CObj ∅));
  returnData ← on_heap (alloc (CArr []));
  on_heap (set_prop query "$top" (VNum 100));;
  finished ← pages fuel propertyName method endpoint body query headers itemIndex
                returnData VUndefined;
  mret (if finished : bool then Some returnData else None).

End Transport.

Arguments world H : clear implicits.
Arguments Context H : clear implicits.

End MicrosoftOutlook.

(** * Vocabulary of the statements *)

(** The heap after [v[k] = x] on a reference. *)
Definition write (h : heap) (l : nat) (k : string) (x : value) : heap :=
  match h !! l with
  | Some (CObj o) => <[l := CObj (<[k := x]> o)]> h
  | _ => h
  end.

(** Field [k] of the object at [l], if there is such an object and field. *)
Definition lookup_field (h : heap) (l : nat) (k : string) : option value :=
  match h !! l with
  | Some (CObj o) => o !! k
  | _ => None
  end.

(** The query object at [q] holds [$top = 100]. *)
Definition has_top (q : nat) (h : heap) : Prop :=
  ∃ o, h !! q = Some (CObj o) ∧ o !! "$top" = Some (VNum 100).

(** A request left while the query object held [$top = 100]. *)
Definition event_sees_top (q : nat) (ev : MicrosoftOutlook.event) : Prop :=
  match ev with
  | MicrosoftOutlook.EvGetCredentials _ => True
  | MicrosoftOutlook.EvRequest _ at_call
  | MicrosoftOutlook.EvRequestWithAuthentication _ _ at_call => has_top q at_call
  end.

(** The value [v] holds, in heap [h], exactly the JSON text [j]. *)
Fixpoint repr (h : heap) (v : value) (j : json) : Prop :=
  match j with
  | JNull => v = VNull
  | JBool b => v = VBool b
  | JNum n => v = VNum n
  | JStr s => v = VStr s
  | JArr js =>
      ∃ l vs, v = VRef l ∧ h !! l = Some (CArr vs)
        ∧ (fix all (js : list json) (vs : list value) : Prop :=
             match js, vs with
             | [], [] => True
             | j :: js, v :: vs => repr h v j ∧ all js vs
             | _, _ => False
             end) js vs
  | JObj kjs =>
      ∃ l kvs, v = VRef l ∧ h !! l = Some (CObj (obj_of_members kvs))
        ∧ (fix all (kjs : list (string * json)) (kvs : list (string * value)) : Prop :=
             match kjs, kvs with
             | [], [] => True
             | kj :: kjs, kv :: kvs => (kv.1 = kj.1 ∧ repr h kv.2 kj.2) ∧ all kjs kvs
             | _, _ => False
             end) kjs kvs
  end.

(** A member holds the text of the member with the same key. *)
Definition repr_member (h : heap) (kv : string * value) (kj : string * json) : Prop :=
  kv.1 = kj.1 ∧ repr h kv.2 kj.2.

(** The members of a JSON object as a map: a repeated key keeps the last. *)
Definition json_fields (members : list (string * json)) : gmap string json :=
  foldl (λ o kj, <[kj.1 := kj.2]> o) ∅ members.


(** A reference is allocated. *)
Definition allocated (h : heap) (v : value) : Prop := ∀ l, v = VRef l → (l < length h)%nat.

(** The two loops inside [parse], by name. *)
Definition parse_elements : list json → St heap (list value) :=
  fix parse_elements (js : list json) : St heap (list value) :=
    match js with
    | [] => mret []
    | j :: r => v ← parse j; vs ← parse_elements r; mret (v :: vs)
    end.

Definition parse_members : list (string * json) → St heap (list (string * value)) :=
  fix parse_members (kjs : list (string * json)) : St heap (list (string * value)) :=
    match kjs with
    | [] => mret []
    | kj :: r => v ← parse kj.2; kvs ← parse_members r; mret ((kj.1, v) :: kvs)
    end.



(** From a state in [P], [m] ends in [Q] when it returns and in [E] when it
    throws. *)
Definition triple {S A} (P : S → Prop) (m : St S A) (Q : A → S → Prop) (E : S → Prop)
    : Prop :=
  ∀ s, P s → match m s with
             | (Ok a, s') => Q a s'
             | (Throw _, s') => E s'
             end.

(** A computation that keeps an invariant whatever it returns. *)
Definition keeps {S A} (I : S → Prop) (m : St S A) : Prop := triple I m (λ _, I) I.

(** The invariant of a call on the query object [q], started when the
    events were [before]: the object holds [$top = 100], and so it did when
    each request of the call left. *)
Definition top_kept {H} (q : nat) (before : list MicrosoftOutlook.event)
    (w : MicrosoftOutlook.world H) : Prop :=
  has_top q (MicrosoftOutlook.w_heap w)
  ∧ ∃ evs, MicrosoftOutlook.w_events w = before ++ evs ∧ Forall (event_sees_top q) evs.

(** The state after one application of the original method to [this] and
    [args]. *)
Definition applied_once {H} (originalMethod : value → list value → H → result value * H)
    (this : value) (args : list value) (w : DynamicCredentialsHelper.host_state H)
    : DynamicCredentialsHelper.host_state H :=
  {| DynamicCredentialsHelper.host :=
       (originalMethod this args (DynamicCredentialsHelper.host w)).2;
     DynamicCredentialsHelper.invocations :=
       DynamicCredentialsHelper.invocations w ++ [(this, args)] |}.

(** The two cells the generic helper allocates for a descriptor [od]: the
    copy, pointing at its fresh headers, and the headers. *)
Definition with_fresh_headers (h : heap) (od headers : obj) : heap :=
  h ++ [CObj (<["headers" := VRef (S (length h))]> od); CObj headers].

(** The [uri] of the descriptor the Zammad helper returns for the
    descriptor [od]: rewritten when the base URL is a non-empty string. *)
Definition rewritten_uri (baseUrl : value) (od : obj) : option value :=
  match baseUrl with
  | VStr b => if String.eqb b "" then od !! "uri"
              else Some (VStr (ZammadDynamicCredentialsHelper.rewrite_uri b (field od "uri")))
  | _ => od !! "uri"
  end.

(** Its [rejectUnauthorized]. *)
Definition reject_unauthorized (allow : value) (od : obj) : option value :=
  if bool_decide (allow = VUndefined) then od !! "rejectUnauthorized"
  else Some (VBool (negb (truthy allow))).

(** What the proxy hands back when the original method answered [r]. *)
Definition returned (r : result value) : result DynamicCredentialsHelper.proxy_value :=
  match r with
  | Ok v => Ok (DynamicCredentialsHelper.Returned v)
  | Throw e => Throw e
  end.

(** What a node's [execute] ends with when every lookup is answered [r]. *)
Fixpoint answered {A} (node : WrapNodeExecute.execute A)
    (r : result DynamicCredentialsHelper.proxy_value) : result A :=
  match node with
  | WrapNodeExecute.Finish x => x
  | WrapNodeExecute.GetCredentials _ next => answered (next r) r
  end.

(** The names of the parameters a property table declares. *)
Definition property_names (table : json) : list string :=
  match table with
  | JArr properties =>
      omap (λ property,
              match property with
              | JObj members =>
                  match json_fields members !! "name" with
                  | Some (JStr name) => Some name
                  | _ => None
                  end
              | _ => None
              end) properties
  | _ => []
  end.

(** The values that [to_string] prints as a template literal and a computed
    property name do: strings, booleans, [null], [undefined] and the integers
    that a number holds exactly.  A larger number is printed rounded or with
    an exponent, and an object is printed by its own [toString] (an array
    joins its elements); the statements that fix a text leave those out. *)
Definition plain_text (v : value) : bool :=
  match v with
  | VRef _ => false
  | VNum n => bool_decide (Z.abs n < 2 ^ 53)
  | _ => true
  end.

(** The heap [s] is the heap [h] with more cells behind it. *)
Definition extends (h s : heap) : Prop := ∃ ext, s = h ++ ext.

(** A value that is no reference into [h]. *)
Definition fresh_for (h : heap) (v : value) : Prop :=
  ∀ l, v = VRef l → (length h ≤ l)%nat.

(** The cell at [l] refers to the cell at [l']. *)
Definition child (h : heap) (l l' : nat) : Prop :=
  match h !! l with
  | Some (CObj o) => ∃ k, o !! k = Some (VRef l')
  | Some (CArr a) => VRef l' ∈ a
  | None => False
  end.

(** From [l], following references, a cell is met for the second time
    ([stack] holds the cells already passed): the structure is circular. *)
Inductive meets_again (h : heap) : list nat → nat → Prop :=
| meets_here stack l : l ∈ stack → meets_again h stack l
| meets_below stack l l' :
    child h l l' → meets_again h (l :: stack) l' → meets_again h stack l.

(** The cell at [l] is a plain object. *)
Definition is_obj (l : nat) (h : heap) : Prop := ∃ o, h !! l = Some (CObj o).

(** A lookup of the stored Outlook credentials. *)
Definition is_lookup (ev : MicrosoftOutlook.event) : Prop :=
  ev = MicrosoftOutlook.EvGetCredentials "microsoftOutlookOAuth2Api".

(** A request through [helpers.request], which adds no authentication. *)
Definition is_plain_request (ev : MicrosoftOutlook.event) : Prop :=
  ∃ options at_call, ev = MicrosoftOutlook.EvRequest options at_call.

(** A request through [helpers.requestWithAuthentication] with the stored
    Outlook credentials. *)
Definition is_authenticated_request (ev : MicrosoftOutlook.event) : Prop :=
  ∃ options at_call,
    ev = MicrosoftOutlook.EvRequestWithAuthentication "microsoftOutlookOAuth2Api"
           options at_call.

(** The events of a call that started after [before]: at most [n] lookups,
    then the requests [requests]. *)
Definition lookups_then (before : list MicrosoftOutlook.event) (n : nat)
    (requests : list MicrosoftOutlook.event) (evs : list MicrosoftOutlook.event) : Prop :=
  ∃ lookups,
    evs = before ++ lookups ++ requests
    ∧ Forall is_lookup lookups ∧ (length lookups ≤ n)%nat.

Definition looked_up {H} (before : list MicrosoftOutlook.event) (n : nat)
    (requests : list MicrosoftOutlook.event) (w : MicrosoftOutlook.world H) : Prop :=
  lookups_then before n requests (MicrosoftOutlook.w_events w).

(** At most two lookups, then at most one request, which is plain only if
    [dynamic]. *)
Definition requests_then (before : list MicrosoftOutlook.event) (dynamic : Prop)
    (evs : list MicrosoftOutlook.event) : Prop :=
  ∃ requests,
    lookups_then before 2 requests evs
    ∧ (length requests ≤ 1)%nat
    ∧ Forall (λ ev, is_authenticated_request ev ∨ (is_plain_request ev ∧ dynamic)) requests.

Definition requested {H} (before : list MicrosoftOutlook.event) (dynamic : Prop)
    (w : MicrosoftOutlook.world H) : Prop :=
  requests_then before dynamic (MicrosoftOutlook.w_events w).

(** Invariants that only speak of the events. *)
Definition on_events {H} (J : list MicrosoftOutlook.event → Prop)
    : MicrosoftOutlook.world H → Prop :=
  λ w, J (MicrosoftOutlook.w_events w).

(** A request through [helpers.request] left with an [Authorization]
    header of the form [Bearer ...] in the headers of its options. *)
Definition carries_bearer (ev : MicrosoftOutlook.event) : Prop :=
  match ev with
  | MicrosoftOutlook.EvRequest options at_call =>
      ∃ l o headers oh token,
        options = VRef l ∧ at_call !! l = Some (CObj o)
        ∧ o !! "headers" = Some (VRef headers) ∧ at_call !! headers = Some (CObj oh)
        ∧ oh !! "Authorization" = Some (VStr ("Bearer " +:+ token))
  | _ => True
  end.

(** The events sent since [before] all satisfy [good]. *)
Definition sent_since (good : MicrosoftOutlook.event → Prop)
    (before evs : list MicrosoftOutlook.event) : Prop :=
  ∃ sent, evs = before ++ sent ∧ Forall good sent.

(** The invariant of a call on plain requests, and the same once the
    options object [l] of the call exists. *)
Definition bearer_since {H} (before : list MicrosoftOutlook.event)
    : MicrosoftOutlook.world H → Prop :=
  on_events (sent_since carries_bearer before).

Definition bearer_since_obj {H} (before : list MicrosoftOutlook.event) (l : nat)
    : MicrosoftOutlook.world H → Prop :=
  λ w, bearer_since before w ∧ is_obj l (MicrosoftOutlook.w_heap w).

(** The remote service answers every request with a single page: an object
    without [@odata.nextLink] (or it fails). *)
Definition single_page {H} (this : MicrosoftOutlook.Context H) : Prop :=
  (∀ options h s j s',
     MicrosoftOutlook.ctx_request this options h s = (Ok j, s') →
     ∃ members, j = JObj members ∧ json_fields members !! "@odata.nextLink" = None)
  ∧ (∀ name options h s j s',
       MicrosoftOutlook.ctx_requestWithAuthentication this name options h s = (Ok j, s') →
       ∃ members, j = JObj members ∧ json_fields members !! "@odata.nextLink" = None).

(** The array cell [r] holds [items]. *)
Definition holds_array (r : nat) (items : list value) (h : heap) : Prop :=
  h !! r = Some (CArr items).

(** The host answered the request [ev] with the text [j], and was left in
    state [s']. *)
Definition answers {H} (this : MicrosoftOutlook.Context H) (ev : MicrosoftOutlook.event)
    (j : json) (s' : H) : Prop :=
  match ev with
  | MicrosoftOutlook.EvRequest options at_call =>
      ∃ s, MicrosoftOutlook.ctx_request this options at_call s = (Ok j, s')
  | MicrosoftOutlook.EvRequestWithAuthentication name options at_call =>
      ∃ s, MicrosoftOutlook.ctx_requestWithAuthentication this name options at_call s
           = (Ok j, s')
  | MicrosoftOutlook.EvGetCredentials _ => False
  end.

(** The names that every plain object inherits from [Object.prototype]. *)
Definition inherited_names : list string :=
  ["constructor"; "__proto__"; "hasOwnProperty"; "isPrototypeOf"; "propertyIsEnumerable";
   "toLocaleString"; "toString"; "valueOf"; "__defineGetter__"; "__defineSetter__";
   "__lookupGetter__"; "__lookupSetter__"].

(** What one page adds to an empty array: the elements of the array that
    the response [members] holds under [k], in order; nothing when it holds
    [null] there, or has no member [k] and inherits none. *)
Definition accumulated (h : heap) (members : list (string * json)) (k : string)
    (items : list value) : Prop :=
  (∀ js, json_fields members !! k = Some (JArr js) → Forall2 (repr h) items js)
  ∧ (json_fields members !! k = Some JNull → items = [])
  ∧ (json_fields members !! k = None → k ∉ inherited_names → items = []).

(** A round of the loop has started: the events recorded so far number at
    least [n], and the array [rd] is still empty. *)
Definition round_started {H} (n rd : nat) : MicrosoftOutlook.world H → Prop :=
  λ w, (n ≤ length (MicrosoftOutlook.w_events w))%nat
       ∧ holds_array rd [] (MicrosoftOutlook.w_heap w).

(** The request of the round was answered with a last page, which [r]
    holds; the array [rd] is no part of it. *)
Definition served {H} (this : MicrosoftOutlook.Context H) (n rd : nat) (r : value)
    : MicrosoftOutlook.world H → Prop :=
  λ w, holds_array rd [] (MicrosoftOutlook.w_heap w)
       ∧ ∃ evs ev members,
           MicrosoftOutlook.w_events w = evs ++ [ev] ∧ (n ≤ length evs)%nat
           ∧ answers this ev (JObj members) (MicrosoftOutlook.w_host w)
           ∧ json_fields members !! "@odata.nextLink" = None
           ∧ ∀ c, repr (<[rd := c]> (MicrosoftOutlook.w_heap w)) r (JObj members).

(** The round is over: after at most two lookups one request was answered,
    and the array [rd] holds what the answer has under [k]. *)
Definition collected {H} (this : MicrosoftOutlook.Context H)
    (before : list MicrosoftOutlook.event) (rd : nat) (k : string)
    : MicrosoftOutlook.world H → Prop :=
  λ w, ∃ items lookups request members,
         holds_array rd items (MicrosoftOutlook.w_heap w)
         ∧ MicrosoftOutlook.w_events w = before ++ lookups ++ [request]
         ∧ Forall is_lookup lookups ∧ (length lookups ≤ 2)%nat
         ∧ answers this request (JObj members) (MicrosoftOutlook.w_host w)
         ∧ accumulated (MicrosoftOutlook.w_heap w) members k items.

(** * Concrete descriptors, stores and hosts *)



(** Basic authentication with the credentials of spec property 4. *)
Definition basic_store : ParameterStore :=
  λ _, <["useDynamicCredentials" := VBool true]>
         (<["credentialType" := VStr "basic"]>
            (<["basicUsername" := VStr "u"]> (<["basicPassword" := VStr "p"]> ∅))).

(** An API key sent as a query parameter, under the default name. *)
Definition apiKey_query_store : ParameterStore :=
  λ _, <["useDynamicCredentials" := VBool true]>
         (<["credentialType" := VStr "apiKey"]>
            (<["credentialPath" := VStr "abc"]>
               (<["apiKeyLocation" := VStr "query"]> ∅))).

(** A descriptor with an Accept header and no query map. *)
Definition get_tickets : heap :=
  [CObj (<["uri" := VStr "https://example.com/tickets"]> (<["headers" := VRef 1]> ∅));
   CObj (<["Accept" := VStr "application/json"]> ∅)].

(** The URIs of spec property 6. *)
Definition old_ticket_uri : string := "https://old.example.com/api/v1/tickets/5".
Definition new_base_url : string := "https://new.example.com/".
Definition new_ticket_uri : string := "https://new.example.com/api/v1/tickets/5".

(** Zammad token authentication against the new base URL. *)
Definition zammad_token_store : ParameterStore :=
  λ _, <["useZammadDynamicCredentials" := VBool true]>
         (<["authentication" := VStr "tokenAuth"]>
            (<["baseUrl" := VStr "https://new.example.com/"]>
               (<["accessToken" := VStr "secret"]> ∅))).

(** A descriptor that only has the old URI. *)
Definition old_ticket : heap :=
  [CObj (<["uri" := VStr "https://old.example.com/api/v1/tickets/5"]> ∅)].

(** Zammad basic authentication with an empty username; the base URL is
    not set. *)
Definition zammad_empty_username_store : ParameterStore :=
  λ _, <["useZammadDynamicCredentials" := VBool true]>
         (<["authentication" := VStr "basicAuth"]>
            (<["username" := VStr ""]> (<["password" := VStr "secret"]> ∅))).

(** A descriptor that already carries an [auth] object. *)
Definition authenticated_ticket : heap :=
  [CObj (<["uri" := VStr "https://old.example.com/api/v1/tickets/5"]>
           (<["auth" := VRef 1]> ∅));
   CObj (<["user" := VStr "admin"]> (<["pass" := VStr "admin"]> ∅))].

(** A descriptor with a query map of its own. *)
Definition paged_request : heap :=
  [CObj (<["uri" := VStr "https://example.com/tickets"]> (<["qs" := VRef 1]> ∅));
   CObj (<["page" := VStr "1"]> ∅)].

(** A descriptor with a headers map of its own. *)
Definition accepting_request : heap :=
  [CObj (<["uri" := VStr "https://old.example.com/api/v1/tickets/5"]>
           (<["headers" := VRef 1]> ∅));
   CObj (<["Accept" := VStr "application/json"]> ∅)].

(** A static lookup that finds no credentials and throws; the host state
    counts how often it ran. *)
Definition no_credentials : value → list value → nat → result value * nat :=
  λ _ _ n, (Throw (new_Error "Node does not have any credentials set"), S n).

(** A host without stored credentials: every lookup throws; the host state
    counts the lookups.  The node reads static credentials. *)
Definition no_stored_credentials : MicrosoftOutlook.Context nat :=
  {| MicrosoftOutlook.ctx_getNodeParameter := Some (getParameter (λ _, ∅));
     MicrosoftOutlook.ctx_getInputData := Some (Ok VUndefined);
     MicrosoftOutlook.ctx_getCredentials :=
       λ _ n, (Throw (new_Error "Node does not have any credentials set"), S n);
     MicrosoftOutlook.ctx_request := λ _ _ n, (Ok JNull, n);
     MicrosoftOutlook.ctx_requestWithAuthentication := λ _ _ _ n, (Ok JNull, n);
     MicrosoftOutlook.prepareApiError := λ _, Ok None |}.

(** A host with stored credentials; the node asks for dynamic credentials
    but its input (the array at location 0) has no item. *)
Definition no_input_item : MicrosoftOutlook.Context nat :=
  {| MicrosoftOutlook.ctx_getNodeParameter :=
       Some (getParameter (λ _, <["credentialsSource" := VStr "dynamic"]> ∅));
     MicrosoftOutlook.ctx_getInputData := Some (Ok (VRef 0));
     MicrosoftOutlook.ctx_getCredentials := λ _ n, (Ok (JObj []), S n);
     MicrosoftOutlook.ctx_request := λ _ _ n, (Ok JNull, n);
     MicrosoftOutlook.ctx_requestWithAuthentication := λ _ _ _ n, (Ok JNull, n);
     MicrosoftOutlook.prepareApiError := λ _, Ok None |}.

(** A mailbox whose single page holds one message. *)
Definition one_page : MicrosoftOutlook.Context () :=
  {| MicrosoftOutlook.ctx_getNodeParameter := None;
     MicrosoftOutlook.ctx_getInputData := None;
     MicrosoftOutlook.ctx_getCredentials := λ _ s, (Ok (JObj []), s);
     MicrosoftOutlook.ctx_request := λ _ _ s, (Ok JNull, s);
     MicrosoftOutlook.ctx_requestWithAuthentication :=
       λ _ _ _ s, (Ok (JObj [("value", JArr [JObj [("id", JStr "m1")]])]), s);
     MicrosoftOutlook.prepareApiError := λ _, Ok None |}.

(** The caller's query: a filter and nothing else. *)
Definition unread_query : MicrosoftOutlook.world () :=
  {| MicrosoftOutlook.w_heap := [CObj (<["$filter" := VStr "isRead eq false"]> ∅)];
     MicrosoftOutlook.w_host := ();
     MicrosoftOutlook.w_events := [] |}.

(** Listing the messages of that mailbox with the caller's query. *)
Definition list_unread : result (option value) * MicrosoftOutlook.world () :=
  MicrosoftOutlook.microsoftApiRequestAllItems one_page 1 (VStr "value") (VStr "GET")
    (VStr "/messages") VUndefined (VRef 0) VUndefined 0 unread_query.




(** An OAuth2 token. *)
Definition oauth2_store : ParameterStore :=
  λ _, <["useDynamicCredentials" := VBool true]>
         (<["credentialType" := VStr "oauth2"]> (<["credentialPath" := VStr "abc"]> ∅)).

(** An API key, with location and name left to their defaults. *)
Definition apiKey_store : ParameterStore :=
  λ _, <["useDynamicCredentials" := VBool true]>
         (<["credentialType" := VStr "apiKey"]> (<["credentialPath" := VStr "abc"]> ∅)).

(** The same key with a location the helper does not know. *)
Definition apiKey_cookie_store : ParameterStore :=
  λ i, <["apiKeyLocation" := VStr "cookie"]> (apiKey_store i).

(** The basic store with a parameter of the node itself. *)
Definition basic_ticket_store : ParameterStore :=
  λ i, <["resource" := VStr "ticket"]> (basic_store i).

(** A flag that holds the text ['true']. *)
Definition flag_as_text_store : ParameterStore :=
  λ _, <["useDynamicCredentials" := VStr "true"]>
         (<["credentialType" := VStr "oauth2"]> (<["credentialPath" := VStr "abc"]> ∅)).

(** A static lookup that finds credentials; the host state counts how
    often it ran. *)
Definition stored_credentials : value → list value → nat → result value * nat :=
  λ _ _ n, (Ok (VStr "stored"), S n).

(** Zammad basic authentication against the new base URL. *)
Definition zammad_basic_store : ParameterStore :=
  λ _, <["useZammadDynamicCredentials" := VBool true]>
         (<["authentication" := VStr "basicAuth"]>
            (<["baseUrl" := VStr "https://new.example.com/"]>
               (<["username" := VStr "admin"]> (<["password" := VStr "secret"]> ∅)))).

(** The parameters a user of the Zammad property table can set. *)
Definition zammad_table_store : ParameterStore :=
  λ _, <["useDynamicCredentials" := VBool true]>
         (<["dynamicAuthentication" := VStr "tokenAuth"]>
            (<["baseUrl" := VStr "https://new.example.com/"]>
               (<["accessToken" := VStr "secret"]> ∅))).

(** A node that looks its credentials up once and returns the token it
    finds. *)
Definition token_of (outcome : result DynamicCredentialsHelper.proxy_value) : result value :=
  match outcome with
  | Ok (DynamicCredentialsHelper.PromiseResolve credentials) =>
      Ok (field credentials "accessToken")
  | Ok (DynamicCredentialsHelper.Returned v) => Ok v
  | Throw e => Throw e
  end.

Definition lookup_once : list value → WrapNodeExecute.execute value :=
  λ _, WrapNodeExecute.GetCredentials [VStr "zammadApi"]
         (λ outcome, WrapNodeExecute.Finish (token_of outcome)).

(** A context whose slot holds the host's method and whose host has not
    been asked yet. *)
Definition untouched_host : WrapNodeExecute.context nat :=
  {| WrapNodeExecute.getCredentials := WrapNodeExecute.HostMethod;
     WrapNodeExecute.state :=
       {| DynamicCredentialsHelper.host := 0%nat;
          DynamicCredentialsHelper.invocations := [] |} |}.

(** A mailbox that answers every request with one page of one message. *)
Definition one_page_mailbox : MicrosoftOutlook.Context () :=
  {| MicrosoftOutlook.ctx_getNodeParameter := None;
     MicrosoftOutlook.ctx_getInputData := None;
     MicrosoftOutlook.ctx_getCredentials := λ _ s, (Ok (JObj []), s);
     MicrosoftOutlook.ctx_request :=
       λ _ _ s, (Ok (JObj [("value", JArr [JObj [("id", JStr "m1")]])]), s);
     MicrosoftOutlook.ctx_requestWithAuthentication :=
       λ _ _ _ s, (Ok (JObj [("value", JArr [JObj [("id", JStr "m1")]])]), s);
     MicrosoftOutlook.prepareApiError := λ _, Ok None |}.

(** * Properties *)

(** ** The primitives on known values *)

(** The test vectors of RFC 4648, section 10. *)
Example base64_rfc4648 :
  base64 "" = "" ∧ base64 "f" = "Zg==" ∧ base64 "fo" = "Zm8=" ∧ base64 "foo" = "Zm9v"
  ∧ base64 "foob" = "Zm9vYg==" ∧ base64 "fooba" = "Zm9vYmE=" ∧ base64 "foobar" = "Zm9vYmFy".
Proof. repeat split; reflexivity. Qed.

(** The expression takes the leftmost prefix and captures the rest; an URI
    without the prefix does not match, and a bare prefix captures nothing. *)
Example match_api_v1_cases :
  match_api_v1 "https://old.example.com/api/v1/tickets/5" = Some "/tickets/5"
  ∧ match_api_v1 "https://a.example/api/v1/x/api/v1/y" = Some "/x/api/v1/y"
  ∧ match_api_v1 "https://a.example/api/v1" = Some ""
  ∧ match_api_v1 "https://a.example/api/v2/tickets" = None.
Proof. repeat split; reflexivity. Qed.

Example endsWith_cases :
  endsWith "https://new.example.com/" "/" = true
  ∧ endsWith "https://new.example.com" "/" = false
  ∧ endsWith "" "/" = false.
Proof. repeat split; reflexivity. Qed.

(** ** The enabling flag *)

Section Enabled.

Variable execFunctions : IExecuteFunctions.
Variable itemIndex : Z.

Lemma generic_enabled_unfold :
  DynamicCredentialsHelper.isDynamicCredentialEnabled execFunctions itemIndex =
  match getNodeParameter execFunctions "useDynamicCredentials" itemIndex None with
  | Ok v => Ok (bool_decide (v = VBool true))
  | Throw _ => Ok false
  end.
Proof.
  unfold DynamicCredentialsHelper.isDynamicCredentialEnabled, try_catch, strict_eq.
  by destruct (getNodeParameter _ _ _ _).
Qed.

Lemma zammad_enabled_unfold :
  ZammadDynamicCredentialsHelper.isDynamicCredentialEnabled execFunctions itemIndex =
  match getNodeParameter execFunctions "useZammadDynamicCredentials" itemIndex None with
  | Ok v => Ok (bool_decide (v = VBool true))
  | Throw _ => Ok false
  end.
Proof.
  unfold ZammadDynamicCredentialsHelper.isDynamicCredentialEnabled, try_catch, strict_eq.
  by destruct (getNodeParameter _ _ _ _).
Qed.

Lemma generic_enabled_true :
  getNodeParameter execFunctions "useDynamicCredentials" itemIndex None = Ok (VBool true) →
  DynamicCredentialsHelper.isDynamicCredentialEnabled execFunctions itemIndex = Ok true.
Proof. intros E. by rewrite generic_enabled_unfold, E. Qed.

Lemma zammad_enabled_true :
  getNodeParameter execFunctions "useZammadDynamicCredentials" itemIndex None
    = Ok (VBool true) →
  ZammadDynamicCredentialsHelper.isDynamicCredentialEnabled execFunctions itemIndex = Ok true.
Proof. intros E. by rewrite zammad_enabled_unfold, E. Qed.

End Enabled.

(** C3.  Whatever the other parameters hold, [isDynamicCredentialEnabled]
    never throws; it answers [false] when reading the flag fails and when
    the flag reads anything but the boolean [true], and it answers [true]
    exactly when the flag reads the boolean [true].  Both helpers behave so,
    each on its own flag. *)
Theorem isDynamicCredentialEnabled_opt_in (execFunctions : IExecuteFunctions) (itemIndex : Z) :
  let generic := DynamicCredentialsHelper.isDynamicCredentialEnabled execFunctions itemIndex in
  let zammad := ZammadDynamicCredentialsHelper.isDynamicCredentialEnabled execFunctions itemIndex in
  let flag := getNodeParameter execFunctions "useDynamicCredentials" itemIndex None in
  let zflag := getNodeParameter execFunctions "useZammadDynamicCredentials" itemIndex None in
  ((∃ b, generic = Ok b)
   ∧ (∀ e, flag = Throw e → generic = Ok false)
   ∧ (∀ v, flag = Ok v → v ≠ VBool true → generic = Ok false)
   ∧ (generic = Ok true ↔ flag = Ok (VBool true)))
  ∧ ((∃ b, zammad = Ok b)
     ∧ (∀ e, zflag = Throw e → zammad = Ok false)
     ∧ (∀ v, zflag = Ok v → v ≠ VBool true → zammad = Ok false)
     ∧ (zammad = Ok true ↔ zflag = Ok (VBool true))).
Proof.
  cbv zeta. rewrite generic_enabled_unfold, zammad_enabled_unfold.
  split.
  - destruct (getNodeParameter execFunctions "useDynamicCredentials" itemIndex None)
      as [v|e]; repeat split; eauto; try congruence.
    + intros v' [= <-] Hv. by rewrite bool_decide_eq_false_2.
    + intros [= Hb]. apply bool_decide_eq_true_1 in Hb. by subst.
    + intros [= ->]. by rewrite bool_decide_eq_true_2.
  - destruct (getNodeParameter execFunctions "useZammadDynamicCredentials" itemIndex None)
      as [v|e]; repeat split; eauto; try congruence.
    + intros v' [= <-] Hv. by rewrite bool_decide_eq_false_2.
    + intros [= Hb]. apply bool_decide_eq_true_1 in Hb. by subst.
    + intros [= ->]. by rewrite bool_decide_eq_true_2.
Qed.

(** ** Resolution of the generic credentials *)

Section Resolution.

Variable execFunctions : IExecuteFunctions.
Variable itemIndex : Z.

Local Abbreviation read name := (getNodeParameter execFunctions name itemIndex None).

(** Once enabled, resolution is the guarded block alone. *)
Lemma getDynamicCredentials_enabled :
  DynamicCredentialsHelper.isDynamicCredentialEnabled execFunctions itemIndex = Ok true →
  DynamicCredentialsHelper.getDynamicCredentials execFunctions itemIndex =
  try_catch
    (credentialType ← read "credentialType";
     if strict_eq credentialType (VStr "basic") then
       username ← read "basicUsername";
       password ← read "basicPassword";
       mret (<["username" := username]> (<["password" := password]> ∅))
     else
       tokenValue ← read "credentialPath";
       if strict_eq credentialType (VStr "oauth2") then
         mret (<["accessToken" := tokenValue]> ∅)
       else if strict_eq credentialType (VStr "apiKey") then
         mret (<["apiKey" := tokenValue]> ∅)
       else
         Throw (new_Error ("Unsupported credential type: " +:+ to_string credentialType)))
    (λ error,
       Throw (new_Error ("Failed to get dynamic credentials: "
                         +:+ to_string (message error)))).
Proof.
  intros E. unfold DynamicCredentialsHelper.getDynamicCredentials. by rewrite E.
Qed.

Lemma getDynamicCredentials_basic (username password : value) :
  DynamicCredentialsHelper.isDynamicCredentialEnabled execFunctions itemIndex = Ok true →
  read "credentialType" = Ok (VStr "basic") →
  read "basicUsername" = Ok username →
  read "basicPassword" = Ok password →
  DynamicCredentialsHelper.getDynamicCredentials execFunctions itemIndex
  = Ok (<["username" := username]> (<["password" := password]> ∅)).
Proof.
  intros E Ht Hu Hp. rewrite getDynamicCredentials_enabled by done.
  by rewrite Ht; cbn; rewrite Hu; cbn; rewrite Hp.
Qed.

Lemma getDynamicCredentials_apiKey (key : value) :
  DynamicCredentialsHelper.isDynamicCredentialEnabled execFunctions itemIndex = Ok true →
  read "credentialType" = Ok (VStr "apiKey") →
  read "credentialPath" = Ok key →
  DynamicCredentialsHelper.getDynamicCredentials execFunctions itemIndex
  = Ok (<["apiKey" := key]> ∅).
Proof.
  intros E Ht Hk. rewrite getDynamicCredentials_enabled by done.
  by rewrite Ht; cbn; rewrite Hk.
Qed.

End Resolution.




(** ** Running heap computations *)

Section Run.

Context {S A B : Type}.
Implicit Types (f : A → St S B) (s : S).

Lemma run_ret (a : A) f s : (mret a ≫= f) s = f a s.
Proof. reflexivity. Qed.

Lemma run_lift_ok (a : A) f s : (lift (Ok a) ≫= f) s = f a s.
Proof. reflexivity. Qed.

Lemma run_lift_throw (e : error) f s : (lift (Throw e) ≫= f) s = (Throw e, s).
Proof. reflexivity. Qed.

Lemma run_bind_ok (m : St S A) f s a s' : m s = (Ok a, s') → (m ≫= f) s = f a s'.
Proof. unfold mbind, St_bind. by intros ->. Qed.

Lemma run_bind_throw (m : St S A) f s e s' :
  m s = (Throw e, s') → (m ≫= f) s = (Throw e, s').
Proof. unfold mbind, St_bind. by intros ->. Qed.

Lemma run_assoc {C} (m : St S A) (g : A → St S B) (k : B → St S C) s :
  ((m ≫= g) ≫= k) s = (m ≫= (λ a, g a ≫= k)) s.
Proof. unfold mbind, St_bind. by destruct (m s) as [[a|e] s']. Qed.

End Run.

Section RunHeap.

Context {B : Type}.
Implicit Types (h : heap) (o : obj).

Lemma run_alloc c (f : value → St heap B) h :
  (alloc c ≫= f) h = f (VRef (length h)) (h ++ [c]).
Proof. reflexivity. Qed.

Lemma run_own_props v (f : obj → St heap B) h :
  (own_props v ≫= f) h = f (own_props_of h v) h.
Proof. reflexivity. Qed.

Lemma run_get_obj l k o (f : value → St heap B) h :
  h !! l = Some (CObj o) → (get_prop (VRef l) k ≫= f) h = f (field o k) h.
Proof. intros E. unfold mbind, St_bind, get_prop. by rewrite E. Qed.

Lemma run_set_obj l k x o (f : () → St heap B) h :
  h !! l = Some (CObj o) →
  (set_prop (VRef l) k x ≫= f) h = f () (<[l := CObj (<[k := x]> o)]> h).
Proof. intros E. unfold mbind, St_bind, set_prop. by rewrite E. Qed.

End RunHeap.

Lemma field_insert_eq (o : obj) k v : field (<[k := v]> o) k = v.
Proof. unfold field. by rewrite lookup_insert_eq. Qed.

Lemma field_insert_ne (o : obj) k k' v : k ≠ k' → field (<[k := v]> o) k' = field o k'.
Proof. intros. unfold field. by rewrite lookup_insert_ne. Qed.

Lemma field_lookup (o : obj) k v : o !! k = Some v → field o k = v.
Proof. unfold field. by intros ->. Qed.

Lemma field_absent (o : obj) k : o !! k = None → field o k = VUndefined.
Proof. unfold field. by intros ->. Qed.

Ltac norm_len := repeat (rewrite ?length_insert, ?length_app; cbn [length]).

(** Lookups in a heap built by allocations and writes. *)
Ltac heap_lookup :=
  repeat first
    [ rewrite list_lookup_insert_eq by (norm_len; lia)
    | rewrite list_lookup_insert_ne by (norm_len; lia)
    | rewrite lookup_app_l by (norm_len; lia)
    | rewrite lookup_app_r by (norm_len; lia) ];
  norm_len;
  repeat match goal with
  | |- context [(?n - ?n)%nat] => rewrite Nat.sub_diag
  | |- context [(?n + ?k - ?n)%nat] => replace (n + k - n)%nat with k by lia
  end;
  try reflexivity; try eassumption.

Ltac eval_strict_eq :=
  repeat match goal with
  | |- context [strict_eq ?a ?b] =>
      let r := eval vm_compute in (strict_eq a b) in
      lazymatch r with
      | true => change (strict_eq a b) with true
      | false => change (strict_eq a b) with false
      end
  end; cbv iota.

Ltac simpl_fields :=
  repeat first
    [ rewrite field_insert_eq
    | rewrite field_insert_ne by discriminate ].

Ltac run_step :=
  first
    [ rewrite run_assoc
    | rewrite run_ret
    | rewrite run_lift_ok
    | rewrite run_own_props
    | rewrite run_alloc
    | erewrite run_get_obj by heap_lookup
    | erewrite run_set_obj by heap_lookup
    | progress eval_strict_eq
    | progress simpl_fields ].

Ltac run := repeat run_step.

(** ** The generic helper on basic and API-key credentials *)

(** C5.  With dynamic credentials enabled, type ['basic'], username ['u']
    and password ['p'], [applyDynamicCredentials] returns, for every
    descriptor and heap, a descriptor whose [headers.Authorization] is
    ['Basic dTpw'], the standard base64 encoding of ['u:p'] after the
    prefix. *)
Theorem applyDynamicCredentials_basic_header
    (execFunctions : IExecuteFunctions) (itemIndex : Z) (options : value) (h : heap)
    (Hflag : getNodeParameter execFunctions "useDynamicCredentials" itemIndex None
             = Ok (VBool true))
    (Htype : getNodeParameter execFunctions "credentialType" itemIndex None
             = Ok (VStr "basic"))
    (Huser : getNodeParameter execFunctions "basicUsername" itemIndex None = Ok (VStr "u"))
    (Hpass : getNodeParameter execFunctions "basicPassword" itemIndex None = Ok (VStr "p")) :
  ∃ (newOptions headers : nat) (h' : heap) (o oh : obj),
    DynamicCredentialsHelper.applyDynamicCredentials execFunctions options itemIndex h
    = (Ok (VRef newOptions), h')
    ∧ h' !! newOptions = Some (CObj o)
    ∧ o !! "headers" = Some (VRef headers)
    ∧ h' !! headers = Some (CObj oh)
    ∧ oh !! "Authorization" = Some (VStr "Basic dTpw")
    ∧ "Basic dTpw" = "Basic " +:+ base64 "u:p".
Proof.
  unfold DynamicCredentialsHelper.applyDynamicCredentials.
  rewrite (generic_enabled_true _ _ Hflag).
  rewrite (getDynamicCredentials_basic _ _ _ _ (generic_enabled_true _ _ Hflag)
             Htype Huser Hpass).
  rewrite Htype, run_lift_ok. cbn [negb]. run.
  do 5 eexists. split; [reflexivity|].
  split; [heap_lookup|].
  split; [apply lookup_insert_eq|].
  split; [heap_lookup|].
  split; [by rewrite lookup_insert_eq|reflexivity].
Qed.

Lemma applyDynamicCredentials_basic_header_witness :
  ∃ (newOptions headers : nat) (h' : heap) (o oh : obj),
    DynamicCredentialsHelper.applyDynamicCredentials (store_exec basic_store) (VRef 0) 0
      [CObj (<["uri" := VStr "https://example.com"]> ∅)]
    = (Ok (VRef newOptions), h')
    ∧ h' !! newOptions = Some (CObj o)
    ∧ o !! "headers" = Some (VRef headers)
    ∧ h' !! headers = Some (CObj oh)
    ∧ oh !! "Authorization" = Some (VStr "Basic dTpw")
    ∧ "Basic dTpw" = "Basic " +:+ base64 "u:p".
Proof.
  exact (applyDynamicCredentials_basic_header (store_exec basic_store) 0 (VRef 0)
           [CObj (<["uri" := VStr "https://example.com"]> ∅)]
           eq_refl eq_refl eq_refl eq_refl).
Defined.

(** Allocation does not change what an allocated reference spreads to. *)
Lemma own_props_of_alloc (h : heap) (c : cell) (v : value) :
  (∀ l, v = VRef l → (l < length h)%nat) →
  own_props_of (h ++ [c]) v = own_props_of h v.
Proof.
  intros Hv. destruct v as [| | | | |l]; try reflexivity.
  cbn. by rewrite lookup_app_l by (by apply Hv).
Qed.

(** C7.  With dynamic credentials enabled and an API key ['abc'] to be sent
    as query parameter ['X-API-Key'], a descriptor whose query map is empty
    (absent, or an empty object) comes back with the query map
    [{"X-API-Key": "abc"}] and with a headers map equal to the one the
    input descriptor had. *)
Theorem applyDynamicCredentials_apiKey_query
    (execFunctions : IExecuteFunctions) (itemIndex : Z) (h : heap)
    (descriptor : nat) (od : obj)
    (Hflag : getNodeParameter execFunctions "useDynamicCredentials" itemIndex None
             = Ok (VBool true))
    (Htype : getNodeParameter execFunctions "credentialType" itemIndex None
             = Ok (VStr "apiKey"))
    (Hkey : getNodeParameter execFunctions "credentialPath" itemIndex None = Ok (VStr "abc"))
    (Hlocation : getNodeParameter execFunctions "apiKeyLocation" itemIndex
                   (Some (VStr "header")) = Ok (VStr "query"))
    (Hname : getNodeParameter execFunctions "apiKeyName" itemIndex
               (Some (VStr "X-API-Key")) = Ok (VStr "X-API-Key"))
    (Hdescriptor : h !! descriptor = Some (CObj od))
    (Hquery : od !! "qs" = None
              ∨ ∃ q, od !! "qs" = Some (VRef q) ∧ h !! q = Some (CObj ∅))
    (Hheaders : ∀ l, field od "headers" = VRef l → (l < length h)%nat) :
  ∃ (newOptions qs headers : nat) (h' : heap) (o : obj),
    DynamicCredentialsHelper.applyDynamicCredentials execFunctions (VRef descriptor)
      itemIndex h = (Ok (VRef newOptions), h')
    ∧ h' !! newOptions = Some (CObj o)
    ∧ o !! "qs" = Some (VRef qs)
    ∧ h' !! qs = Some (CObj (<["X-API-Key" := VStr "abc"]> ∅))
    ∧ o !! "headers" = Some (VRef headers)
    ∧ h' !! headers = Some (CObj (own_props_of h (field od "headers"))).
Proof.
  pose proof (lookup_lt_Some _ _ _ Hdescriptor) as Hlt.
  unfold DynamicCredentialsHelper.applyDynamicCredentials.
  rewrite (generic_enabled_true _ _ Hflag).
  rewrite (getDynamicCredentials_apiKey _ _ _ (generic_enabled_true _ _ Hflag) Htype Hkey).
  rewrite Htype, run_lift_ok. cbn [negb].
  rewrite !run_lift_ok, run_own_props.
  cbn [own_props_of]. rewrite Hdescriptor.
  run. rewrite Hlocation, Hname. run.
  rewrite own_props_of_alloc by done.
  destruct Hquery as [Habsent|(q & Hq & Hempty)].
  - rewrite (field_absent _ _ Habsent). cbn [truthy]. run.
    do 5 eexists. split; [reflexivity|].
    split; [heap_lookup|].
    split; [apply lookup_insert_eq|].
    split; [heap_lookup|].
    split; [by rewrite lookup_insert_ne, lookup_insert_eq|].
    heap_lookup.
  - pose proof (lookup_lt_Some _ _ _ Hempty) as Hq_lt.
    rewrite (field_lookup _ _ _ Hq). cbn [truthy]. run.
    do 5 eexists. split; [reflexivity|].
    split; [heap_lookup|].
    split; [apply lookup_insert_eq|].
    split; [heap_lookup|].
    split; [by rewrite lookup_insert_ne, lookup_insert_eq|].
    heap_lookup.
Qed.

Lemma applyDynamicCredentials_apiKey_query_witness :
  ∃ (newOptions qs headers : nat) (h' : heap) (o : obj),
    DynamicCredentialsHelper.applyDynamicCredentials (store_exec apiKey_query_store)
      (VRef 0) 0 get_tickets = (Ok (VRef newOptions), h')
    ∧ h' !! newOptions = Some (CObj o)
    ∧ o !! "qs" = Some (VRef qs)
    ∧ h' !! qs = Some (CObj (<["X-API-Key" := VStr "abc"]> ∅))
    ∧ o !! "headers" = Some (VRef headers)
    ∧ h' !! headers = Some (CObj (<["Accept" := VStr "application/json"]> ∅)).
Proof.
  refine (applyDynamicCredentials_apiKey_query (store_exec apiKey_query_store) 0
            get_tickets 0 _ eq_refl eq_refl eq_refl eq_refl eq_refl eq_refl
            (or_introl eq_refl) _).
  intros l Hl. vm_compute in Hl. injection Hl as <-. unfold get_tickets. cbn [length]. lia.
Defined.

(** ** Writes seen through one field *)

Lemma run_set_ref {B} l k x (f : () → St heap B) (h : heap) :
  (set_prop (VRef l) k x ≫= f) h = f () (write h l k x).
Proof.
  unfold mbind, St_bind, set_prop, write.
  by destruct (h !! l) as [[o|a]|].
Qed.

Lemma length_write h l k x : length (write h l k x) = length h.
Proof.
  unfold write. destruct (h !! l) as [[o|a]|]; try done. by rewrite length_insert.
Qed.

Lemma lookup_write_ne h l l' k x : l ≠ l' → write h l k x !! l' = h !! l'.
Proof.
  intros Hne. unfold write. destruct (h !! l) as [[o|a]|]; try done.
  by rewrite list_lookup_insert_ne.
Qed.

Lemma lookup_write_obj h l k x o :
  h !! l = Some (CObj o) → write h l k x !! l = Some (CObj (<[k := x]> o)).
Proof.
  intros E. unfold write. rewrite E.
  apply list_lookup_insert_eq. by eapply lookup_lt_Some.
Qed.

Lemma lookup_field_write_ne h l l' k k' x :
  k ≠ k' → lookup_field (write h l k x) l' k' = lookup_field h l' k'.
Proof.
  intros Hk. unfold lookup_field.
  destruct (decide (l = l')) as [<-|Hl]; [|by rewrite lookup_write_ne].
  destruct (h !! l) as [[o|a]|] eqn:E.
  - rewrite (lookup_write_obj _ _ _ _ _ E). by rewrite lookup_insert_ne.
  - unfold write. by rewrite E, E.
  - unfold write. by rewrite E, E.
Qed.

Lemma lookup_field_write_eq h l k x o :
  h !! l = Some (CObj o) → lookup_field (write h l k x) l k = Some x.
Proof.
  intros E. unfold lookup_field. rewrite (lookup_write_obj _ _ _ _ _ E).
  apply lookup_insert_eq.
Qed.

Lemma lookup_field_alloc_old h c l k :
  (l < length h)%nat → lookup_field (h ++ [c]) l k = lookup_field h l k.
Proof. intros Hl. unfold lookup_field. by rewrite lookup_app_l. Qed.

Lemma lookup_field_alloc_new h o k : lookup_field (h ++ [CObj o]) (length h) k = o !! k.
Proof. unfold lookup_field. by rewrite list_lookup_middle. Qed.

Lemma lookup_extend (h ext : heap) l c : h !! l = Some c → (h ++ ext) !! l = Some c.
Proof. intros Hl. rewrite lookup_app_l; [done|]. by eapply lookup_lt_Some. Qed.

Lemma lookup_alloc_new (h : heap) c : (h ++ [c]) !! length h = Some c.
Proof. by rewrite list_lookup_middle. Qed.

Lemma lookup_field_obj h l k o :
  h !! l = Some (CObj o) → lookup_field h l k = o !! k.
Proof. unfold lookup_field. by intros ->. Qed.

Lemma lookup_field_inv h l k v :
  lookup_field h l k = Some v → ∃ o, h !! l = Some (CObj o) ∧ o !! k = Some v.
Proof.
  unfold lookup_field. destruct (h !! l) as [[o|a]|]; try done. eauto.
Qed.

(** ** The Zammad helper *)

Section ZammadResolution.

Variable execFunctions : IExecuteFunctions.
Variable itemIndex : Z.

Local Abbreviation zread name := (getNodeParameter execFunctions name itemIndex None).

(** What a successful resolution read. *)
Lemma zammad_credentials_inv (credentials : obj) :
  ZammadDynamicCredentialsHelper.getDynamicCredentials execFunctions itemIndex
    = Ok credentials →
  ∃ authenticationType baseUrl allowUnauthorizedCerts,
    ZammadDynamicCredentialsHelper.isDynamicCredentialEnabled execFunctions itemIndex = Ok true
    ∧ ZammadDynamicCredentialsHelper.getAuthenticationType execFunctions itemIndex
      = Ok authenticationType
    ∧ getNodeParameter execFunctions "baseUrl" itemIndex (Some (VStr "")) = Ok baseUrl
    ∧ getNodeParameter execFunctions "allowUnauthorizedCerts" itemIndex (Some (VBool false))
      = Ok allowUnauthorizedCerts
    ∧ let common : obj :=
        <["allowUnauthorizedCerts" := allowUnauthorizedCerts]> (<["baseUrl" := baseUrl]> ∅) in
      (authenticationType = VStr "basicAuth"
       ∧ ∃ username password,
           zread "username" = Ok username ∧ zread "password" = Ok password
           ∧ credentials = <["password" := password]> (<["username" := username]> common))
      ∨ (authenticationType ≠ VStr "basicAuth"
         ∧ ∃ accessToken,
             zread "accessToken" = Ok accessToken
             ∧ credentials = <["accessToken" := accessToken]> common).
Proof.
  unfold ZammadDynamicCredentialsHelper.getDynamicCredentials.
  rewrite zammad_enabled_unfold.
  destruct (getNodeParameter execFunctions "useZammadDynamicCredentials" itemIndex None)
    as [flag|e]; cbn; [|done].
  case_bool_decide as Hflag; cbn; [|done].
  unfold ZammadDynamicCredentialsHelper.getAuthenticationType.
  destruct (zread "authentication") as [authenticationType|e]; cbn; [|done].
  destruct (getNodeParameter execFunctions "baseUrl" itemIndex (Some (VStr "")))
    as [baseUrl|e]; cbn; [|done].
  destruct (getNodeParameter execFunctions "allowUnauthorizedCerts" itemIndex
              (Some (VBool false))) as [allowUnauthorizedCerts|e]; cbn; [|done].
  unfold strict_eq. case_bool_decide as Hauth; cbn.
  - destruct (zread "username") as [username|e]; cbn; [|done].
    destruct (zread "password") as [password|e]; cbn; [|done].
    intros [= <-]. exists authenticationType, baseUrl, allowUnauthorizedCerts.
    repeat split; try done. left. split; [done|]. by exists username, password.
  - destruct (zread "accessToken") as [accessToken|e]; cbn; [|done].
    intros [= <-]. exists authenticationType, baseUrl, allowUnauthorizedCerts.
    repeat split; try done. right. split; [done|]. by exists accessToken.
Qed.

End ZammadResolution.

Lemma lookup_field_insert_eq (h : heap) l o k :
  (l < length h)%nat → lookup_field (<[l := CObj o]> h) l k = o !! k.
Proof. intros Hl. unfold lookup_field. by rewrite list_lookup_insert_eq. Qed.

Lemma lookup_field_insert_ne (h : heap) l l' c k :
  l ≠ l' → lookup_field (<[l := c]> h) l' k = lookup_field h l' k.
Proof. intros Hl. unfold lookup_field. by rewrite list_lookup_insert_ne. Qed.

Ltac run_more :=
  repeat first [ run_step | rewrite run_set_ref ].

(** The field survives every later write to another key and every later
    allocation. *)
Ltac field_survives :=
  repeat first
    [ rewrite lookup_field_write_ne by discriminate
    | rewrite lookup_field_insert_ne by (norm_len; lia)
    | rewrite lookup_field_alloc_old by (norm_len; rewrite ?length_write; norm_len; lia)
    | rewrite lookup_field_insert_eq by (norm_len; rewrite ?length_write; norm_len; lia) ].

Ltac obj_lookup :=
  repeat first
    [ rewrite lookup_insert_eq
    | rewrite lookup_insert_ne by discriminate ];
  try done.

Lemma rewrite_uri_tickets :
  ZammadDynamicCredentialsHelper.rewrite_uri new_base_url (VStr old_ticket_uri)
  = new_ticket_uri.
Proof. reflexivity. Qed.

(** C6.  Zammad helper, dynamic credentials enabled and resolved with base
    URL [https://new.example.com/]: a descriptor whose URI is
    [https://old.example.com/api/v1/tickets/5] comes back with the URI
    [https://new.example.com/api/v1/tickets/5].  The descriptor is an object
    of the heap whose headers, if any, are an object. *)
Theorem zammad_applyDynamicCredentials_uri
    (execFunctions : IExecuteFunctions) (itemIndex : Z) (h : heap)
    (descriptor : nat) (od credentials : obj)
    (Hresolved : ZammadDynamicCredentialsHelper.getDynamicCredentials execFunctions itemIndex
                 = Ok credentials)
    (Hbase : getNodeParameter execFunctions "baseUrl" itemIndex (Some (VStr ""))
             = Ok (VStr "https://new.example.com/"))
    (Hdescriptor : h !! descriptor = Some (CObj od))
    (Huri : od !! "uri" = Some (VStr "https://old.example.com/api/v1/tickets/5"))
    (Hheaders : truthy (field od "headers") = true → ∃ l, field od "headers" = VRef l) :
  ∃ (newOptions : nat) (h' : heap) (o : obj),
    ZammadDynamicCredentialsHelper.applyDynamicCredentials execFunctions (VRef descriptor)
      itemIndex h = (Ok (VRef newOptions), h')
    ∧ h' !! newOptions = Some (CObj o)
    ∧ o !! "uri" = Some (VStr "https://new.example.com/api/v1/tickets/5").
Proof.
  pose proof (lookup_lt_Some _ _ _ Hdescriptor) as Hlt.
  destruct (zammad_credentials_inv _ _ _ Hresolved)
    as (authenticationType & baseUrl & allow & Henabled & Hauth & Hbase' & Hallow & Hshape).
  rewrite Hbase in Hbase'. injection Hbase' as <-.
  cut (∃ h', ZammadDynamicCredentialsHelper.applyDynamicCredentials execFunctions
               (VRef descriptor) itemIndex h = (Ok (VRef (length h)), h')
             ∧ lookup_field h' (length h) "uri" = Some (VStr new_ticket_uri)).
  { intros (h' & Hrun & Hfield). apply lookup_field_inv in Hfield as (o & Ho & Hu).
    by exists (length h), h', o. }
  unfold ZammadDynamicCredentialsHelper.applyDynamicCredentials.
  rewrite Henabled, Hresolved, Hauth, run_lift_ok. cbn [negb].
  rewrite !run_lift_ok, run_own_props.
  cbn [own_props_of]. rewrite Hdescriptor. rewrite run_alloc.
  cbv zeta in Hshape.
  destruct Hshape as [(-> & username & password & _ & _ & ->)
                     |(Hne & accessToken & _ & ->)].
  - simpl_fields. change (truthy (VStr "https://new.example.com/")) with true. cbv iota.
    run. rewrite (field_lookup _ _ _ Huri).
    change (ZammadDynamicCredentialsHelper.rewrite_uri _ _) with new_ticket_uri.
    destruct (truthy username && truthy password);
      destruct (negb (strict_eq allow VUndefined));
      run_more; (eexists; split; [reflexivity|]); field_survives;
      obj_lookup.
  - replace (strict_eq authenticationType (VStr "basicAuth")) with false
      by (symmetry; apply bool_decide_eq_false_2; exact Hne).
    simpl_fields. change (truthy (VStr "https://new.example.com/")) with true. cbv iota.
    run. rewrite (field_lookup _ _ _ Huri).
    change (ZammadDynamicCredentialsHelper.rewrite_uri _ _) with new_ticket_uri.
    destruct (truthy accessToken).
    + run. destruct (truthy (field od "headers")) eqn:Htruthy.
      * destruct (Hheaders eq_refl) as [l Hl]. rewrite Hl.
        destruct (negb (strict_eq allow VUndefined));
          run_more; (eexists; split; [reflexivity|]); field_survives;
          obj_lookup.
      * destruct (negb (strict_eq allow VUndefined));
          run_more; (eexists; split; [reflexivity|]); field_survives;
          obj_lookup.
    + destruct (negb (strict_eq allow VUndefined));
        run_more; (eexists; split; [reflexivity|]); field_survives;
        obj_lookup.
Qed.

Lemma zammad_applyDynamicCredentials_uri_witness :
  ∃ (newOptions : nat) (h' : heap) (o : obj),
    ZammadDynamicCredentialsHelper.applyDynamicCredentials (store_exec zammad_token_store)
      (VRef 0) 0 old_ticket = (Ok (VRef newOptions), h')
    ∧ h' !! newOptions = Some (CObj o)
    ∧ o !! "uri" = Some (VStr "https://new.example.com/api/v1/tickets/5").
Proof.
  refine (zammad_applyDynamicCredentials_uri (store_exec zammad_token_store) 0 old_ticket 0
            (<["uri" := VStr "https://old.example.com/api/v1/tickets/5"]> ∅)
            (<["accessToken" := VStr "secret"]>
               (<["allowUnauthorizedCerts" := VBool false]>
                  (<["baseUrl" := VStr "https://new.example.com/"]> ∅)))
            eq_refl eq_refl eq_refl eq_refl _).
  intros Htruthy. vm_compute in Htruthy. discriminate.
Defined.

(** *** Empty credential fields *)

(** C10, as stated, fails: with an empty username the helper sets no
    [auth], but the descriptor it returns still carries the [auth] object of
    the input descriptor. *)
Lemma zammad_empty_username_keeps_auth :
  getNodeParameter (store_exec zammad_empty_username_store) "authentication" 0 None
    = Ok (VStr "basicAuth")
  ∧ getNodeParameter (store_exec zammad_empty_username_store) "username" 0 None
    = Ok (VStr "")
  ∧ ∃ (h' : heap) (o : obj),
      ZammadDynamicCredentialsHelper.applyDynamicCredentials
        (store_exec zammad_empty_username_store) (VRef 0) 0 authenticated_ticket
      = (Ok (VRef 2), h')
      ∧ h' !! 2%nat = Some (CObj o)
      ∧ o !! "auth" = Some (VRef 1)
      ∧ h' !! 1%nat = Some (CObj (<["user" := VStr "admin"]> (<["pass" := VStr "admin"]> ∅))).
Proof.
  split; [reflexivity|]. split; [reflexivity|].
  eexists _, _. split; [vm_compute; reflexivity|].
  split; [reflexivity|]. split; reflexivity.
Qed.

(** C10, amended.  Zammad helper, dynamic credentials enabled and resolved.
    With basic authentication and an empty username or password, and with
    token authentication and an empty access token, the call succeeds and
    the helper adds nothing: the [auth] and [headers] fields of the returned
    descriptor are those of the input descriptor (absent when the input had
    none), and no object of the caller's heap is changed. *)
Theorem zammad_applyDynamicCredentials_empty_fields
    (execFunctions : IExecuteFunctions) (itemIndex : Z) (h : heap)
    (descriptor : nat) (od credentials : obj)
    (Hresolved : ZammadDynamicCredentialsHelper.getDynamicCredentials execFunctions itemIndex
                 = Ok credentials)
    (Hdescriptor : h !! descriptor = Some (CObj od))
    (Hempty :
       (getNodeParameter execFunctions "authentication" itemIndex None = Ok (VStr "basicAuth")
        ∧ (getNodeParameter execFunctions "username" itemIndex None = Ok (VStr "")
           ∨ getNodeParameter execFunctions "password" itemIndex None = Ok (VStr "")))
       ∨ (getNodeParameter execFunctions "authentication" itemIndex None ≠ Ok (VStr "basicAuth")
          ∧ getNodeParameter execFunctions "accessToken" itemIndex None = Ok (VStr ""))) :
  ∃ (newOptions : nat) (h' : heap) (o : obj),
    ZammadDynamicCredentialsHelper.applyDynamicCredentials execFunctions (VRef descriptor)
      itemIndex h = (Ok (VRef newOptions), h')
    ∧ h' !! newOptions = Some (CObj o)
    ∧ o !! "auth" = od !! "auth"
    ∧ o !! "headers" = od !! "headers"
    ∧ ∀ l, (l < length h)%nat → h' !! l = h !! l.
Proof.
  pose proof (lookup_lt_Some _ _ _ Hdescriptor) as Hlt.
  destruct (zammad_credentials_inv _ _ _ Hresolved)
    as (authenticationType & baseUrl & allow & Henabled & Hauth & _ & _ & Hshape).
  unfold ZammadDynamicCredentialsHelper.applyDynamicCredentials.
  rewrite Henabled, Hresolved, Hauth, run_lift_ok. cbn [negb].
  rewrite !run_lift_ok, run_own_props.
  cbn [own_props_of]. rewrite Hdescriptor. rewrite run_alloc.
  unfold ZammadDynamicCredentialsHelper.getAuthenticationType in Hauth.
  cbv zeta in Hshape.
  assert (Hskip :
    (authenticationType = VStr "basicAuth"
     ∧ truthy (field credentials "username") && truthy (field credentials "password") = false)
    ∨ (strict_eq authenticationType (VStr "basicAuth") = false
       ∧ truthy (field credentials "accessToken") = false)).
  { destruct Hshape as [(-> & username & password & Hu & Hp & ->)
                       |(Hne & accessToken & Ht & ->)].
    - left. split; [done|]. simpl_fields.
      destruct Hempty as [(_ & [Hu'|Hp'])|(Hne & _)]; [| |congruence].
      + rewrite Hu in Hu'. by injection Hu' as ->.
      + rewrite Hp in Hp'. injection Hp' as ->. apply andb_false_r.
    - right. split; [by apply bool_decide_eq_false_2|]. simpl_fields.
      destruct Hempty as [(Ha & _)|(_ & Ht')]; [congruence|].
      rewrite Ht in Ht'. by injection Ht' as ->. }
  assert (Hfinish : ∀ (h1 : heap) (o1 : obj),
    h1 !! length h = Some (CObj o1) →
    o1 !! "auth" = od !! "auth" → o1 !! "headers" = od !! "headers" →
    (∀ l, (l < length h)%nat → h1 !! l = h !! l) →
    ∃ (h' : heap) (o : obj),
      ((if strict_eq authenticationType (VStr "basicAuth")
        then if truthy (field credentials "username") && truthy (field credentials "password")
             then auth ← alloc (CObj (<["user" := field credentials "username"]>
                                       (<["pass" := field credentials "password"]> ∅)));
                  set_prop (VRef (length h)) "auth" auth
             else mret ()
        else if truthy (field credentials "accessToken")
             then headers ← get_prop (VRef (length h)) "headers";
                  headers' ← (if truthy headers then mret headers else alloc (CObj ∅));
                  set_prop (VRef (length h)) "headers" headers';;
                  headers ← get_prop (VRef (length h)) "headers";
                  set_prop headers "Authorization"
                    (VStr ("Token token=" +:+ to_string (field credentials "accessToken")))
             else mret ());;
       (if negb (strict_eq (field credentials "allowUnauthorizedCerts") VUndefined)
        then set_prop (VRef (length h)) "rejectUnauthorized"
               (VBool (negb (truthy (field credentials "allowUnauthorizedCerts"))))
        else mret ());;
       mret (VRef (length h))) h1 = (Ok (VRef (length h)), h')
      ∧ h' !! length h = Some (CObj o)
      ∧ o !! "auth" = od !! "auth"
      ∧ o !! "headers" = od !! "headers"
      ∧ ∀ l, (l < length h)%nat → h' !! l = h !! l).
  { intros h1 o1 Hcell Hauth1 Hheaders1 Hframe.
    pose proof (lookup_lt_Some _ _ _ Hcell) as Hlen.
    destruct Hskip as [(-> & ->)|(-> & ->)];
      eval_strict_eq; rewrite run_ret;
      destruct (negb (strict_eq (field credentials "allowUnauthorizedCerts") VUndefined)).
    all: try (erewrite run_set_obj by eassumption; eexists _, _;
              split; [reflexivity|];
              split; [by apply list_lookup_insert_eq|];
              split; [by rewrite lookup_insert_ne|];
              split; [by rewrite lookup_insert_ne|];
              intros l Hl; rewrite list_lookup_insert_ne by lia; by apply Hframe).
    all: rewrite run_ret; by exists h1, o1. }
  assert (Hframe0 : ∀ l, (l < length h)%nat → (h ++ [CObj od]) !! l = h !! l).
  { intros l Hl. by rewrite lookup_app_l. }
  destruct (field credentials "baseUrl") as [| | | |base|];
    try (rewrite run_ret;
         destruct (Hfinish (h ++ [CObj od]) od) as (h' & o & Hrun & Hrest);
         [apply lookup_alloc_new|done|done|done|];
         rewrite Hrun; by exists (length h), h', o).
  destruct (truthy (VStr base)).
  - run.
    destruct (Hfinish
                (<[length h := CObj (<["uri" :=
                     VStr (ZammadDynamicCredentialsHelper.rewrite_uri base (field od "uri"))]>
                     od)]> (h ++ [CObj od]))
                (<["uri" :=
                     VStr (ZammadDynamicCredentialsHelper.rewrite_uri base (field od "uri"))]>
                   od)) as (h' & o & Hrun & Hrest).
    + apply list_lookup_insert_eq. norm_len. lia.
    + by rewrite lookup_insert_ne.
    + by rewrite lookup_insert_ne.
    + intros l Hl. rewrite list_lookup_insert_ne by lia. by apply Hframe0.
    + rewrite Hrun. by exists (length h), h', o.
  - rewrite run_ret.
    destruct (Hfinish (h ++ [CObj od]) od) as (h' & o & Hrun & Hrest);
      [apply lookup_alloc_new|done|done|done|].
    rewrite Hrun. by exists (length h), h', o.
Qed.

Lemma zammad_applyDynamicCredentials_empty_fields_witness :
  ∃ (newOptions : nat) (h' : heap) (o : obj),
    ZammadDynamicCredentialsHelper.applyDynamicCredentials
      (store_exec zammad_empty_username_store) (VRef 0) 0 authenticated_ticket
    = (Ok (VRef newOptions), h')
    ∧ h' !! newOptions = Some (CObj o)
    ∧ o !! "auth" = Some (VRef 1)
    ∧ o !! "headers" = None
    ∧ ∀ l, (l < 2)%nat → h' !! l = authenticated_ticket !! l.
Proof.
  exact (zammad_applyDynamicCredentials_empty_fields
           (store_exec zammad_empty_username_store) 0 authenticated_ticket 0
           (<["uri" := VStr "https://old.example.com/api/v1/tickets/5"]>
              (<["auth" := VRef 1]> ∅))
           (<["password" := VStr "secret"]>
              (<["username" := VStr ""]>
                 (<["allowUnauthorizedCerts" := VBool false]> (<["baseUrl" := VStr ""]> ∅))))
           eq_refl eq_refl (or_introl (conj eq_refl (or_introl eq_refl)))).
Defined.

(** ** The caller's descriptor is not always left alone *)

(** C1 does not hold of the code.  The generic helper copies the headers
    but writes the API key into the caller's own query map; the Zammad helper
    copies neither map and writes the token into the caller's own headers.
    In both runs the returned descriptor shares the written map with the
    input descriptor. *)
Theorem applyDynamicCredentials_writes_through :
  (∃ (h' : heap) (o : obj),
     DynamicCredentialsHelper.applyDynamicCredentials (store_exec apiKey_query_store)
       (VRef 0) 0 paged_request = (Ok (VRef 2), h')
     ∧ paged_request !! 1%nat = Some (CObj (<["page" := VStr "1"]> ∅))
     ∧ h' !! 1%nat = Some (CObj (<["X-API-Key" := VStr "abc"]> (<["page" := VStr "1"]> ∅)))
     ∧ h' !! 0%nat = paged_request !! 0%nat
     ∧ h' !! 2%nat = Some (CObj o) ∧ o !! "qs" = Some (VRef 1))
  ∧ (∃ (h' : heap) (o : obj),
       ZammadDynamicCredentialsHelper.applyDynamicCredentials (store_exec zammad_token_store)
         (VRef 0) 0 accepting_request = (Ok (VRef 2), h')
       ∧ accepting_request !! 1%nat
         = Some (CObj (<["Accept" := VStr "application/json"]> ∅))
       ∧ h' !! 1%nat
         = Some (CObj (<["Authorization" := VStr "Token token=secret"]>
                         (<["Accept" := VStr "application/json"]> ∅)))
       ∧ h' !! 0%nat = accepting_request !! 0%nat
       ∧ h' !! 2%nat = Some (CObj o) ∧ o !! "headers" = Some (VRef 1)).
Proof.
  split.
  - eexists _, _. split; [vm_compute; reflexivity|].
    repeat split; reflexivity.
  - eexists _, _. split; [vm_compute; reflexivity|].
    repeat split; reflexivity.
Qed.

(** *** What the helpers leave alone *)

Lemma run_set_any {B} (v : value) k x (f : () → St heap B) (h : heap) :
  (set_prop v k x ≫= f) h
  = match v with
    | VRef l => f () (write h l k x)
    | _ => (Throw (new_TypeError ("Cannot set properties of " +:+ to_string v)), h)
    end.
Proof. destruct v; try done. apply run_set_ref. Qed.

(** A cell of the caller's heap that no write of the run touched. *)
Ltac untouched :=
  unfold mret, St_ret; cbn [snd];
  repeat first
    [ rewrite lookup_write_ne by congruence
    | rewrite list_lookup_insert_ne by (norm_len; rewrite ?length_write; norm_len; lia)
    | rewrite lookup_app_l by (norm_len; rewrite ?length_write; norm_len; lia) ];
  try reflexivity.

Ltac throws := rewrite ?run_assoc, run_lift_throw; untouched.

Ltac known_cell :=
  first
    [ eassumption
    | apply lookup_alloc_new
    | apply lookup_extend; eassumption
    | apply list_lookup_insert_eq; rewrite ?length_app; cbn [length]; lia ].

Ltac known_cells :=
  repeat first
    [ rewrite run_assoc | rewrite run_ret | rewrite run_alloc
    | erewrite run_get_obj by known_cell
    | erewrite run_set_obj by known_cell ].

Ltac finish_run :=
  repeat first [rewrite run_assoc | rewrite run_ret | rewrite run_alloc | rewrite run_set_ref];
  unfold mret, St_ret; cbn [snd];
  repeat first
    [ rewrite lookup_write_ne by (congruence || (rewrite ?length_app; cbn [length]; lia))
    | rewrite list_lookup_insert_ne by (rewrite ?length_app; cbn [length]; lia)
    | rewrite lookup_app_l by (rewrite ?length_app; cbn [length]; lia) ];
  try done.

(** The generic helper, whatever the parameters hold and however the call
    ends: the only object of the caller's heap it may write is the query map
    of the descriptor.  The descriptor itself and its headers stay as they
    were. *)
Lemma applyDynamicCredentials_frame (execFunctions : IExecuteFunctions) (itemIndex : Z)
    (h : heap) (descriptor : nat) (od : obj) (l : nat) :
  h !! descriptor = Some (CObj od) →
  (l < length h)%nat → field od "qs" ≠ VRef l →
  (DynamicCredentialsHelper.applyDynamicCredentials execFunctions (VRef descriptor)
     itemIndex h).2 !! l = h !! l.
Proof.
  intros Hd Hl Hqs.
  unfold DynamicCredentialsHelper.applyDynamicCredentials.
  rewrite generic_enabled_unfold.
  destruct (getNodeParameter execFunctions "useDynamicCredentials" itemIndex None)
    as [flag|e]; [|done].
  rewrite run_lift_ok. destruct (bool_decide (flag = VBool true)); [|done]. cbn [negb].
  destruct (DynamicCredentialsHelper.getDynamicCredentials execFunctions itemIndex)
    as [credentials|e]; [|done].
  rewrite run_lift_ok.
  destruct (getNodeParameter execFunctions "credentialType" itemIndex None)
    as [credentialType|e]; [|done].
  rewrite run_lift_ok, run_own_props. cbn [own_props_of]. rewrite Hd.
  run.
  destruct (strict_eq credentialType (VStr "oauth2")); [run; untouched|].
  destruct (strict_eq credentialType (VStr "apiKey")).
  { destruct (getNodeParameter execFunctions "apiKeyLocation" itemIndex
                (Some (VStr "header"))) as [location|e]; [|throws].
    run.
    destruct (getNodeParameter execFunctions "apiKeyName" itemIndex
                (Some (VStr "X-API-Key"))) as [keyName|e]; [|throws].
    run.
    destruct (strict_eq location (VStr "header")); [run; untouched|].
    destruct (strict_eq location (VStr "query")); [|run; untouched].
    run.
    destruct (truthy (field od "qs")) eqn:Htruthy; [|run; untouched].
    run. rewrite run_set_any.
    destruct (field od "qs") as [| | | | |q]; untouched. }
  destruct (strict_eq credentialType (VStr "basic")); [run; untouched|].
  throws.
Qed.

(** The Zammad helper, likewise: the only object of the caller's heap it may
    write is the headers map of the descriptor. *)
Lemma zammad_applyDynamicCredentials_frame (execFunctions : IExecuteFunctions)
    (itemIndex : Z) (h : heap) (descriptor : nat) (od : obj) (l : nat) :
  h !! descriptor = Some (CObj od) →
  (l < length h)%nat → field od "headers" ≠ VRef l →
  (ZammadDynamicCredentialsHelper.applyDynamicCredentials execFunctions (VRef descriptor)
     itemIndex h).2 !! l = h !! l.
Proof.
  intros Hd Hl Hheaders.
  unfold ZammadDynamicCredentialsHelper.applyDynamicCredentials.
  rewrite zammad_enabled_unfold.
  destruct (getNodeParameter execFunctions "useZammadDynamicCredentials" itemIndex None)
    as [flag|e]; [|done].
  rewrite run_lift_ok. destruct (bool_decide (flag = VBool true)); [|done]. cbn [negb].
  destruct (ZammadDynamicCredentialsHelper.getDynamicCredentials execFunctions itemIndex)
    as [credentials|e]; [|done].
  rewrite run_lift_ok.
  destruct (ZammadDynamicCredentialsHelper.getAuthenticationType execFunctions itemIndex)
    as [authenticationType|e]; [|done].
  rewrite run_lift_ok, run_own_props. cbn [own_props_of]. rewrite Hd.
  rewrite run_alloc.
  assert (Hrest : ∀ (h1 : heap) (o1 : obj),
    h1 !! length h = Some (CObj o1) → field o1 "headers" = field od "headers" →
    (length h < length h1)%nat → h1 !! l = h !! l →
    (((if strict_eq authenticationType (VStr "basicAuth")
      then if truthy (field credentials "username") && truthy (field credentials "password")
           then auth ← alloc (CObj (<["user" := field credentials "username"]>
                                     (<["pass" := field credentials "password"]> ∅)));
                set_prop (VRef (length h)) "auth" auth
           else mret ()
      else if truthy (field credentials "accessToken")
           then headers ← get_prop (VRef (length h)) "headers";
                headers' ← (if truthy headers then mret headers else alloc (CObj ∅));
                set_prop (VRef (length h)) "headers" headers';;
                headers ← get_prop (VRef (length h)) "headers";
                set_prop headers "Authorization"
                  (VStr ("Token token=" +:+ to_string (field credentials "accessToken")))
           else mret ());;
     (if negb (strict_eq (field credentials "allowUnauthorizedCerts") VUndefined)
      then set_prop (VRef (length h)) "rejectUnauthorized"
             (VBool (negb (truthy (field credentials "allowUnauthorizedCerts"))))
      else mret ());;
     mret (VRef (length h))) h1).2 !! l = h !! l).
  { intros h1 o1 Hcell Hfield Hlen Hframe.
    destruct (strict_eq authenticationType (VStr "basicAuth")).
    - destruct (truthy (field credentials "username")
                && truthy (field credentials "password"));
        destruct (negb (strict_eq (field credentials "allowUnauthorizedCerts") VUndefined));
        finish_run.
    - destruct (truthy (field credentials "accessToken")).
      + rewrite !run_assoc. erewrite run_get_obj by eassumption.
        rewrite Hfield.
        destruct (truthy (field od "headers")) eqn:Htruthy.
        * known_cells. rewrite field_insert_eq, run_set_any.
          destruct (field od "headers") as [| | | | |hl];
            destruct (negb (strict_eq (field credentials "allowUnauthorizedCerts")
                                VUndefined));
            finish_run.
        * known_cells. rewrite field_insert_eq, run_set_ref.
          destruct (negb (strict_eq (field credentials "allowUnauthorizedCerts")
                              VUndefined));
            finish_run.
      + destruct (negb (strict_eq (field credentials "allowUnauthorizedCerts") VUndefined));
          finish_run. }
  destruct (field credentials "baseUrl") as [| | | |base|];
    try (rewrite run_ret; apply (Hrest _ od);
         [apply lookup_alloc_new|done|rewrite length_app; cbn; lia|by rewrite lookup_app_l]).
  destruct (truthy (VStr base)).
  - rewrite run_assoc. erewrite run_get_obj by apply lookup_alloc_new.
    erewrite run_set_obj by apply lookup_alloc_new.
    eapply Hrest.
    + apply list_lookup_insert_eq. rewrite length_app. cbn. lia.
    + by rewrite field_insert_ne.
    + rewrite length_insert, length_app. cbn. lia.
    + rewrite list_lookup_insert_ne by lia. by rewrite lookup_app_l.
  - rewrite run_ret. apply (Hrest _ od);
      [apply lookup_alloc_new|done|rewrite length_app; cbn; lia|by rewrite lookup_app_l].
Qed.

(** ** The credentials proxy *)

Section ProxyFacts.

Context {H : Type}.
Variable originalMethod : value → list value → H → result value * H.
Variable execFunctions : IExecuteFunctions.
Variables (this : value) (args : list value).

Local Abbreviation proxy :=
  (DynamicCredentialsHelper.createCredentialsProxy originalMethod execFunctions this args).
Local Abbreviation once := (applied_once originalMethod this args).
Local Abbreviation flag :=
  (getNodeParameter execFunctions "useDynamicCredentials" 0 (Some (VBool false))).

Lemma apply_original_run w :
  DynamicCredentialsHelper.apply_original originalMethod this args w
  = ((originalMethod this args (DynamicCredentialsHelper.host w)).1, once w).
Proof.
  unfold DynamicCredentialsHelper.apply_original, applied_once.
  by destruct (originalMethod _ _ _).
Qed.

(** The fallback of the [catch] block: one application, whose outcome is
    the outcome of the proxy. *)
Lemma fallback_run w :
  (r ← DynamicCredentialsHelper.apply_original originalMethod this args;
   mret (DynamicCredentialsHelper.Returned r)) w
  = (match (originalMethod this args (DynamicCredentialsHelper.host w)).1 with
     | Ok v => Ok (DynamicCredentialsHelper.Returned v)
     | Throw e => Throw e
     end, once w).
Proof.
  unfold mbind, St_bind. rewrite apply_original_run. cbn.
  by destruct (originalMethod _ _ _) as [[v|e] s].
Qed.

(** Dynamic credentials resolved: they are returned and the original method
    is not applied. *)
Lemma proxy_dynamic w flagValue credentials :
  flag = Ok flagValue → truthy flagValue = true →
  DynamicCredentialsHelper.getDynamicCredentials execFunctions 0 = Ok credentials →
  proxy w = (Ok (DynamicCredentialsHelper.PromiseResolve credentials), w).
Proof.
  intros Hflag Htruthy Hresolved.
  unfold DynamicCredentialsHelper.createCredentialsProxy, st_try_catch.
  by rewrite Hflag, run_lift_ok, Htruthy, Hresolved.
Qed.

(** Spec property 7: dynamic resolution throws while the flag is set.  The
    original method is applied exactly once, with the receiver and the
    arguments of the call, and its outcome is the outcome of the proxy. *)
Lemma proxy_fallback_on_resolution_failure w flagValue e :
  flag = Ok flagValue → truthy flagValue = true →
  DynamicCredentialsHelper.getDynamicCredentials execFunctions 0 = Throw e →
  proxy w
  = (match (originalMethod this args (DynamicCredentialsHelper.host w)).1 with
     | Ok v => Ok (DynamicCredentialsHelper.Returned v)
     | Throw e' => Throw e'
     end, once w).
Proof.
  intros Hflag Htruthy Hfailed.
  unfold DynamicCredentialsHelper.createCredentialsProxy, st_try_catch.
  rewrite Hflag, run_lift_ok, Htruthy, Hfailed, run_lift_throw.
  apply fallback_run.
Qed.

(** The flag cannot be read: one application of the original method. *)
Lemma proxy_fallback_on_flag_failure w e :
  flag = Throw e →
  proxy w
  = (match (originalMethod this args (DynamicCredentialsHelper.host w)).1 with
     | Ok v => Ok (DynamicCredentialsHelper.Returned v)
     | Throw e' => Throw e'
     end, once w).
Proof.
  intros Hflag.
  unfold DynamicCredentialsHelper.createCredentialsProxy, st_try_catch.
  rewrite Hflag, run_lift_throw.
  apply fallback_run.
Qed.

(** The flag is not set and the original method returns: one application,
    result unchanged. *)
Lemma proxy_static_returns w flagValue v :
  flag = Ok flagValue → truthy flagValue = false →
  (originalMethod this args (DynamicCredentialsHelper.host w)).1 = Ok v →
  proxy w = (Ok (DynamicCredentialsHelper.Returned v), once w).
Proof.
  intros Hflag Hfalsy Hreturns.
  unfold DynamicCredentialsHelper.createCredentialsProxy, st_try_catch.
  rewrite Hflag, run_lift_ok, Hfalsy.
  rewrite fallback_run, Hreturns. done.
Qed.

(** The flag is not set and the original method throws: the [catch] block
    applies it a second time. *)
Lemma proxy_static_throws w flagValue e :
  flag = Ok flagValue → truthy flagValue = false →
  (originalMethod this args (DynamicCredentialsHelper.host w)).1 = Throw e →
  proxy w
  = (match (originalMethod this args
              (DynamicCredentialsHelper.host (once w))).1 with
     | Ok v => Ok (DynamicCredentialsHelper.Returned v)
     | Throw e' => Throw e'
     end, once (once w)).
Proof.
  intros Hflag Hfalsy Hthrows.
  unfold DynamicCredentialsHelper.createCredentialsProxy, st_try_catch.
  rewrite Hflag, run_lift_ok, Hfalsy.
  rewrite fallback_run, Hthrows.
  apply fallback_run.
Qed.

End ProxyFacts.

(** C2 does not hold of the code.  With the flag not set and an original
    method that throws, the proxy applies the original method twice: once in
    the [try] block and once more in the [catch] block. *)
Theorem createCredentialsProxy_applies_twice :
  DynamicCredentialsHelper.createCredentialsProxy no_credentials (store_exec (λ _, ∅))
    VUndefined [VStr "zammadApi"]
    {| DynamicCredentialsHelper.host := 0%nat; DynamicCredentialsHelper.invocations := [] |}
  = (Throw (new_Error "Node does not have any credentials set"),
     {| DynamicCredentialsHelper.host := 2%nat;
        DynamicCredentialsHelper.invocations :=
          [(VUndefined, [VStr "zammadApi"]); (VUndefined, [VStr "zammadApi"])] |}).
Proof. reflexivity. Qed.

(** [microsoftApiRequest] resolves its credentials through the same shape
    of [try] and [catch].  When the dynamic path fails, the stored
    credentials are looked up once; when the static lookup itself fails, it
    is repeated. *)
Example resolve_credentials_fallback :
  MicrosoftOutlook.resolve_credentials no_input_item 0
    {| MicrosoftOutlook.w_heap := [CArr []]; MicrosoftOutlook.w_host := 0%nat;
       MicrosoftOutlook.w_events := [] |}
  = (Ok (VRef 1),
     {| MicrosoftOutlook.w_heap := [CArr []; CObj ∅]; MicrosoftOutlook.w_host := 1%nat;
        MicrosoftOutlook.w_events :=
          [MicrosoftOutlook.EvGetCredentials "microsoftOutlookOAuth2Api"] |})
  ∧ MicrosoftOutlook.resolve_credentials no_stored_credentials 0
      {| MicrosoftOutlook.w_heap := []; MicrosoftOutlook.w_host := 0%nat;
         MicrosoftOutlook.w_events := [] |}
    = (Throw (new_Error "Node does not have any credentials set"),
       {| MicrosoftOutlook.w_heap := []; MicrosoftOutlook.w_host := 2%nat;
          MicrosoftOutlook.w_events :=
            [MicrosoftOutlook.EvGetCredentials "microsoftOutlookOAuth2Api";
             MicrosoftOutlook.EvGetCredentials "microsoftOutlookOAuth2Api"] |}).
Proof. split; reflexivity. Qed.

(** ** JSON values only allocate *)

Lemma json_ind' (P : json → Prop) :
  P JNull → (∀ b, P (JBool b)) → (∀ n, P (JNum n)) → (∀ s, P (JStr s)) →
  (∀ js, Forall P js → P (JArr js)) →
  (∀ kjs, Forall (λ kj : string * json, P kj.2) kjs → P (JObj kjs)) →
  ∀ j, P j.
Proof.
  intros Hnull Hbool Hnum Hstr Harr Hobj.
  fix IH 1. intros [|b|n|s|js|kjs]; [done..| |].
  - apply Harr. induction js as [|j js IHjs]; constructor; [apply IH|apply IHjs].
  - apply Hobj. induction kjs as [|kj kjs IHkjs]; constructor; [apply IH|apply IHkjs].
Qed.

Lemma parse_JArr js : parse (JArr js) = (vs ← parse_elements js; alloc (CArr vs)).
Proof. reflexivity. Qed.

Lemma parse_JObj kjs :
  parse (JObj kjs) = (kvs ← parse_members kjs; alloc (CObj (obj_of_members kvs))).
Proof. reflexivity. Qed.

Lemma parse_elements_cons j js :
  parse_elements (j :: js) = (v ← parse j; vs ← parse_elements js; mret (v :: vs)).
Proof. reflexivity. Qed.

Lemma parse_members_cons kj kjs :
  parse_members (kj :: kjs)
  = (v ← parse kj.2; kvs ← parse_members kjs; mret ((kj.1, v) :: kvs)).
Proof. reflexivity. Qed.

(** [parse] returns and leaves every existing cell in place. *)
Lemma parse_extends (j : json) (h : heap) :
  ∃ v ext, parse j h = (Ok v, h ++ ext).
Proof.
  revert h. induction j as [|b|n|s|js IH|kjs IH] using json_ind'; intros h.
  - by exists VNull, []; rewrite app_nil_r.
  - by exists (VBool b), []; rewrite app_nil_r.
  - by exists (VNum n), []; rewrite app_nil_r.
  - by exists (VStr s), []; rewrite app_nil_r.
  - assert (Hloop : ∀ h, ∃ vs ext, parse_elements js h = (Ok vs, h ++ ext)).
    { clear h. induction IH as [|j js Hj _ IHjs]; intros h.
      - by exists [], []; rewrite app_nil_r.
      - destruct (Hj h) as (v & ext1 & E1).
        destruct (IHjs (h ++ ext1)) as (vs & ext2 & E2).
        exists (v :: vs), (ext1 ++ ext2).
        rewrite parse_elements_cons.
        rewrite (run_bind_ok _ _ _ _ _ E1), (run_bind_ok _ _ _ _ _ E2).
        by rewrite app_assoc. }
    destruct (Hloop h) as (vs & ext & E).
    exists (VRef (length (h ++ ext))), (ext ++ [CArr vs]).
    rewrite parse_JArr, (run_bind_ok _ _ _ _ _ E).
    unfold alloc. by rewrite app_assoc.
  - assert (Hloop : ∀ h, ∃ kvs ext, parse_members kjs h = (Ok kvs, h ++ ext)).
    { clear h. induction IH as [|kj kjs Hj _ IHkjs]; intros h.
      - by exists [], []; rewrite app_nil_r.
      - destruct (Hj h) as (v & ext1 & E1).
        destruct (IHkjs (h ++ ext1)) as (kvs & ext2 & E2).
        exists ((kj.1, v) :: kvs), (ext1 ++ ext2).
        rewrite parse_members_cons.
        rewrite (run_bind_ok _ _ _ _ _ E1), (run_bind_ok _ _ _ _ _ E2).
        by rewrite app_assoc. }
    destruct (Hloop h) as (kvs & ext & E).
    exists (VRef (length (h ++ ext))), (ext ++ [CObj (obj_of_members kvs)]).
    rewrite parse_JObj, (run_bind_ok _ _ _ _ _ E).
    unfold alloc. by rewrite app_assoc.
Qed.

(** ** Hoare triples for state and exceptions *)

Section Triples.

Context {S : Type}.

Lemma triple_bind {A B} (P : S → Prop) (m : St S A) (f : A → St S B)
    (Q : A → S → Prop) (R : B → S → Prop) (E : S → Prop) :
  triple P m Q E → (∀ a, triple (Q a) (f a) R E) → triple P (m ≫= f) R E.
Proof.
  intros Hm Hf s Hs. specialize (Hm s Hs).
  unfold mbind, St_bind. destruct (m s) as [[a|e] s']; [|done].
  by apply Hf.
Qed.

Lemma triple_ret {A} (P : S → Prop) (a : A) (Q : A → S → Prop) (E : S → Prop) :
  (∀ s, P s → Q a s) → triple P (mret a) Q E.
Proof. intros HQ s Hs. by apply HQ. Qed.

Lemma triple_lift {A} (P : S → Prop) (r : result A) (Q : A → S → Prop) (E : S → Prop) :
  (∀ s a, P s → Q a s) → (∀ s, P s → E s) → triple P (lift r) Q E.
Proof. intros HQ HE s Hs. destruct r; cbn; auto. Qed.

Lemma triple_try_catch {A} (P : S → Prop) (body : St S A) (handler : error → St S A)
    (Q : A → S → Prop) (E' E : S → Prop) :
  triple P body Q E' → (∀ e, triple E' (handler e) Q E) →
  triple P (st_try_catch body handler) Q E.
Proof.
  intros Hb Hh s Hs. specialize (Hb s Hs).
  unfold st_try_catch. destruct (body s) as [[a|e] s']; [done|].
  by apply Hh.
Qed.

Lemma triple_weaken {A} (P P' : S → Prop) (m : St S A)
    (Q Q' : A → S → Prop) (E E' : S → Prop) :
  triple P' m Q' E' →
  (∀ s, P s → P' s) → (∀ a s, Q' a s → Q a s) → (∀ s, E' s → E s) →
  triple P m Q E.
Proof.
  intros Hm HP HQ HE s Hs. specialize (Hm s (HP s Hs)).
  destruct (m s) as [[a|e] s']; auto.
Qed.

Lemma triple_pure {A} (φ : Prop) (P : S → Prop) (m : St S A)
    (Q : A → S → Prop) (E : S → Prop) :
  (φ → triple P m Q E) → triple (λ s, P s ∧ φ) m Q E.
Proof. intros Hm s [Hs Hφ]. by apply Hm. Qed.

Lemma keeps_bind {A B} (I : S → Prop) (m : St S A) (f : A → St S B) :
  keeps I m → (∀ a, keeps I (f a)) → keeps I (m ≫= f).
Proof. intros Hm Hf. by eapply triple_bind. Qed.

Lemma keeps_ret {A} (I : S → Prop) (a : A) : keeps I (mret a).
Proof. by apply triple_ret. Qed.

Lemma keeps_lift {A} (I : S → Prop) (r : result A) : keeps I (lift r).
Proof. by apply triple_lift. Qed.

Lemma keeps_try_catch {A} (I : S → Prop) (body : St S A) (handler : error → St S A) :
  keeps I body → (∀ e, keeps I (handler e)) → keeps I (st_try_catch body handler).
Proof. intros Hb Hh. by eapply triple_try_catch. Qed.

Lemma keeps_if {A} (I : S → Prop) (b : bool) (m1 m2 : St S A) :
  keeps I m1 → keeps I m2 → keeps I (if b then m1 else m2).
Proof. by destruct b. Qed.

Lemma keeps_final {A} (I : S → Prop) (m : St S A) s : keeps I m → I s → I (m s).2.
Proof. intros Hm Hs. specialize (Hm s Hs). by destruct (m s) as [[a|e] s']. Qed.

End Triples.

(** ** The page size written by [microsoftApiRequestAllItems] *)

Section HasTop.

Variable q : nat.

Lemma has_top_alloc h c : has_top q h → has_top q (h ++ [c]).
Proof.
  intros (o & Ho & Htop). exists o. split; [|done].
  rewrite lookup_app_l; [done|]. by eapply lookup_lt_Some.
Qed.

Lemma has_top_extend h ext : has_top q h → has_top q (h ++ ext).
Proof.
  intros (o & Ho & Htop). exists o. split; [|done].
  rewrite lookup_app_l; [done|]. by eapply lookup_lt_Some.
Qed.

Lemma has_top_parse j h : has_top q h → has_top q (parse j h).2.
Proof.
  intros Htop. destruct (parse_extends j h) as (v & ext & ->).
  by apply has_top_extend.
Qed.

Lemma has_top_get v k h : has_top q h → has_top q (get_prop v k h).2.
Proof.
  intros Htop. unfold get_prop.
  destruct v as [| | | |s|l]; try done.
  - by destruct (String.eqb k "length").
  - destruct (h !! l) as [[o|a]|]; try done. by destruct (String.eqb k "length").
Qed.

Lemma has_top_own_props v h : has_top q h → has_top q (own_props v h).2.
Proof. done. Qed.

Lemma has_top_keys_length v h : has_top q h → has_top q (MicrosoftOutlook.keys_length v h).2.
Proof. intros Htop. by destruct v. Qed.

Lemma has_top_insert_other h l c : l ≠ q → has_top q h → has_top q (<[l := c]> h).
Proof.
  intros Hl (o & Ho & Htop). exists o. by rewrite list_lookup_insert_ne.
Qed.

Lemma has_top_set_prop v k x h :
  k ≠ "$top" → has_top q h → has_top q (set_prop v k x h).2.
Proof.
  intros Hk Htop. unfold set_prop. destruct v as [| | | | |l]; try done.
  destruct (h !! l) as [[o|a]|] eqn:E; try done. cbn.
  destruct (decide (l = q)) as [->|Hl]; [|by apply has_top_insert_other].
  destruct Htop as (o' & Ho' & Htop). rewrite E in Ho'. injection Ho' as <-.
  exists (<[k := x]> o). split.
  - apply list_lookup_insert_eq. by eapply lookup_lt_Some.
  - by rewrite lookup_insert_ne.
Qed.

Lemma has_top_delete_prop v k h :
  k ≠ "$top" → has_top q h → has_top q (delete_prop v k h).2.
Proof.
  intros Hk Htop. unfold delete_prop. destruct v as [| | | | |l]; try done.
  destruct (h !! l) as [[o|a]|] eqn:E; try done. cbn.
  destruct (decide (l = q)) as [->|Hl]; [|by apply has_top_insert_other].
  destruct Htop as (o' & Ho' & Htop). rewrite E in Ho'. injection Ho' as <-.
  exists (delete k o). split.
  - apply list_lookup_insert_eq. by eapply lookup_lt_Some.
  - by rewrite lookup_delete_ne.
Qed.

Lemma has_top_assign target source h :
  target ≠ VRef q → has_top q h → has_top q (MicrosoftOutlook.Object_assign target source h).2.
Proof.
  intros Ht Htop. unfold MicrosoftOutlook.Object_assign.
  destruct target as [| | | | |l]; try done.
  destruct (h !! l) as [[o|a]|]; try done. cbn.
  apply has_top_insert_other; [congruence|done].
Qed.

Lemma has_top_push_apply returnData items h :
  has_top q h → has_top q (MicrosoftOutlook.push_apply returnData items h).2.
Proof.
  intros Htop. unfold MicrosoftOutlook.push_apply.
  destruct items as [| | | | |l]; try done.
  destruct returnData as [| | | | |r]; try done.
  destruct (h !! r) as [[o|a]|] eqn:E; try done. cbn.
  apply has_top_insert_other; [|done].
  intros ->. destruct Htop as (o & Ho & _). congruence.
Qed.

Lemma has_top_write h o :
  h !! q = Some (CObj o) → has_top q (set_prop (VRef q) "$top" (VNum 100) h).2.
Proof.
  intros Ho. unfold set_prop. rewrite Ho. cbn.
  exists (<["$top" := VNum 100]> o). split.
  - apply list_lookup_insert_eq. by eapply lookup_lt_Some.
  - apply lookup_insert_eq.
Qed.

End HasTop.

Section PageSize.

Context {H : Type}.
Variable this : MicrosoftOutlook.Context H.

(** The caller's query object and the events recorded before the call. *)
Variable q : nat.
Variable before : list MicrosoftOutlook.event.

Lemma on_heap_keeps {A} (m : St heap A) :
  (∀ h, has_top q h → has_top q (m h).2) →
  keeps (@top_kept H q before) (MicrosoftOutlook.on_heap m).
Proof.
  intros Hm [h s evs] [Htop Hevs]. unfold MicrosoftOutlook.on_heap. cbn in *.
  specialize (Hm h Htop). destruct (m h) as [[a|e] h']; by split.
Qed.

Lemma alloc_fresh c :
  triple (@top_kept H q before) (MicrosoftOutlook.on_heap (alloc c))
    (λ v w, (@top_kept H q before) w ∧ v ≠ VRef q) (@top_kept H q before).
Proof.
  intros [h s evs] [Htop Hevs]. cbn in *. split.
  - split; [by apply has_top_alloc|done].
  - destruct Htop as (o & Ho & _). apply lookup_lt_Some in Ho. intros [= Heq]. lia.
Qed.

Lemma host_call_keeps ev f :
  (∀ h, has_top q h → event_sees_top q (ev h)) →
  keeps (@top_kept H q before) (MicrosoftOutlook.host_call ev f).
Proof.
  intros Hev [h s evs] [Htop (new & Hevs & Hall)]. cbn in Htop, Hevs. subst evs.
  unfold MicrosoftOutlook.host_call. cbn.
  destruct (f h s) as [[j|e] s'].
  - unfold MicrosoftOutlook.on_heap. cbn.
    pose proof (has_top_parse q j h Htop) as Hparsed.
    destruct (parse j h) as [[v|e] h']; cbn in *.
    all: split; [done|]; exists (new ++ [ev h]);
      split; [by rewrite app_assoc|];
      apply Forall_app; split; [done|]; constructor; [by apply Hev|constructor].
  - split; [done|]. exists (new ++ [ev h]).
    split; [by rewrite app_assoc|].
    apply Forall_app. split; [done|]. constructor; [by apply Hev|constructor].
Qed.

Lemma or_default_keeps v c : keeps (@top_kept H q before) (MicrosoftOutlook.or_default v (alloc c)).
Proof.
  unfold MicrosoftOutlook.or_default. apply keeps_if; [|apply keeps_ret].
  apply on_heap_keeps. intros h. apply has_top_alloc.
Qed.

Lemma getCredentials_keeps name : keeps (@top_kept H q before) (MicrosoftOutlook.getCredentials this name).
Proof. by apply host_call_keeps. Qed.

Ltac keeps_step :=
  lazymatch goal with
  | |- keeps _ (mret _) => apply keeps_ret
  | |- keeps _ (lift _) => apply keeps_lift
  | |- keeps _ (if _ then _ else _) => apply keeps_if
  | |- keeps _ (st_try_catch _ _) => apply keeps_try_catch; [|intros ?]
  | |- keeps _ (_ ≫= _) => apply keeps_bind; [|intros ?]
  | |- keeps _ (MicrosoftOutlook.getCredentials _ _) => apply getCredentials_keeps
  | |- keeps _ (MicrosoftOutlook.or_default _ (alloc _)) => apply or_default_keeps
  | |- keeps _ (MicrosoftOutlook.on_heap (get_prop _ _)) =>
      apply on_heap_keeps; intros ?; apply has_top_get
  | |- keeps _ (MicrosoftOutlook.on_heap (own_props _)) =>
      apply on_heap_keeps; intros ?; apply has_top_own_props
  | |- keeps _ (MicrosoftOutlook.on_heap (MicrosoftOutlook.keys_length _)) =>
      apply on_heap_keeps; intros ?; apply has_top_keys_length
  | |- keeps _ (MicrosoftOutlook.on_heap (alloc _)) =>
      apply on_heap_keeps; intros ?; apply has_top_alloc
  | |- keeps _ (MicrosoftOutlook.on_heap (set_prop _ _ _)) =>
      apply on_heap_keeps; intros ?; apply has_top_set_prop; discriminate
  | |- keeps _ (MicrosoftOutlook.on_heap (delete_prop _ _)) =>
      apply on_heap_keeps; intros ?; apply has_top_delete_prop; discriminate
  | |- keeps _ (MicrosoftOutlook.on_heap (MicrosoftOutlook.push_apply _ _)) =>
      apply on_heap_keeps; intros ?; apply has_top_push_apply
  | |- keeps _ (MicrosoftOutlook.on_heap (MicrosoftOutlook.Object_assign _ _)) =>
      apply on_heap_keeps; intros ?; apply has_top_assign; assumption
  end.

Ltac as_keeps :=
  lazymatch goal with
  | |- triple ?I ?m _ _ => change (keeps I m)
  end.

Lemma input_credentials_keeps itemIndex :
  keeps (@top_kept H q before) (MicrosoftOutlook.input_credentials this itemIndex).
Proof. unfold MicrosoftOutlook.input_credentials. repeat keeps_step. Qed.

Lemma resolve_credentials_keeps itemIndex :
  keeps (@top_kept H q before) (MicrosoftOutlook.resolve_credentials this itemIndex).
Proof.
  unfold MicrosoftOutlook.resolve_credentials.
  repeat first [apply input_credentials_keeps | keeps_step].
Qed.

(** One request leaves the query object as it is, whatever it is given. *)
Lemma microsoftApiRequest_keeps method resource body qs uri headers option itemIndex :
  keeps (@top_kept H q before)
    (MicrosoftOutlook.microsoftApiRequest this method resource body qs uri headers option
       itemIndex).
Proof.
  unfold MicrosoftOutlook.microsoftApiRequest.
  do 8 (apply keeps_bind; [repeat first [apply resolve_credentials_keeps | keeps_step]
                          |intros ?]).
  eapply triple_bind; [apply alloc_fresh|intros options].
  apply triple_pure. intros Hfresh. as_keeps.
  apply keeps_try_catch; [|intros ?; repeat keeps_step].
  apply keeps_bind; [keeps_step|intros ?].
  apply keeps_bind; [keeps_step|intros ?].
  apply keeps_bind.
  { apply keeps_if; [|keeps_step].
    eapply triple_bind; [apply alloc_fresh|intros merged].
    apply triple_pure. intros Hmerged. as_keeps.
    repeat keeps_step. }
  intros ?.
  repeat first [keeps_step | by apply host_call_keeps].
Qed.

Lemma pages_keeps fuel propertyName method endpoint body query headers itemIndex
    returnData nextLink :
  keeps (@top_kept H q before)
    (MicrosoftOutlook.pages this fuel propertyName method endpoint body query headers
       itemIndex returnData nextLink).
Proof.
  revert nextLink. induction fuel as [|fuel IH]; intros nextLink; cbn [MicrosoftOutlook.pages].
  - apply keeps_ret.
  - repeat first [apply microsoftApiRequest_keeps | apply IH | keeps_step].
Qed.

Lemma or_default_run v c (w : MicrosoftOutlook.world H) :
  ∃ v' ext,
    MicrosoftOutlook.or_default v (alloc c) w
    = (Ok v', {| MicrosoftOutlook.w_heap := MicrosoftOutlook.w_heap w ++ ext;
                 MicrosoftOutlook.w_host := MicrosoftOutlook.w_host w;
                 MicrosoftOutlook.w_events := MicrosoftOutlook.w_events w |})
    ∧ (v ≠ VUndefined → v' = v).
Proof.
  destruct w as [h s evs]. unfold MicrosoftOutlook.or_default, strict_eq.
  case_bool_decide as Hv.
  - exists (VRef (length h)), [c]. by split.
  - exists v, []. cbn. by rewrite app_nil_r.
Qed.

(** The whole call, from a state whose events are [before] and in which the
    caller's query is an object. *)
Lemma all_items_top_kept fuel propertyName method endpoint body headers itemIndex
    (w : MicrosoftOutlook.world H) (o : obj) :
  MicrosoftOutlook.w_heap w !! q = Some (CObj o) →
  MicrosoftOutlook.w_events w = before →
  (@top_kept H q before)
    (MicrosoftOutlook.microsoftApiRequestAllItems this fuel propertyName method endpoint
       body (VRef q) headers itemIndex w).2.
Proof.
  intros Hq Hevs. unfold MicrosoftOutlook.microsoftApiRequestAllItems.
  destruct (or_default_run body (CObj ∅) w) as (body' & ext1 & E1 & _).
  rewrite (run_bind_ok _ _ _ _ _ E1).
  match goal with |- context [(_ ≫= _) ?w1] => set (w1' := w1) end.
  destruct (or_default_run (VRef q) (CObj ∅) w1') as (query' & ext2 & E2 & Hquery).
  rewrite (run_bind_ok _ _ _ _ _ E2). rewrite (Hquery ltac:(discriminate)).
  match goal with |- context [(_ ≫= _) ?w2] => set (w2' := w2) end.
  destruct (or_default_run headers (CObj ∅) w2') as (headers' & ext3 & E3 & _).
  rewrite (run_bind_ok _ _ _ _ _ E3).
  subst w1' w2'. cbn [MicrosoftOutlook.w_heap MicrosoftOutlook.w_host MicrosoftOutlook.w_events].
  set (h3 := ((MicrosoftOutlook.w_heap w ++ ext1) ++ ext2) ++ ext3).
  assert (Hq3 : (h3 ++ [CArr []]) !! q = Some (CObj o)).
  { pose proof (lookup_lt_Some _ _ _ Hq). unfold h3.
    rewrite !lookup_app_l; [done|..]; rewrite ?length_app; lia. }
  erewrite run_bind_ok; [|reflexivity].
  erewrite run_bind_ok; [|unfold MicrosoftOutlook.on_heap, set_prop; cbn; rewrite Hq3; reflexivity].
  apply keeps_final.
  - apply keeps_bind; [apply pages_keeps|intros ?; apply keeps_ret].
  - split; cbn.
    + exists (<["$top" := VNum 100]> o). split.
      * apply list_lookup_insert_eq. by eapply lookup_lt_Some.
      * apply lookup_insert_eq.
    + exists []. rewrite app_nil_r. by split.
Qed.

End PageSize.

(** C9.  Whatever the host answers and however the call ends (it returns,
    it throws, or it is still paging when the fuel is spent), the caller's
    query object holds [$top = 100] afterwards; and every request this call
    sent left after the write, with [$top = 100] already in the caller's
    object. *)
Theorem microsoftApiRequestAllItems_writes_top
    {H : Type} (this : MicrosoftOutlook.Context H) (fuel : nat)
    (propertyName method endpoint body headers : value) (itemIndex : Z)
    (w : MicrosoftOutlook.world H) (query : nat) (o : obj)
    (Hquery : MicrosoftOutlook.w_heap w !! query = Some (CObj o)) :
  let after :=
    (MicrosoftOutlook.microsoftApiRequestAllItems this fuel propertyName method endpoint
       body (VRef query) headers itemIndex w).2 in
  (∃ o', MicrosoftOutlook.w_heap after !! query = Some (CObj o')
         ∧ o' !! "$top" = Some (VNum 100))
  ∧ ∃ sent, MicrosoftOutlook.w_events after = MicrosoftOutlook.w_events w ++ sent
            ∧ Forall (event_sees_top query) sent.
Proof.
  exact (all_items_top_kept this query (MicrosoftOutlook.w_events w) fuel propertyName
           method endpoint body headers itemIndex w o Hquery eq_refl).
Qed.

Lemma microsoftApiRequestAllItems_writes_top_witness :
  (∃ o', MicrosoftOutlook.w_heap list_unread.2 !! 0%nat = Some (CObj o')
         ∧ o' !! "$top" = Some (VNum 100))
  ∧ ∃ sent, MicrosoftOutlook.w_events list_unread.2 = [] ++ sent
            ∧ Forall (event_sees_top 0) sent.
Proof.
  exact (microsoftApiRequestAllItems_writes_top one_page 1 (VStr "value") (VStr "GET")
           (VStr "/messages") VUndefined VUndefined 0 unread_query 0
           (<["$filter" := VStr "isRead eq false"]> ∅) eq_refl).
Defined.

(** The same call, run: it returns the array of messages, it sent one
    authenticated request whose [qs] is the caller's object, and the caller's
    object now holds the page size next to its filter. *)
Lemma list_unread_run :
  ∃ returnData options at_call o,
    list_unread.1 = Ok (Some (VRef returnData))
    ∧ MicrosoftOutlook.w_heap list_unread.2 !! returnData = Some (CArr [VRef 8])
    ∧ MicrosoftOutlook.w_events list_unread.2
      = [MicrosoftOutlook.EvGetCredentials "microsoftOutlookOAuth2Api";
         MicrosoftOutlook.EvRequestWithAuthentication "microsoftOutlookOAuth2Api"
           (VRef options) at_call]
    ∧ at_call !! options = Some (CObj o) ∧ o !! "qs" = Some (VRef 0)
    ∧ MicrosoftOutlook.w_heap list_unread.2 !! 0%nat
      = Some (CObj (<["$top" := VNum 100]> (<["$filter" := VStr "isRead eq false"]> ∅))).
Proof.
  eexists _, _, _, _. vm_compute. repeat split; reflexivity.
Qed.

(** ** The node description transform *)

Lemma repr_JArr h v js :
  repr h v (JArr js) ↔ ∃ l vs, v = VRef l ∧ h !! l = Some (CArr vs) ∧ Forall2 (repr h) vs js.
Proof.
  cbn [repr].
  assert (Hall : ∀ vs,
    (fix all (js : list json) (vs : list value) : Prop :=
       match js, vs with
       | [], [] => True
       | j :: js, v :: vs => repr h v j ∧ all js vs
       | _, _ => False
       end) js vs ↔ Forall2 (repr h) vs js).
  { induction js as [|j js IH]; intros [|v' vs]; split; try done; try by inversion 1.
    - intros [Hv Hrest]. constructor; [done|]. by apply IH.
    - inversion 1; subst. split; [done|]. by apply IH. }
  split; intros (l & vs & Hv & Hl & Hvs); exists l, vs; by rewrite Hall in *.
Qed.

Lemma repr_JObj h v kjs :
  repr h v (JObj kjs)
  ↔ ∃ l kvs, v = VRef l ∧ h !! l = Some (CObj (obj_of_members kvs))
      ∧ Forall2 (repr_member h) kvs kjs.
Proof.
  cbn [repr].
  assert (Hall : ∀ kvs,
    (fix all (kjs : list (string * json)) (kvs : list (string * value)) : Prop :=
       match kjs, kvs with
       | [], [] => True
       | kj :: kjs, kv :: kvs => (kv.1 = kj.1 ∧ repr h kv.2 kj.2) ∧ all kjs kvs
       | _, _ => False
       end) kjs kvs ↔ Forall2 (repr_member h) kvs kjs).
  { induction kjs as [|kj kjs IH]; intros [|kv kvs]; split; try done; try by inversion 1.
    - intros [Hv Hrest]. constructor; [done|]. by apply IH.
    - inversion 1; subst. split; [done|]. by apply IH. }
  split; intros (l & kvs & Hv & Hl & Hkvs); exists l, kvs; by rewrite Hall in *.
Qed.

(** Cells that stay make texts stay. *)
Lemma repr_transfer (h h' : heap) (v : value) (j : json) :
  (∀ l c, h !! l = Some c → h' !! l = Some c) → repr h v j → repr h' v j.
Proof.
  intros Hsub. revert v.
  induction j as [|b|n|s|js IH|kjs IH] using json_ind'; intros v; try done.
  - rewrite !repr_JArr. intros (l & vs & -> & Hl & Hall).
    exists l, vs. split; [done|]. split; [by apply Hsub|].
    clear Hl. revert vs Hall. induction IH as [|j js Hj _ IHjs]; intros vs; inversion 1; subst.
    + constructor.
    + constructor; [by apply Hj|by apply IHjs].
  - rewrite !repr_JObj. intros (l & kvs & -> & Hl & Hall).
    exists l, kvs. split; [done|]. split; [by apply Hsub|].
    clear Hl. revert kvs Hall.
    induction IH as [|kj kjs Hj _ IHkjs]; intros kvs; inversion 1 as [|? ? ? ? [Hk Hr]]; subst.
    + constructor.
    + constructor; [split; [done|by apply Hj]|by apply IHkjs].
Qed.



(** A field of the parsed object holds the text of the same field. *)
Lemma members_lookup (h : heap) kvs kjs (k : string) :
  Forall2 (repr_member h) kvs kjs →
  match json_fields kjs !! k with
  | Some j => ∃ v, obj_of_members kvs !! k = Some v ∧ repr h v j
  | None => obj_of_members kvs !! k = None
  end.
Proof.
  unfold json_fields, obj_of_members.
  assert (Hgen : ∀ (o : obj) (oj : gmap string json),
    match oj !! k with
    | Some j => ∃ v, o !! k = Some v ∧ repr h v j
    | None => o !! k = None
    end →
    Forall2 (repr_member h) kvs kjs →
    match foldl (λ o kj, <[kj.1 := kj.2]> o) oj kjs !! k with
    | Some j => ∃ v, foldl (λ o kv, <[kv.1 := kv.2]> o) o kvs !! k = Some v ∧ repr h v j
    | None => foldl (λ o kv, <[kv.1 := kv.2]> o) o kvs !! k = None
    end).
  { intros o oj Hrel Hall. revert o oj Hrel.
    induction Hall as [|kv kj kvs kjs [Hk Hv] _ IH]; intros o oj Hrel; [done|].
    cbn [foldl]. apply IH. rewrite Hk.
    destruct (decide (kj.1 = k)) as [->|Hne].
    - rewrite !lookup_insert_eq. eauto.
    - by rewrite !lookup_insert_ne. }
  apply Hgen. by rewrite !lookup_empty.
Qed.















(** * Further properties

    The rest of the file covers what the properties above leave out: the
    other branches of the two helpers, the second copy of the generic class,
    the wrapper around a node's [execute], the Zammad property table, the
    failure of the transforms on circular descriptions, and the requests of
    the Outlook transport. *)

(** ** Resolution, in full *)

(** X1.  [getDynamicCredentials] of the generic helper returns an object in
    exactly three cases, all with the flag reading the boolean [true]: type
    ['basic'] with both fields readable, and types ['oauth2'] and ['apiKey']
    with [credentialPath] readable.  The object holds the fields read and
    nothing else. *)
Theorem getDynamicCredentials_returns (execFunctions : IExecuteFunctions) (itemIndex : Z)
    (credentials : obj) :
  let read name := getNodeParameter execFunctions name itemIndex None in
  DynamicCredentialsHelper.getDynamicCredentials execFunctions itemIndex = Ok credentials
  ↔ read "useDynamicCredentials" = Ok (VBool true)
    ∧ ((read "credentialType" = Ok (VStr "basic")
        ∧ ∃ username password,
            read "basicUsername" = Ok username ∧ read "basicPassword" = Ok password
            ∧ credentials = <["username" := username]> (<["password" := password]> ∅))
       ∨ (read "credentialType" = Ok (VStr "oauth2")
          ∧ ∃ token, read "credentialPath" = Ok token
                     ∧ credentials = <["accessToken" := token]> ∅)
       ∨ (read "credentialType" = Ok (VStr "apiKey")
          ∧ ∃ key, read "credentialPath" = Ok key
                   ∧ credentials = <["apiKey" := key]> ∅)).
Proof.
  cbv zeta. unfold DynamicCredentialsHelper.getDynamicCredentials.
  rewrite generic_enabled_unfold.
  destruct (getNodeParameter execFunctions "useDynamicCredentials" itemIndex None)
    as [flag|e]; cbn; [|by split; [|intros [? _]]].
  case_bool_decide as Hflag; cbn; [subst flag|split; [done|intros [[= ?] _]; done]].
  destruct (getNodeParameter execFunctions "credentialType" itemIndex None)
    as [credentialType|e]; cbn.
  2: { split; [done|]. intros (_ & [(? & _)|[(? & _)|(? & _)]]); done. }
  unfold strict_eq. case_bool_decide as Hbasic; cbn.
  { subst credentialType.
    destruct (getNodeParameter execFunctions "basicUsername" itemIndex None)
      as [username|e]; cbn.
    2: { split; [done|].
         intros (_ & [(_ & ? & ? & ? & _)|[(? & _)|(? & _)]]); done. }
    destruct (getNodeParameter execFunctions "basicPassword" itemIndex None)
      as [password|e]; cbn.
    2: { split; [done|].
         intros (_ & [(_ & ? & ? & _ & ? & _)|[(? & _)|(? & _)]]); done. }
    split.
    - intros [= <-]. split; [done|]. left. split; [done|]. by exists username, password.
    - intros (_ & [(_ & u & p & [= <-] & [= <-] & ->)|[(? & _)|(? & _)]]); done. }
  destruct (getNodeParameter execFunctions "credentialPath" itemIndex None)
    as [token|e]; cbn.
  2: { split; [done|].
       intros (_ & [([= ?] & _)|[(_ & ? & ? & _)|(_ & ? & ? & _)]]); done. }
  case_bool_decide as Hoauth2; cbn.
  { subst credentialType. split.
    - intros [= <-]. split; [done|]. right. left. split; [done|]. by exists token.
    - intros (_ & [(? & _)|[(_ & t & [= <-] & ->)|(? & _)]]); done. }
  case_bool_decide as HapiKey; cbn.
  { subst credentialType. split.
    - intros [= <-]. split; [done|]. right. right. split; [done|]. by exists token.
    - intros (_ & [(? & _)|[(? & _)|(_ & t & [= <-] & ->)]]); done. }
  split; [done|].
  intros (_ & [([= ?] & _)|[([= ?] & _)|([= ?] & _)]]); done.
Qed.

(** X2.  Every failure of [getDynamicCredentials], in both helpers, is a
    fresh [Error] without description.  When the flag does not read the
    boolean [true] its message is the not-enabled text; otherwise the message
    starts with [Failed to get dynamic credentials: ], whatever the cause
    was.  A success implies that the flag reads [true]. *)
Theorem getDynamicCredentials_failures (execFunctions : IExecuteFunctions) (itemIndex : Z) :
  let wrapped (outcome : result obj) (flag : result value) :=
    match outcome with
    | Ok _ => flag = Ok (VBool true)
    | Throw e =>
        description e = VUndefined
        ∧ if bool_decide (flag = Ok (VBool true))
          then ∃ cause, message e = VStr ("Failed to get dynamic credentials: " +:+ cause)
          else message e = VStr "Dynamic credentials are not enabled for this node"
    end in
  wrapped (DynamicCredentialsHelper.getDynamicCredentials execFunctions itemIndex)
    (getNodeParameter execFunctions "useDynamicCredentials" itemIndex None)
  ∧ wrapped (ZammadDynamicCredentialsHelper.getDynamicCredentials execFunctions itemIndex)
      (getNodeParameter execFunctions "useZammadDynamicCredentials" itemIndex None).
Proof.
  cbv zeta. split.
  - unfold DynamicCredentialsHelper.getDynamicCredentials.
    rewrite generic_enabled_unfold.
    destruct (getNodeParameter execFunctions "useDynamicCredentials" itemIndex None)
      as [flag|e]; cbn; [|done].
    case_bool_decide as Hflag; cbn.
    + subst flag. rewrite bool_decide_eq_true_2 by done.
      match goal with |- match try_catch ?b _ with _ => _ end => destruct b as [c|e] end;
        cbn; [done|]. split; [done|]. eauto.
    + rewrite bool_decide_eq_false_2 by congruence. done.
  - unfold ZammadDynamicCredentialsHelper.getDynamicCredentials.
    rewrite zammad_enabled_unfold.
    destruct (getNodeParameter execFunctions "useZammadDynamicCredentials" itemIndex None)
      as [flag|e]; cbn; [|done].
    case_bool_decide as Hflag; cbn.
    + subst flag. rewrite bool_decide_eq_true_2 by done.
      match goal with |- match try_catch ?b _ with _ => _ end => destruct b as [c|e] end;
        cbn; [done|]. split; [done|]. eauto.
    + rewrite bool_decide_eq_false_2 by congruence. done.
Qed.

(** X3.  [getDynamicCredentials] of the Zammad helper returns an
    object exactly when the flag reads [true] and the common fields and the
    fields of the authentication type can be read.  Every authentication type
    other than ['basicAuth'] is treated as token authentication; the base URL
    and the certificate switch are always part of the object. *)
Theorem zammad_getDynamicCredentials_returns (execFunctions : IExecuteFunctions)
    (itemIndex : Z) (credentials : obj) :
  let read name := getNodeParameter execFunctions name itemIndex None in
  ZammadDynamicCredentialsHelper.getDynamicCredentials execFunctions itemIndex = Ok credentials
  ↔ read "useZammadDynamicCredentials" = Ok (VBool true)
    ∧ ∃ authenticationType baseUrl allowUnauthorizedCerts,
        read "authentication" = Ok authenticationType
        ∧ getNodeParameter execFunctions "baseUrl" itemIndex (Some (VStr "")) = Ok baseUrl
        ∧ getNodeParameter execFunctions "allowUnauthorizedCerts" itemIndex
            (Some (VBool false)) = Ok allowUnauthorizedCerts
        ∧ let common : obj :=
            <["allowUnauthorizedCerts" := allowUnauthorizedCerts]>
              (<["baseUrl" := baseUrl]> ∅) in
          (authenticationType = VStr "basicAuth"
           ∧ ∃ username password,
               read "username" = Ok username ∧ read "password" = Ok password
               ∧ credentials = <["password" := password]> (<["username" := username]> common))
          ∨ (authenticationType ≠ VStr "basicAuth"
             ∧ ∃ accessToken,
                 read "accessToken" = Ok accessToken
                 ∧ credentials = <["accessToken" := accessToken]> common).
Proof.
  cbv zeta. split.
  - intros Hresolved.
    destruct (zammad_credentials_inv _ _ _ Hresolved)
      as (authenticationType & baseUrl & allow & Henabled & Hauth & Hbase & Hallow & Hshape).
    split.
    + rewrite zammad_enabled_unfold in Henabled.
      destruct (getNodeParameter execFunctions "useZammadDynamicCredentials" itemIndex None)
        as [flag|e]; [|done].
      injection Henabled as Hflag. apply bool_decide_eq_true_1 in Hflag. by subst.
    + by exists authenticationType, baseUrl, allow.
  - intros (Hflag & authenticationType & baseUrl & allow & Hauth & Hbase & Hallow & Hshape).
    unfold ZammadDynamicCredentialsHelper.getDynamicCredentials.
    rewrite (zammad_enabled_true _ _ Hflag). cbn.
    unfold ZammadDynamicCredentialsHelper.getAuthenticationType.
    rewrite Hauth. cbn. rewrite Hbase. cbn. rewrite Hallow. cbn.
    destruct Hshape as [(-> & username & password & Hu & Hp & ->)
                       |(Hne & accessToken & Ht & ->)].
    + change (strict_eq (VStr "basicAuth") (VStr "basicAuth")) with true. cbv iota.
      rewrite Hu. cbn. by rewrite Hp.
    + unfold strict_eq. rewrite bool_decide_eq_false_2 by done. by rewrite Ht.
Qed.

(** ** The other branches of the generic helper *)

Lemma alloc2_written (h : heap) (c1 c2 c1' c2' : cell) :
  <[S (length h) := c2']> (<[length h := c1']> ((h ++ [c1]) ++ [c2])) = h ++ [c1'; c2'].
Proof.
  rewrite <- app_assoc. cbn [app].
  rewrite insert_app_r_alt by lia. rewrite Nat.sub_diag. cbn [list_insert].
  rewrite insert_app_r_alt by lia.
  replace (S (length h) - length h)%nat with 1%nat by lia. done.
Qed.

Lemma alloc2_first_written (h : heap) (c1 c2 c1' : cell) :
  <[length h := c1']> ((h ++ [c1]) ++ [c2]) = h ++ [c1'; c2].
Proof.
  rewrite <- app_assoc. cbn [app].
  rewrite insert_app_r_alt by lia. by rewrite Nat.sub_diag.
Qed.

Lemma alloc2_length (h : heap) (c : cell) : length (h ++ [c]) = S (length h).
Proof. rewrite length_app. cbn. lia. Qed.

Ltac tidy_heap :=
  rewrite ?Nat.add_1_r, ?alloc2_length, ?alloc2_written, ?alloc2_first_written.

Ltac generic_start Hflag Hresolved Htype Hdescriptor :=
  rewrite (generic_enabled_true _ _ Hflag), Hresolved, Htype, !run_lift_ok; cbn [negb];
  rewrite !run_lift_ok, run_own_props; cbn [own_props_of]; rewrite Hdescriptor.

(** X4.  With an OAuth2 token the generic helper returns a fresh copy of
    the descriptor whose fresh headers hold the input's headers and
    [Authorization], and it leaves the caller's heap as it was.  The class
    exported with the proxy sends [Bearer <token>], for a token that is a
    string (or another value of [plain_text]); the copy of the class kept
    next to the property list sends the token as it is, whatever it is. *)
Theorem applyDynamicCredentials_oauth2
    (execFunctions : IExecuteFunctions) (itemIndex : Z) (h : heap)
    (descriptor : nat) (od : obj) (token : value)
    (Hflag : getNodeParameter execFunctions "useDynamicCredentials" itemIndex None
             = Ok (VBool true))
    (Htype : getNodeParameter execFunctions "credentialType" itemIndex None
             = Ok (VStr "oauth2"))
    (Htoken : getNodeParameter execFunctions "credentialPath" itemIndex None = Ok token)
    (Hdescriptor : h !! descriptor = Some (CObj od))
    (Hheaders : allocated h (field od "headers")) :
  (plain_text token = true →
   DynamicCredentialsHelper.applyDynamicCredentials execFunctions (VRef descriptor) itemIndex h
   = (Ok (VRef (length h)),
      with_fresh_headers h od
        (<["Authorization" := VStr ("Bearer " +:+ to_string token)]>
           (own_props_of h (field od "headers")))))
  ∧ UtilsDynamicCredentialsHelper.applyDynamicCredentials execFunctions (VRef descriptor)
      itemIndex h
    = (Ok (VRef (length h)),
       with_fresh_headers h od
         (<["Authorization" := token]> (own_props_of h (field od "headers")))).
Proof.
  assert (Hresolved :
    DynamicCredentialsHelper.getDynamicCredentials execFunctions itemIndex
    = Ok (<["accessToken" := token]> ∅)).
  { rewrite getDynamicCredentials_enabled by (by apply generic_enabled_true).
    by rewrite Htype; cbn; rewrite Htoken. }
  split.
  - intros _. unfold DynamicCredentialsHelper.applyDynamicCredentials.
    generic_start Hflag Hresolved Htype Hdescriptor.
    run. rewrite own_props_of_alloc by exact Hheaders.
    by tidy_heap.
  - unfold UtilsDynamicCredentialsHelper.applyDynamicCredentials.
    change (UtilsDynamicCredentialsHelper.isDynamicCredentialEnabled execFunctions itemIndex)
      with (DynamicCredentialsHelper.isDynamicCredentialEnabled execFunctions itemIndex).
    change (UtilsDynamicCredentialsHelper.getDynamicCredentials execFunctions itemIndex)
      with (DynamicCredentialsHelper.getDynamicCredentials execFunctions itemIndex).
    generic_start Hflag Hresolved Htype Hdescriptor.
    run. rewrite own_props_of_alloc by exact Hheaders.
    by tidy_heap.
Qed.

Lemma get_tickets_headers_allocated :
  allocated get_tickets (field (<["uri" := VStr "https://example.com/tickets"]>
                                  (<["headers" := VRef 1]> ∅)) "headers").
Proof. intros l Hl. vm_compute in Hl. injection Hl as <-. unfold get_tickets. cbn. lia. Qed.

Lemma applyDynamicCredentials_oauth2_witness :
  DynamicCredentialsHelper.applyDynamicCredentials (store_exec oauth2_store) (VRef 0) 0
    get_tickets
  = (Ok (VRef 2),
     get_tickets ++
     [CObj (<["headers" := VRef 3]>
              (<["uri" := VStr "https://example.com/tickets"]> (<["headers" := VRef 1]> ∅)));
      CObj (<["Authorization" := VStr "Bearer abc"]>
              (<["Accept" := VStr "application/json"]> ∅))])
  ∧ UtilsDynamicCredentialsHelper.applyDynamicCredentials (store_exec oauth2_store) (VRef 0) 0
      get_tickets
    = (Ok (VRef 2),
       get_tickets ++
       [CObj (<["headers" := VRef 3]>
                (<["uri" := VStr "https://example.com/tickets"]> (<["headers" := VRef 1]> ∅)));
        CObj (<["Authorization" := VStr "abc"]>
                (<["Accept" := VStr "application/json"]> ∅))]).
Proof.
  destruct (applyDynamicCredentials_oauth2 (store_exec oauth2_store) 0 get_tickets 0
              (<["uri" := VStr "https://example.com/tickets"]> (<["headers" := VRef 1]> ∅))
              (VStr "abc") eq_refl eq_refl eq_refl eq_refl get_tickets_headers_allocated)
    as [Hbearer Hbare].
  split; [exact (Hbearer eq_refl)|exact Hbare].
Defined.

(** X5.  An API key sent as a header (the default location): the
    fresh headers of the returned copy hold the input's headers and the key
    under the configured name (['X-API-Key'] by default); the caller's heap
    is as it was.  The name is a string (or another value of [plain_text])
    other than ['__proto__'], which an assignment does not store. *)
Theorem applyDynamicCredentials_apiKey_header
    (execFunctions : IExecuteFunctions) (itemIndex : Z) (h : heap)
    (descriptor : nat) (od : obj) (key keyName : value)
    (Hflag : getNodeParameter execFunctions "useDynamicCredentials" itemIndex None
             = Ok (VBool true))
    (Htype : getNodeParameter execFunctions "credentialType" itemIndex None
             = Ok (VStr "apiKey"))
    (Hkey : getNodeParameter execFunctions "credentialPath" itemIndex None = Ok key)
    (Hlocation : getNodeParameter execFunctions "apiKeyLocation" itemIndex
                   (Some (VStr "header")) = Ok (VStr "header"))
    (Hname : getNodeParameter execFunctions "apiKeyName" itemIndex
               (Some (VStr "X-API-Key")) = Ok keyName)
    (Hplain : plain_text keyName = true)
    (Hstored : to_string keyName ≠ "__proto__")
    (Hdescriptor : h !! descriptor = Some (CObj od))
    (Hheaders : allocated h (field od "headers")) :
  DynamicCredentialsHelper.applyDynamicCredentials execFunctions (VRef descriptor) itemIndex h
  = (Ok (VRef (length h)),
     with_fresh_headers h od
       (<[to_string keyName := key]> (own_props_of h (field od "headers")))).
Proof.
  pose proof (getDynamicCredentials_apiKey _ _ _ (generic_enabled_true _ _ Hflag) Htype Hkey)
    as Hresolved.
  unfold DynamicCredentialsHelper.applyDynamicCredentials.
  generic_start Hflag Hresolved Htype Hdescriptor.
  run. rewrite Hlocation, Hname. run.
  rewrite own_props_of_alloc by exact Hheaders.
  by tidy_heap.
Qed.

Lemma applyDynamicCredentials_apiKey_header_witness :
  DynamicCredentialsHelper.applyDynamicCredentials (store_exec apiKey_store) (VRef 0) 0
    get_tickets
  = (Ok (VRef 2),
     get_tickets ++
     [CObj (<["headers" := VRef 3]>
              (<["uri" := VStr "https://example.com/tickets"]> (<["headers" := VRef 1]> ∅)));
      CObj (<["X-API-Key" := VStr "abc"]> (<["Accept" := VStr "application/json"]> ∅))]).
Proof.
  exact (applyDynamicCredentials_apiKey_header (store_exec apiKey_store) 0 get_tickets 0
           (<["uri" := VStr "https://example.com/tickets"]> (<["headers" := VRef 1]> ∅))
           (VStr "abc") (VStr "X-API-Key") eq_refl eq_refl eq_refl eq_refl eq_refl eq_refl
           ltac:(discriminate) eq_refl get_tickets_headers_allocated).
Defined.

(** X6.  An API key whose location is neither ['header'] nor
    ['query'] is not sent at all: the call succeeds and returns a plain copy
    of the descriptor, with a copy of its headers and no credential. *)
Theorem applyDynamicCredentials_apiKey_elsewhere
    (execFunctions : IExecuteFunctions) (itemIndex : Z) (h : heap)
    (descriptor : nat) (od : obj) (key location keyName : value)
    (Hflag : getNodeParameter execFunctions "useDynamicCredentials" itemIndex None
             = Ok (VBool true))
    (Htype : getNodeParameter execFunctions "credentialType" itemIndex None
             = Ok (VStr "apiKey"))
    (Hkey : getNodeParameter execFunctions "credentialPath" itemIndex None = Ok key)
    (Hlocation : getNodeParameter execFunctions "apiKeyLocation" itemIndex
                   (Some (VStr "header")) = Ok location)
    (Hname : getNodeParameter execFunctions "apiKeyName" itemIndex
               (Some (VStr "X-API-Key")) = Ok keyName)
    (Hheader : location ≠ VStr "header")
    (Hquery : location ≠ VStr "query")
    (Hdescriptor : h !! descriptor = Some (CObj od))
    (Hheaders : allocated h (field od "headers")) :
  DynamicCredentialsHelper.applyDynamicCredentials execFunctions (VRef descriptor) itemIndex h
  = (Ok (VRef (length h)),
     with_fresh_headers h od (own_props_of h (field od "headers"))).
Proof.
  pose proof (getDynamicCredentials_apiKey _ _ _ (generic_enabled_true _ _ Hflag) Htype Hkey)
    as Hresolved.
  unfold DynamicCredentialsHelper.applyDynamicCredentials.
  generic_start Hflag Hresolved Htype Hdescriptor.
  run. rewrite Hlocation, Hname. run.
  unfold strict_eq. rewrite !bool_decide_eq_false_2 by done. run.
  rewrite own_props_of_alloc by exact Hheaders.
  by tidy_heap.
Qed.

Lemma applyDynamicCredentials_apiKey_elsewhere_witness :
  DynamicCredentialsHelper.applyDynamicCredentials (store_exec apiKey_cookie_store) (VRef 0) 0
    get_tickets
  = (Ok (VRef 2),
     get_tickets ++
     [CObj (<["headers" := VRef 3]>
              (<["uri" := VStr "https://example.com/tickets"]> (<["headers" := VRef 1]> ∅)));
      CObj (<["Accept" := VStr "application/json"]> ∅)]).
Proof.
  exact (applyDynamicCredentials_apiKey_elsewhere (store_exec apiKey_cookie_store) 0
           get_tickets 0
           (<["uri" := VStr "https://example.com/tickets"]> (<["headers" := VRef 1]> ∅))
           (VStr "abc") (VStr "cookie") (VStr "X-API-Key")
           eq_refl eq_refl eq_refl eq_refl eq_refl
           ltac:(discriminate) ltac:(discriminate) eq_refl get_tickets_headers_allocated).
Defined.

(** X7.  An API key sent as a query parameter, when the descriptor
    has a query object: the key is written into that very object, which the
    caller and the returned copy then share; the copy and its headers are the
    only new cells and nothing else of the caller's heap changes.  The name
    is a string (or another value of [plain_text]) other than
    ['__proto__']. *)
Theorem applyDynamicCredentials_apiKey_shared_query
    (execFunctions : IExecuteFunctions) (itemIndex : Z) (h : heap)
    (descriptor q : nat) (od oq : obj) (key keyName : value)
    (Hflag : getNodeParameter execFunctions "useDynamicCredentials" itemIndex None
             = Ok (VBool true))
    (Htype : getNodeParameter execFunctions "credentialType" itemIndex None
             = Ok (VStr "apiKey"))
    (Hkey : getNodeParameter execFunctions "credentialPath" itemIndex None = Ok key)
    (Hlocation : getNodeParameter execFunctions "apiKeyLocation" itemIndex
                   (Some (VStr "header")) = Ok (VStr "query"))
    (Hname : getNodeParameter execFunctions "apiKeyName" itemIndex
               (Some (VStr "X-API-Key")) = Ok keyName)
    (Hplain : plain_text keyName = true)
    (Hstored : to_string keyName ≠ "__proto__")
    (Hdescriptor : h !! descriptor = Some (CObj od))
    (Hqs : od !! "qs" = Some (VRef q))
    (Hq : h !! q = Some (CObj oq))
    (Hheaders : allocated h (field od "headers")) :
  DynamicCredentialsHelper.applyDynamicCredentials execFunctions (VRef descriptor) itemIndex h
  = (Ok (VRef (length h)),
     with_fresh_headers (<[q := CObj (<[to_string keyName := key]> oq)]> h) od
       (own_props_of h (field od "headers"))).
Proof.
  pose proof (getDynamicCredentials_apiKey _ _ _ (generic_enabled_true _ _ Hflag) Htype Hkey)
    as Hresolved.
  pose proof (lookup_lt_Some _ _ _ Hq) as Hlt.
  unfold DynamicCredentialsHelper.applyDynamicCredentials.
  generic_start Hflag Hresolved Htype Hdescriptor.
  run. rewrite Hlocation, Hname. run.
  rewrite (field_lookup _ _ _ Hqs). cbn [truthy]. run.
  rewrite own_props_of_alloc by exact Hheaders.
  unfold with_fresh_headers. rewrite length_insert.
  rewrite list_insert_insert_eq.
  rewrite (insert_insert_ne _ "qs" "headers") by done.
  rewrite (insert_id od "qs" (VRef q)) by done.
  tidy_heap.
  by rewrite insert_app_l by done.
Qed.

Lemma applyDynamicCredentials_apiKey_shared_query_witness :
  DynamicCredentialsHelper.applyDynamicCredentials (store_exec apiKey_query_store) (VRef 0) 0
    paged_request
  = (Ok (VRef 2),
     [CObj (<["uri" := VStr "https://example.com/tickets"]> (<["qs" := VRef 1]> ∅));
      CObj (<["X-API-Key" := VStr "abc"]> (<["page" := VStr "1"]> ∅));
      CObj (<["headers" := VRef 3]>
              (<["uri" := VStr "https://example.com/tickets"]> (<["qs" := VRef 1]> ∅)));
      CObj ∅]).
Proof.
  refine (applyDynamicCredentials_apiKey_shared_query (store_exec apiKey_query_store) 0
            paged_request 0 1
            (<["uri" := VStr "https://example.com/tickets"]> (<["qs" := VRef 1]> ∅))
            (<["page" := VStr "1"]> ∅) (VStr "abc") (VStr "X-API-Key")
            eq_refl eq_refl eq_refl eq_refl eq_refl eq_refl ltac:(discriminate)
            eq_refl eq_refl eq_refl _).
  intros l Hl. vm_compute in Hl. discriminate.
Defined.

(** X8.  Unless the flag reads the boolean [true], both helpers hand
    back the very descriptor they were given and touch nothing: no copy is
    made, whatever the descriptor is. *)
Theorem applyDynamicCredentials_disabled
    (execFunctions : IExecuteFunctions) (itemIndex : Z) (options : value) (h : heap) :
  (getNodeParameter execFunctions "useDynamicCredentials" itemIndex None ≠ Ok (VBool true) →
   DynamicCredentialsHelper.applyDynamicCredentials execFunctions options itemIndex h
   = (Ok options, h))
  ∧ (getNodeParameter execFunctions "useZammadDynamicCredentials" itemIndex None
     ≠ Ok (VBool true) →
     ZammadDynamicCredentialsHelper.applyDynamicCredentials execFunctions options itemIndex h
     = (Ok options, h)).
Proof.
  split; intros Hflag.
  - unfold DynamicCredentialsHelper.applyDynamicCredentials.
    rewrite generic_enabled_unfold.
    destruct (getNodeParameter execFunctions "useDynamicCredentials" itemIndex None)
      as [flag|e]; [|done].
    rewrite bool_decide_eq_false_2 by congruence. done.
  - unfold ZammadDynamicCredentialsHelper.applyDynamicCredentials.
    rewrite zammad_enabled_unfold.
    destruct (getNodeParameter execFunctions "useZammadDynamicCredentials" itemIndex None)
      as [flag|e]; [|done].
    rewrite bool_decide_eq_false_2 by congruence. done.
Qed.

Lemma applyDynamicCredentials_disabled_witness :
  DynamicCredentialsHelper.applyDynamicCredentials (store_exec zammad_token_store)
    (VRef 0) 0 get_tickets = (Ok (VRef 0), get_tickets)
  ∧ ZammadDynamicCredentialsHelper.applyDynamicCredentials (store_exec apiKey_store)
      (VRef 0) 0 get_tickets = (Ok (VRef 0), get_tickets).
Proof.
  split.
  - exact (proj1 (applyDynamicCredentials_disabled (store_exec zammad_token_store) 0
                    (VRef 0) get_tickets) ltac:(discriminate)).
  - exact (proj2 (applyDynamicCredentials_disabled (store_exec apiKey_store) 0
                    (VRef 0) get_tickets) ltac:(discriminate)).
Defined.

(** X9.  The two copies of the generic class differ for OAuth2 only:
    they resolve the same credentials, and for every credential type other
    than ['oauth2'] they treat every descriptor alike. *)
Theorem helper_copies_agree
    (execFunctions : IExecuteFunctions) (itemIndex : Z) (options : value) (h : heap) :
  UtilsDynamicCredentialsHelper.isDynamicCredentialEnabled execFunctions itemIndex
  = DynamicCredentialsHelper.isDynamicCredentialEnabled execFunctions itemIndex
  ∧ UtilsDynamicCredentialsHelper.getDynamicCredentials execFunctions itemIndex
    = DynamicCredentialsHelper.getDynamicCredentials execFunctions itemIndex
  ∧ (getNodeParameter execFunctions "credentialType" itemIndex None ≠ Ok (VStr "oauth2") →
     UtilsDynamicCredentialsHelper.applyDynamicCredentials execFunctions options itemIndex h
     = DynamicCredentialsHelper.applyDynamicCredentials execFunctions options itemIndex h).
Proof.
  split; [reflexivity|]. split; [reflexivity|]. intros Htype.
  unfold UtilsDynamicCredentialsHelper.applyDynamicCredentials,
    DynamicCredentialsHelper.applyDynamicCredentials.
  change (UtilsDynamicCredentialsHelper.isDynamicCredentialEnabled execFunctions itemIndex)
    with (DynamicCredentialsHelper.isDynamicCredentialEnabled execFunctions itemIndex).
  change (UtilsDynamicCredentialsHelper.getDynamicCredentials execFunctions itemIndex)
    with (DynamicCredentialsHelper.getDynamicCredentials execFunctions itemIndex).
  destruct (DynamicCredentialsHelper.isDynamicCredentialEnabled execFunctions itemIndex)
    as [[|]|e]; [|done..].
  rewrite !run_lift_ok. cbn [negb].
  destruct (DynamicCredentialsHelper.getDynamicCredentials execFunctions itemIndex)
    as [credentials|e]; [|done].
  rewrite !run_lift_ok.
  destruct (getNodeParameter execFunctions "credentialType" itemIndex None)
    as [credentialType|e]; [|done].
  rewrite !run_lift_ok.
  assert (strict_eq credentialType (VStr "oauth2") = false) as Hne.
  { apply bool_decide_eq_false_2. congruence. }
  by rewrite Hne.
Qed.

Lemma helper_copies_agree_witness :
  UtilsDynamicCredentialsHelper.applyDynamicCredentials (store_exec basic_store)
    (VRef 0) 0 get_tickets
  = DynamicCredentialsHelper.applyDynamicCredentials (store_exec basic_store)
      (VRef 0) 0 get_tickets.
Proof.
  exact (proj2 (proj2 (helper_copies_agree (store_exec basic_store) 0 (VRef 0) get_tickets))
           ltac:(discriminate)).
Defined.

(** Basic authentication with any username and password: the fresh headers
    hold the input's headers and [Authorization], the base64 text of the two
    values joined by a colon. *)
(** X10.  Basic authentication with a username and a password that are
    strings (or other values of [plain_text]): the fresh headers of the
    returned copy hold the input's headers and [Authorization], which is
    [Basic] and the base64 text of the two values joined by a colon. *)
Theorem applyDynamicCredentials_basic
    (execFunctions : IExecuteFunctions) (itemIndex : Z) (h : heap)
    (descriptor : nat) (od : obj) (username password : value)
    (Hflag : getNodeParameter execFunctions "useDynamicCredentials" itemIndex None
             = Ok (VBool true))
    (Htype : getNodeParameter execFunctions "credentialType" itemIndex None
             = Ok (VStr "basic"))
    (Huser : getNodeParameter execFunctions "basicUsername" itemIndex None = Ok username)
    (Hpass : getNodeParameter execFunctions "basicPassword" itemIndex None = Ok password)
    (Hplain : plain_text username && plain_text password = true)
    (Hdescriptor : h !! descriptor = Some (CObj od))
    (Hheaders : allocated h (field od "headers")) :
  DynamicCredentialsHelper.applyDynamicCredentials execFunctions (VRef descriptor) itemIndex h
  = (Ok (VRef (length h)),
     with_fresh_headers h od
       (<["Authorization" :=
            VStr ("Basic " +:+ base64 (to_string username +:+ ":" +:+ to_string password))]>
          (own_props_of h (field od "headers")))).
Proof.
  pose proof (getDynamicCredentials_basic _ _ _ _ (generic_enabled_true _ _ Hflag)
                Htype Huser Hpass) as Hresolved.
  unfold DynamicCredentialsHelper.applyDynamicCredentials.
  generic_start Hflag Hresolved Htype Hdescriptor.
  run. rewrite own_props_of_alloc by exact Hheaders.
  by tidy_heap.
Qed.

Lemma applyDynamicCredentials_basic_witness :
  DynamicCredentialsHelper.applyDynamicCredentials (store_exec basic_store) (VRef 0) 0
    get_tickets
  = (Ok (VRef 2),
     get_tickets ++
     [CObj (<["headers" := VRef 3]>
              (<["uri" := VStr "https://example.com/tickets"]> (<["headers" := VRef 1]> ∅)));
      CObj (<["Authorization" := VStr "Basic dTpw"]>
              (<["Accept" := VStr "application/json"]> ∅))]).
Proof.
  exact (applyDynamicCredentials_basic (store_exec basic_store) 0 get_tickets 0
           (<["uri" := VStr "https://example.com/tickets"]> (<["headers" := VRef 1]> ∅))
           (VStr "u") (VStr "p") eq_refl eq_refl eq_refl eq_refl eq_refl eq_refl
           get_tickets_headers_allocated).
Defined.

(** ** The property tables and the parameters the helpers read *)

Ltac in_list := repeat first [apply list_elem_of_here | apply list_elem_of_further].

Lemma generic_names :
  property_names DynamicCredentialsProperties.dynamicCredentialsProperties_literal
  = ["useDynamicCredentials"; "credentialType"; "credentialPath"; "credentialPath";
     "basicUsername"; "basicPassword"; "apiKeyLocation"; "apiKeyName"].
Proof. vm_compute. reflexivity. Qed.

Lemma zammad_names :
  property_names ZammadDynamicCredentialsProperties.dynamicCredentialsProperties_literal
  = ["useDynamicCredentials"; "dynamicAuthentication"; "baseUrl"; "allowUnauthorizedCerts";
     "username"; "password"; "accessToken"].
Proof. vm_compute. reflexivity. Qed.

(** X11.  The generic helper reads no parameter that its property
    table does not declare: two hosts that agree on the declared parameters
    get the same answers from all three methods. *)
Theorem helper_reads_declared_parameters
    (exec1 exec2 : IExecuteFunctions) (itemIndex : Z) (options : value) (h : heap)
    (Hagree : ∀ name fallback,
       name ∈ property_names DynamicCredentialsProperties.dynamicCredentialsProperties_literal →
       getNodeParameter exec1 name itemIndex fallback
       = getNodeParameter exec2 name itemIndex fallback) :
  DynamicCredentialsHelper.isDynamicCredentialEnabled exec1 itemIndex
  = DynamicCredentialsHelper.isDynamicCredentialEnabled exec2 itemIndex
  ∧ DynamicCredentialsHelper.getDynamicCredentials exec1 itemIndex
    = DynamicCredentialsHelper.getDynamicCredentials exec2 itemIndex
  ∧ DynamicCredentialsHelper.applyDynamicCredentials exec1 options itemIndex h
    = DynamicCredentialsHelper.applyDynamicCredentials exec2 options itemIndex h.
Proof.
  rewrite generic_names in Hagree.
  assert (Henabled :
    DynamicCredentialsHelper.isDynamicCredentialEnabled exec1 itemIndex
    = DynamicCredentialsHelper.isDynamicCredentialEnabled exec2 itemIndex).
  { unfold DynamicCredentialsHelper.isDynamicCredentialEnabled.
    by rewrite Hagree by in_list. }
  assert (Hresolve :
    DynamicCredentialsHelper.getDynamicCredentials exec1 itemIndex
    = DynamicCredentialsHelper.getDynamicCredentials exec2 itemIndex).
  { unfold DynamicCredentialsHelper.getDynamicCredentials.
    rewrite Henabled.
    rewrite (Hagree "credentialType") by in_list.
    rewrite (Hagree "basicUsername") by in_list.
    rewrite (Hagree "basicPassword") by in_list.
    by rewrite (Hagree "credentialPath") by in_list. }
  split; [done|]. split; [done|].
  unfold DynamicCredentialsHelper.applyDynamicCredentials.
  rewrite Henabled, Hresolve.
  rewrite (Hagree "credentialType") by in_list.
  rewrite (Hagree "apiKeyLocation") by in_list.
  by rewrite (Hagree "apiKeyName") by in_list.
Qed.

Lemma helper_reads_declared_parameters_witness :
  DynamicCredentialsHelper.isDynamicCredentialEnabled (store_exec basic_store) 0
  = DynamicCredentialsHelper.isDynamicCredentialEnabled (store_exec basic_ticket_store) 0
  ∧ DynamicCredentialsHelper.getDynamicCredentials (store_exec basic_store) 0
    = DynamicCredentialsHelper.getDynamicCredentials (store_exec basic_ticket_store) 0
  ∧ DynamicCredentialsHelper.applyDynamicCredentials (store_exec basic_store) (VRef 0) 0
      get_tickets
    = DynamicCredentialsHelper.applyDynamicCredentials (store_exec basic_ticket_store)
        (VRef 0) 0 get_tickets.
Proof.
  apply (helper_reads_declared_parameters (store_exec basic_store)
           (store_exec basic_ticket_store) 0 (VRef 0) get_tickets).
  intros name fallback Hin. cbn. unfold getParameter, basic_ticket_store.
  rewrite lookup_insert_ne; [done|]. intros <-.
  rewrite generic_names in Hin.
  repeat (apply elem_of_cons in Hin as [[=]|Hin]). by apply elem_of_nil in Hin.
Defined.

(** X12.  The Zammad helper reads its flag under a name that the
    Zammad property table does not declare.  On a host that refuses the
    parameters this table does not declare, the helper is therefore never
    enabled, and it hands every descriptor back untouched. *)
Theorem zammad_flag_not_declared
    (execFunctions : IExecuteFunctions) (itemIndex : Z) (options : value) (h : heap)
    (Hdeclared : ∀ name,
       name ∉ property_names
                ZammadDynamicCredentialsProperties.dynamicCredentialsProperties_literal →
       ∃ e, getNodeParameter execFunctions name itemIndex None = Throw e) :
  ZammadDynamicCredentialsHelper.isDynamicCredentialEnabled execFunctions itemIndex = Ok false
  ∧ ZammadDynamicCredentialsHelper.applyDynamicCredentials execFunctions options itemIndex h
    = (Ok options, h).
Proof.
  destruct (Hdeclared "useZammadDynamicCredentials") as [e Hflag].
  { rewrite zammad_names. intros Hin.
    repeat (apply elem_of_cons in Hin as [[=]|Hin]). by apply elem_of_nil in Hin. }
  assert (Henabled :
    ZammadDynamicCredentialsHelper.isDynamicCredentialEnabled execFunctions itemIndex
    = Ok false).
  { by rewrite zammad_enabled_unfold, Hflag. }
  split; [done|].
  unfold ZammadDynamicCredentialsHelper.applyDynamicCredentials. by rewrite Henabled.
Qed.

Lemma zammad_flag_not_declared_witness :
  ZammadDynamicCredentialsHelper.isDynamicCredentialEnabled (store_exec zammad_table_store) 0
  = Ok false
  ∧ ZammadDynamicCredentialsHelper.applyDynamicCredentials (store_exec zammad_table_store)
      (VRef 0) 0 old_ticket
    = (Ok (VRef 0), old_ticket).
Proof.
  apply (zammad_flag_not_declared (store_exec zammad_table_store) 0 (VRef 0) old_ticket).
  intros name Hname. rewrite zammad_names in Hname.
  exists (ParameterNotFound name). cbn. unfold getParameter, zammad_table_store.
  rewrite !lookup_insert_ne, lookup_empty; [done|intros <-; apply Hname; in_list..].
Defined.

(** ** The proxy, case by case *)

(** Every call of the proxy ends in one of three ways: dynamic credentials
    and no application of the original method; one application, whose outcome
    is handed back; or two applications, the first of which threw. *)
(** X13.  Every call of the credentials proxy ends in one of three
    ways: dynamic credentials and no application of the original method; one
    application of the original method, whose outcome is handed back; or two
    applications, the first of which threw.  The receiver and the arguments
    are those of the call every time. *)
Theorem createCredentialsProxy_outcomes {H : Type}
    (originalMethod : value → list value → H → result value * H)
    (execFunctions : IExecuteFunctions) (this : value) (args : list value)
    (w : DynamicCredentialsHelper.host_state H) :
  let proxy :=
    DynamicCredentialsHelper.createCredentialsProxy originalMethod execFunctions this args w in
  let once := applied_once originalMethod this args in
  let answer w := (originalMethod this args (DynamicCredentialsHelper.host w)).1 in
  (∃ credentials,
     DynamicCredentialsHelper.getDynamicCredentials execFunctions 0 = Ok credentials
     ∧ proxy = (Ok (DynamicCredentialsHelper.PromiseResolve credentials), w))
  ∨ proxy = (returned (answer w), once w)
  ∨ ((∃ e, answer w = Throw e) ∧ proxy = (returned (answer (once w)), once (once w))).
Proof.
  cbv zeta.
  destruct (getNodeParameter execFunctions "useDynamicCredentials" 0 (Some (VBool false)))
    as [flagValue|e] eqn:Hflag.
  - destruct (truthy flagValue) eqn:Htruthy.
    + destruct (DynamicCredentialsHelper.getDynamicCredentials execFunctions 0)
        as [credentials|e] eqn:Hresolved.
      * left. exists credentials. split; [done|]. by eapply proxy_dynamic.
      * right. left. by eapply proxy_fallback_on_resolution_failure.
    + destruct (originalMethod this args (DynamicCredentialsHelper.host w)).1
        as [v|e] eqn:Hanswer.
      * right. left. by erewrite proxy_static_returns.
      * right. right. split; [by exists e|]. by eapply proxy_static_throws.
  - right. left. by eapply proxy_fallback_on_flag_failure.
Qed.

(** X14.  The proxy tests the flag for truthiness, the helper for
    the boolean [true].  A flag that is truthy but not [true] therefore never
    yields dynamic credentials: resolution fails and the original method is
    applied exactly once, its outcome handed back. *)
Theorem createCredentialsProxy_truthy_flag {H : Type}
    (originalMethod : value → list value → H → result value * H)
    (execFunctions : IExecuteFunctions) (this : value) (args : list value)
    (w : DynamicCredentialsHelper.host_state H) (flagValue : value)
    (Hread : getNodeParameter execFunctions "useDynamicCredentials" 0 (Some (VBool false))
             = Ok flagValue)
    (Htruthy : truthy flagValue = true)
    (Hstrict : getNodeParameter execFunctions "useDynamicCredentials" 0 None
               ≠ Ok (VBool true)) :
  DynamicCredentialsHelper.createCredentialsProxy originalMethod execFunctions this args w
  = (returned (originalMethod this args (DynamicCredentialsHelper.host w)).1,
     applied_once originalMethod this args w).
Proof.
  assert (Hfails :
    DynamicCredentialsHelper.getDynamicCredentials execFunctions 0
    = Throw (new_Error "Dynamic credentials are not enabled for this node")).
  { unfold DynamicCredentialsHelper.getDynamicCredentials.
    rewrite generic_enabled_unfold.
    destruct (getNodeParameter execFunctions "useDynamicCredentials" 0 None)
      as [v|e]; [|done].
    by rewrite bool_decide_eq_false_2 by congruence. }
  by eapply proxy_fallback_on_resolution_failure.
Qed.

Lemma createCredentialsProxy_truthy_flag_witness :
  DynamicCredentialsHelper.createCredentialsProxy stored_credentials
    (store_exec flag_as_text_store) VUndefined [VStr "zammadApi"]
    {| DynamicCredentialsHelper.host := 0%nat; DynamicCredentialsHelper.invocations := [] |}
  = (Ok (DynamicCredentialsHelper.Returned (VStr "stored")),
     {| DynamicCredentialsHelper.host := 1%nat;
        DynamicCredentialsHelper.invocations := [(VUndefined, [VStr "zammadApi"])] |}).
Proof.
  exact (createCredentialsProxy_truthy_flag stored_credentials
           (store_exec flag_as_text_store) VUndefined [VStr "zammadApi"]
           {| DynamicCredentialsHelper.host := 0%nat;
              DynamicCredentialsHelper.invocations := [] |}
           (VStr "true") eq_refl eq_refl ltac:(discriminate)).
Defined.

(** ** The wrapper around a node's [execute] *)

Section WrapFacts.

Context {H : Type}.
Variable hostGetCredentials : value → list value → H → result value * H.
Variable execFunctions : IExecuteFunctions.

Local Abbreviation apply_method :=
  (WrapNodeExecute.apply_method hostGetCredentials execFunctions).
Local Abbreviation run_node := (@WrapNodeExecute.run H hostGetCredentials execFunctions).

(** The closure around the host's method is the proxy of the claims. *)
Lemma apply_proxy_of_host this args :
  apply_method (WrapNodeExecute.ProxyOf WrapNodeExecute.HostMethod) this args
  = DynamicCredentialsHelper.createCredentialsProxy hostGetCredentials execFunctions
      this args.
Proof. reflexivity. Qed.

Lemma run_node_keeps_slot {A} (node : WrapNodeExecute.execute A) this c :
  WrapNodeExecute.getCredentials (run_node node this c).2 = WrapNodeExecute.getCredentials c.
Proof.
  revert c. induction node as [r|args next IH]; intros c; cbn.
  - done.
  - destruct (apply_method _ this args _) as [r s]. by rewrite IH.
Qed.

Lemma run_dynamic {A} (node : WrapNodeExecute.execute A) this m s flagValue credentials :
  getNodeParameter execFunctions "useDynamicCredentials" 0 (Some (VBool false))
    = Ok flagValue →
  truthy flagValue = true →
  DynamicCredentialsHelper.getDynamicCredentials execFunctions 0 = Ok credentials →
  run_node node this
    {| WrapNodeExecute.getCredentials := WrapNodeExecute.ProxyOf m;
       WrapNodeExecute.state := s |}
  = (answered node (Ok (DynamicCredentialsHelper.PromiseResolve credentials)),
     {| WrapNodeExecute.getCredentials := WrapNodeExecute.ProxyOf m;
        WrapNodeExecute.state := s |}).
Proof.
  intros Hflag Htruthy Hresolved.
  induction node as [r|args next IH]; cbn [WrapNodeExecute.run answered].
  - done.
  - cbn [WrapNodeExecute.getCredentials WrapNodeExecute.state WrapNodeExecute.apply_method].
    unfold st_try_catch. rewrite Hflag, run_lift_ok, Htruthy, Hresolved, run_lift_ok.
    apply IH.
Qed.

(** A falsy flag and a host lookup that answers: a proxy is transparent. *)
Lemma apply_proxy_static m this args s flagValue :
  getNodeParameter execFunctions "useDynamicCredentials" 0 (Some (VBool false))
    = Ok flagValue →
  truthy flagValue = false →
  (∀ this args s, ∃ v s', hostGetCredentials this args s = (Ok v, s')) →
  apply_method (WrapNodeExecute.ProxyOf m) this args s = apply_method m this args s
  ∧ ∃ v s', apply_method m this args s = (Ok v, s').
Proof.
  intros Hflag Hfalsy Hanswers.
  assert (Hok : ∀ m, ∃ v s', apply_method m this args s = (Ok v, s')).
  { clear m. induction m as [|m IH].
    - cbn. unfold mbind, St_bind, DynamicCredentialsHelper.apply_original.
      destruct (Hanswers this args (DynamicCredentialsHelper.host s)) as (v & s' & ->).
      eauto.
    - cbn [WrapNodeExecute.apply_method]. unfold st_try_catch.
      rewrite Hflag, run_lift_ok, Hfalsy.
      destruct IH as (v & s' & ->). eauto. }
  split; [|apply Hok].
  cbn [WrapNodeExecute.apply_method]. unfold st_try_catch.
  rewrite Hflag, run_lift_ok, Hfalsy.
  by destruct (Hok m) as (v & s' & ->).
Qed.

Lemma run_static {A} (node : WrapNodeExecute.execute A) this m s flagValue :
  getNodeParameter execFunctions "useDynamicCredentials" 0 (Some (VBool false))
    = Ok flagValue →
  truthy flagValue = false →
  (∀ this args s, ∃ v s', hostGetCredentials this args s = (Ok v, s')) →
  let original :=
    run_node node this {| WrapNodeExecute.getCredentials := m; WrapNodeExecute.state := s |} in
  run_node node this
    {| WrapNodeExecute.getCredentials := WrapNodeExecute.ProxyOf m;
       WrapNodeExecute.state := s |}
  = (original.1,
     {| WrapNodeExecute.getCredentials := WrapNodeExecute.ProxyOf m;
        WrapNodeExecute.state := WrapNodeExecute.state original.2 |}).
Proof.
  intros Hflag Hfalsy Hanswers. cbv zeta. revert s.
  induction node as [r|args next IH]; intros s; cbn [WrapNodeExecute.run].
  - done.
  - cbn [WrapNodeExecute.getCredentials WrapNodeExecute.state].
    destruct (apply_proxy_static m this args s flagValue Hflag Hfalsy Hanswers)
      as [-> _].
    destruct (apply_method m this args s) as [r s']. apply IH.
Qed.

End WrapFacts.

(** X15.  [wrapNodeExecute] with the flag set and the dynamic
    credentials resolving: every lookup the wrapped node makes is answered
    with the dynamic credentials, and the method that was in the slot is
    never applied, so the state of the host and the record of its
    invocations are as before.  The proxy stays in the slot when the call is
    over. *)
Theorem wrapNodeExecute_dynamic {H A : Type}
    (hostGetCredentials : value → list value → H → result value * H)
    (execFunctions : IExecuteFunctions)
    (originalExecute : list value → WrapNodeExecute.execute A)
    (this : value) (args : list value) (c : WrapNodeExecute.context H)
    (flagValue : value) (credentials : obj)
    (Hflag : getNodeParameter execFunctions "useDynamicCredentials" 0 (Some (VBool false))
             = Ok flagValue)
    (Htruthy : truthy flagValue = true)
    (Hresolved : DynamicCredentialsHelper.getDynamicCredentials execFunctions 0
                 = Ok credentials) :
  WrapNodeExecute.wrapNodeExecute hostGetCredentials execFunctions originalExecute this
    args c
  = (answered (originalExecute args)
       (Ok (DynamicCredentialsHelper.PromiseResolve credentials)),
     {| WrapNodeExecute.getCredentials :=
          WrapNodeExecute.ProxyOf (WrapNodeExecute.getCredentials c);
        WrapNodeExecute.state := WrapNodeExecute.state c |}).
Proof.
  unfold WrapNodeExecute.wrapNodeExecute. by eapply run_dynamic.
Qed.

(** X16.  [wrapNodeExecute] with a flag that is not set and a host
    lookup that always answers: the wrapped node runs as the node itself
    would, with the same outcome and the same applications of the host's
    method.  Only the slot differs: the proxy is left in it. *)
Theorem wrapNodeExecute_static {H A : Type}
    (hostGetCredentials : value → list value → H → result value * H)
    (execFunctions : IExecuteFunctions)
    (originalExecute : list value → WrapNodeExecute.execute A)
    (this : value) (args : list value) (c : WrapNodeExecute.context H)
    (flagValue : value)
    (Hflag : getNodeParameter execFunctions "useDynamicCredentials" 0 (Some (VBool false))
             = Ok flagValue)
    (Hfalsy : truthy flagValue = false)
    (Hanswers : ∀ this args s, ∃ v s', hostGetCredentials this args s = (Ok v, s')) :
  let original :=
    WrapNodeExecute.run hostGetCredentials execFunctions (originalExecute args) this c in
  WrapNodeExecute.wrapNodeExecute hostGetCredentials execFunctions originalExecute this
    args c
  = (original.1,
     {| WrapNodeExecute.getCredentials :=
          WrapNodeExecute.ProxyOf (WrapNodeExecute.getCredentials c);
        WrapNodeExecute.state := WrapNodeExecute.state original.2 |}).
Proof.
  cbv zeta. unfold WrapNodeExecute.wrapNodeExecute. destruct c as [m s].
  by eapply run_static.
Qed.

Lemma wrapNodeExecute_dynamic_witness :
  WrapNodeExecute.wrapNodeExecute stored_credentials (store_exec oauth2_store) lookup_once
    VUndefined [] untouched_host
  = (Ok (VStr "abc"),
     {| WrapNodeExecute.getCredentials :=
          WrapNodeExecute.ProxyOf WrapNodeExecute.HostMethod;
        WrapNodeExecute.state :=
          {| DynamicCredentialsHelper.host := 0%nat;
             DynamicCredentialsHelper.invocations := [] |} |}).
Proof.
  exact (wrapNodeExecute_dynamic stored_credentials (store_exec oauth2_store) lookup_once
           VUndefined [] untouched_host (VBool true) (<["accessToken" := VStr "abc"]> ∅)
           eq_refl eq_refl eq_refl).
Defined.

Lemma wrapNodeExecute_static_witness :
  WrapNodeExecute.wrapNodeExecute stored_credentials (store_exec (λ _, ∅)) lookup_once
    VUndefined [] untouched_host
  = (Ok (VStr "stored"),
     {| WrapNodeExecute.getCredentials :=
          WrapNodeExecute.ProxyOf WrapNodeExecute.HostMethod;
        WrapNodeExecute.state :=
          {| DynamicCredentialsHelper.host := 1%nat;
             DynamicCredentialsHelper.invocations := [(VUndefined, [VStr "zammadApi"])] |} |}).
Proof.
  exact (wrapNodeExecute_static stored_credentials (store_exec (λ _, ∅)) lookup_once
           VUndefined [] untouched_host (VBool false) eq_refl eq_refl
           (λ _ _ s, ex_intro _ (VStr "stored") (ex_intro _ (S s) eq_refl))).
Defined.

(** ** The URI the Zammad helper writes *)

Lemma app_String c (p r : string) : String c p +:+ r = String c (p +:+ r).
Proof. reflexivity. Qed.

Lemma strip_prefix_app (p r : string) : strip_prefix p (p +:+ r) = Some r.
Proof.
  induction p as [|c p IH]; [done|].
  rewrite app_String. cbn [strip_prefix]. by rewrite Ascii.eqb_refl.
Qed.

Lemma strip_prefix_Some (p s r : string) : strip_prefix p s = Some r → s = p +:+ r.
Proof.
  revert s. induction p as [|c p IH]; intros s; cbn [strip_prefix].
  - by intros [= ->].
  - destruct s as [|d s]; [done|].
    destruct (Ascii.eqb c d) eqn:E; [|done].
    apply Ascii.eqb_eq in E as ->. intros Hs. by rewrite (IH _ Hs), app_String.
Qed.

Lemma match_api_v1_unfold (u : string) :
  match_api_v1 u =
  match (match strip_prefix "/api/v1" u with
         | Some rest => if dot_star_to_end rest then Some rest else None
         | None => None
         end), u with
  | Some group, _ => Some group
  | None, String _ r => match_api_v1 r
  | None, EmptyString => None
  end.
Proof. by destruct u. Qed.

Lemma match_here (g : string) :
  dot_star_to_end g = true → match_api_v1 ("/api/v1" +:+ g) = Some g.
Proof.
  intros Hg. rewrite match_api_v1_unfold, strip_prefix_app, Hg. done.
Qed.

Lemma app_empty (s : string) : "" +:+ s = s.
Proof. reflexivity. Qed.

Lemma match_api_v1_spec_aux (u : string) :
  match match_api_v1 u with
  | Some g =>
      dot_star_to_end g = true
      ∧ ∃ p, u = p +:+ "/api/v1" +:+ g
             ∧ ∀ p' g', u = p' +:+ "/api/v1" +:+ g' → dot_star_to_end g' = true →
                        (String.length p ≤ String.length p')%nat
  | None => ∀ p g, u = p +:+ "/api/v1" +:+ g → dot_star_to_end g = false
  end.
Proof.
  induction u as [|c r IH]; rewrite match_api_v1_unfold.
  - cbn. intros [|? p] g; rewrite ?app_String; discriminate.
  - assert (Hhere : ∀ g', String c r = "" +:+ "/api/v1" +:+ g' →
                          strip_prefix "/api/v1" (String c r) = Some g').
    { intros g' ->. rewrite app_empty. apply strip_prefix_app. }
    destruct (strip_prefix "/api/v1" (String c r)) as [rest|] eqn:Hstrip.
    + destruct (dot_star_to_end rest) eqn:Hrest.
      * split; [done|]. exists ""%string.
        split; [by rewrite app_empty; apply strip_prefix_Some|]. intros; cbn; lia.
      * destruct (match_api_v1 r) as [g|].
        -- destruct IH as (Hg & p & -> & Hmin). split; [done|].
           exists (String c p). split; [done|].
           intros [|d p'] g' Hu Hg'.
           ++ apply Hhere in Hu. congruence.
           ++ rewrite app_String in Hu. injection Hu as -> Hu.
              specialize (Hmin _ _ Hu Hg'). cbn. lia.
        -- intros [|d p'] g' Hu.
           ++ apply Hhere in Hu. congruence.
           ++ rewrite app_String in Hu. injection Hu as -> Hu. by eapply IH.
    + destruct (match_api_v1 r) as [g|].
      * destruct IH as (Hg & p & -> & Hmin). split; [done|].
        exists (String c p). split; [done|].
        intros [|d p'] g' Hu Hg'.
        -- apply Hhere in Hu. congruence.
        -- rewrite app_String in Hu. injection Hu as -> Hu.
           specialize (Hmin _ _ Hu Hg'). cbn. lia.
      * intros [|d p'] g' Hu.
        -- apply Hhere in Hu. congruence.
        -- rewrite app_String in Hu. injection Hu as -> Hu. by eapply IH.
Qed.

Lemma app_assoc_string (a b c : string) : (a +:+ b) +:+ c = a +:+ b +:+ c.
Proof. induction a as [|x a IH]; [done|]. by rewrite !app_String, IH. Qed.

Lemma app_nil_string (a : string) : a +:+ "" = a.
Proof. induction a as [|x a IH]; [done|]. by rewrite app_String, IH. Qed.

Lemma length_app_string (a b : string) :
  String.length (a +:+ b) = (String.length a + String.length b)%nat.
Proof. induction a as [|x a IH]; [done|]. rewrite app_String. cbn. by rewrite IH. Qed.

Lemma prefix_String a s b t :
  String.prefix (String a s) (String b t) = if Ascii.eqb a b then String.prefix s t else false.
Proof.
  cbn. destruct (ascii_dec a b) as [->|Hne].
  - by rewrite Ascii.eqb_refl.
  - by apply Ascii.eqb_neq in Hne as ->.
Qed.

Lemma strip_prefix_None (s t : string) :
  String.prefix s t = false → strip_prefix s t = None.
Proof.
  revert t. induction s as [|a s IH]; intros [|b t]; try done.
  rewrite prefix_String. cbn [strip_prefix]. destruct (Ascii.eqb a b); [apply IH|done].
Qed.

Lemma prefix_app_self (s r : string) : String.prefix s (s +:+ r) = true.
Proof.
  induction s as [|a s IH]; [by destruct r|].
  by rewrite app_String, prefix_String, Ascii.eqb_refl.
Qed.

Lemma prefix_app_long (s a x : string) :
  (String.length s ≤ String.length a)%nat →
  String.prefix s (a +:+ x) = String.prefix s a.
Proof.
  revert a. induction s as [|c s IH]; intros a Hlen.
  - by destruct a, x.
  - destruct a as [|d a]; [cbn in Hlen; lia|].
    rewrite app_String, !prefix_String. destruct (Ascii.eqb c d); [|done].
    apply IH. cbn in Hlen. lia.
Qed.

Lemma includes_unfold (s sub : string) :
  includes s sub
  = String.prefix sub s || match s with
                           | EmptyString => false
                           | String _ r => includes r sub
                           end.
Proof. by destruct s. Qed.

Lemma includes_app (p sub g : string) : includes (p +:+ sub +:+ g) sub = true.
Proof.
  induction p as [|c p IH]; rewrite includes_unfold.
  - by rewrite app_empty, prefix_app_self.
  - rewrite app_String, IH. apply orb_true_r.
Qed.

(** The leftmost occurrence of the prefix whose rest has no line terminator. *)
Lemma match_api_v1_first (p g : string) :
  includes (p +:+ "/api/v") "/api/v1" = false → dot_star_to_end g = true →
  match_api_v1 (p +:+ "/api/v1" +:+ g) = Some g.
Proof.
  intros Hp Hg. induction p as [|c p IH].
  - by apply match_here.
  - rewrite includes_unfold, app_String in Hp.
    apply orb_false_elim in Hp as [Hhere Hlater].
    rewrite app_String, match_api_v1_unfold.
    replace (String c (p +:+ "/api/v1" +:+ g))
      with (String c (p +:+ "/api/v") +:+ "1" +:+ g)
      by (by rewrite app_String, app_assoc_string).
    rewrite strip_prefix_None.
    + rewrite app_String. exact (IH Hlater).
    + rewrite prefix_app_long; [done|].
      cbn [String.length]. rewrite length_app_string. cbn. lia.
Qed.

Lemma match_api_v1_absent (u : string) :
  includes u "/api/v1" = false → match_api_v1 u = None.
Proof.
  intros Hu. pose proof (match_api_v1_spec_aux u) as Hspec.
  destruct (match_api_v1 u) as [g|]; [|done].
  destruct Hspec as (_ & p & -> & _). by rewrite includes_app in Hu.
Qed.

Lemma endsWith_slash (b : string) : endsWith (b +:+ "/") "/" = true.
Proof.
  unfold endsWith. rewrite length_app_string. cbn [String.length].
  replace (String.length b + 1 - 1)%nat with (String.length b) by lia.
  replace ((1 <=? String.length b + 1)%nat) with true by (symmetry; apply Nat.leb_le; lia).
  cbn [andb]. apply String.eqb_eq.
  induction b as [|c b IH]; [done|]. rewrite app_String. cbn. apply IH.
Qed.

Lemma substr_without_slash (b : string) :
  substr (b +:+ "/") 0 (String.length (b +:+ "/") - 1) = b.
Proof.
  unfold substr. rewrite length_app_string. cbn [String.length].
  replace (String.length b + 1 - 1)%nat with (String.length b) by lia.
  induction b as [|c b IH]; [done|]. rewrite app_String. cbn. by rewrite IH.
Qed.

Lemma rewrite_uri_unfold (baseUrl u : string) :
  ZammadDynamicCredentialsHelper.rewrite_uri baseUrl (VStr u)
  = (if endsWith baseUrl "/" then substr baseUrl 0 (String.length baseUrl - 1) else baseUrl)
    +:+ "/api/v1" +:+ default "" (match_api_v1 u).
Proof.
  unfold ZammadDynamicCredentialsHelper.rewrite_uri. do 2 f_equal.
  destruct u as [|c u]; [done|].
  change (truthy (VStr (String c u))) with true. cbv iota.
  destruct (match_api_v1 (String c u)) as [[|d g]|]; done.
Qed.

(** X17.  The URI the Zammad helper writes, for a descriptor URI in
    which [/api/v1] first occurs after [p] and is followed by [g] up to the
    end, without a line terminator: the base URL, less one final slash, then
    [/api/v1] and [g].  Whatever stood before the prefix is replaced. *)
Theorem rewrite_uri_replaces_base (b p g : string)
    (Hfirst : includes (p +:+ "/api/v") "/api/v1" = false)
    (Hline : dot_star_to_end g = true) :
  ZammadDynamicCredentialsHelper.rewrite_uri (b +:+ "/") (VStr (p +:+ "/api/v1" +:+ g))
  = b +:+ "/api/v1" +:+ g
  ∧ (endsWith b "/" = false →
     ZammadDynamicCredentialsHelper.rewrite_uri b (VStr (p +:+ "/api/v1" +:+ g))
     = b +:+ "/api/v1" +:+ g).
Proof.
  rewrite !rewrite_uri_unfold, match_api_v1_first by done. cbn [default].
  split.
  - by rewrite endsWith_slash, substr_without_slash.
  - by intros ->.
Qed.

Lemma rewrite_uri_replaces_base_witness :
  ZammadDynamicCredentialsHelper.rewrite_uri "https://new.example.com/"
    (VStr "https://old.example.com/api/v1/tickets/5")
  = "https://new.example.com/api/v1/tickets/5"
  ∧ ZammadDynamicCredentialsHelper.rewrite_uri "https://new.example.com"
      (VStr "https://old.example.com/api/v1/tickets/5")
    = "https://new.example.com/api/v1/tickets/5".
Proof.
  destruct (rewrite_uri_replaces_base "https://new.example.com" "https://old.example.com"
              "/tickets/5" eq_refl eq_refl) as [Hslash Hplain].
  split; [exact Hslash|exact (Hplain eq_refl)].
Defined.

(** X18.  A descriptor URI that does not contain [/api/v1] loses
    its path: the URI the Zammad helper writes is the base URL, less one final
    slash, followed by [/api/v1] and nothing else. *)
Theorem rewrite_uri_drops_other_paths (b u : string)
    (Habsent : includes u "/api/v1" = false) :
  ZammadDynamicCredentialsHelper.rewrite_uri (b +:+ "/") (VStr u) = b +:+ "/api/v1"
  ∧ (endsWith b "/" = false →
     ZammadDynamicCredentialsHelper.rewrite_uri b (VStr u) = b +:+ "/api/v1").
Proof.
  rewrite !rewrite_uri_unfold, match_api_v1_absent by done. cbn [default].
  rewrite !app_nil_string. split.
  - by rewrite endsWith_slash, substr_without_slash.
  - by intros ->.
Qed.

Lemma rewrite_uri_drops_other_paths_witness :
  ZammadDynamicCredentialsHelper.rewrite_uri "https://new.example.com/"
    (VStr "https://old.example.com/tickets/5")
  = "https://new.example.com/api/v1"
  ∧ ZammadDynamicCredentialsHelper.rewrite_uri "https://new.example.com"
      (VStr "https://old.example.com/tickets/5")
    = "https://new.example.com/api/v1".
Proof.
  destruct (rewrite_uri_drops_other_paths "https://new.example.com"
              "https://old.example.com/tickets/5" eq_refl) as [Hslash Hplain].
  split; [exact Hslash|exact (Hplain eq_refl)].
Defined.

(** ** The Zammad helper with credentials *)

Lemma alloc1_written (h : heap) (c c' : cell) : <[length h := c']> (h ++ [c]) = h ++ [c'].
Proof. rewrite insert_app_r_alt by lia. by rewrite Nat.sub_diag. Qed.

Lemma alloc2_flat (h : heap) (c1 c2 : cell) : (h ++ [c1]) ++ [c2] = h ++ [c1; c2].
Proof. by rewrite <- app_assoc. Qed.

Lemma alloc2_first (h : heap) (c1 c2 c1' : cell) :
  <[length h := c1']> (h ++ [c1; c2]) = h ++ [c1'; c2].
Proof. rewrite insert_app_r_alt by lia. by rewrite Nat.sub_diag. Qed.

Lemma alloc2_second (h : heap) (c1 c2 c2' : cell) :
  <[S (length h) := c2']> (h ++ [c1; c2]) = h ++ [c1; c2'].
Proof.
  rewrite insert_app_r_alt by lia.
  by replace (S (length h) - length h)%nat with 1%nat by lia.
Qed.

Ltac flat_heap :=
  repeat first
    [ rewrite Nat.add_1_r | rewrite alloc2_length | rewrite alloc1_written
    | rewrite alloc2_flat | rewrite alloc2_first | rewrite alloc2_second
    | rewrite length_insert ].

Section ZammadReads.

Variable execFunctions : IExecuteFunctions.
Variable itemIndex : Z.

Local Abbreviation zread name := (getNodeParameter execFunctions name itemIndex None).

Lemma zammad_resolves_basic (baseUrl allow username password : value) :
  zread "useZammadDynamicCredentials" = Ok (VBool true) →
  zread "authentication" = Ok (VStr "basicAuth") →
  getNodeParameter execFunctions "baseUrl" itemIndex (Some (VStr "")) = Ok baseUrl →
  getNodeParameter execFunctions "allowUnauthorizedCerts" itemIndex (Some (VBool false))
    = Ok allow →
  zread "username" = Ok username → zread "password" = Ok password →
  ZammadDynamicCredentialsHelper.getDynamicCredentials execFunctions itemIndex
  = Ok (<["password" := password]>
          (<["username" := username]>
             (<["allowUnauthorizedCerts" := allow]> (<["baseUrl" := baseUrl]> ∅)))).
Proof.
  intros Hflag Hauth Hbase Hallow Hu Hp.
  unfold ZammadDynamicCredentialsHelper.getDynamicCredentials.
  rewrite (zammad_enabled_true _ _ Hflag). cbn.
  unfold ZammadDynamicCredentialsHelper.getAuthenticationType.
  rewrite Hauth. cbn. rewrite Hbase. cbn. rewrite Hallow. cbn.
  change (strict_eq (VStr "basicAuth") (VStr "basicAuth")) with true. cbv iota.
  rewrite Hu. cbn. by rewrite Hp.
Qed.

Lemma zammad_resolves_token (authenticationType baseUrl allow accessToken : value) :
  zread "useZammadDynamicCredentials" = Ok (VBool true) →
  zread "authentication" = Ok authenticationType →
  authenticationType ≠ VStr "basicAuth" →
  getNodeParameter execFunctions "baseUrl" itemIndex (Some (VStr "")) = Ok baseUrl →
  getNodeParameter execFunctions "allowUnauthorizedCerts" itemIndex (Some (VBool false))
    = Ok allow →
  zread "accessToken" = Ok accessToken →
  ZammadDynamicCredentialsHelper.getDynamicCredentials execFunctions itemIndex
  = Ok (<["accessToken" := accessToken]>
          (<["allowUnauthorizedCerts" := allow]> (<["baseUrl" := baseUrl]> ∅))).
Proof.
  intros Hflag Hauth Hne Hbase Hallow Ht.
  unfold ZammadDynamicCredentialsHelper.getDynamicCredentials.
  rewrite (zammad_enabled_true _ _ Hflag). cbn.
  unfold ZammadDynamicCredentialsHelper.getAuthenticationType.
  rewrite Hauth. cbn. rewrite Hbase. cbn. rewrite Hallow. cbn.
  unfold strict_eq. rewrite bool_decide_eq_false_2 by done. by rewrite Ht.
Qed.

End ZammadReads.

Ltac zammad_start Hflag Hresolved Hauth Hdescriptor :=
  unfold ZammadDynamicCredentialsHelper.applyDynamicCredentials;
  rewrite (zammad_enabled_true _ _ Hflag), Hresolved;
  unfold ZammadDynamicCredentialsHelper.getAuthenticationType;
  rewrite Hauth, !run_lift_ok; cbn [negb];
  rewrite !run_lift_ok, run_own_props; cbn [own_props_of]; rewrite Hdescriptor;
  rewrite run_alloc.

(** X19.  Zammad basic authentication with a non-empty username
    and password: the helper returns a fresh copy of the descriptor with a
    fresh [auth] object that holds the pair; the URI is rewritten when the
    base URL is a non-empty string, [rejectUnauthorized] is the negation of
    the certificate switch, every other field is the input's, and the
    caller's heap is as it was. *)
Theorem zammad_applyDynamicCredentials_basicAuth
    (execFunctions : IExecuteFunctions) (itemIndex : Z) (h : heap)
    (descriptor : nat) (od : obj) (baseUrl allow username password : value)
    (Hflag : getNodeParameter execFunctions "useZammadDynamicCredentials" itemIndex None
             = Ok (VBool true))
    (Hauth : getNodeParameter execFunctions "authentication" itemIndex None
             = Ok (VStr "basicAuth"))
    (Hbase : getNodeParameter execFunctions "baseUrl" itemIndex (Some (VStr "")) = Ok baseUrl)
    (Hallow : getNodeParameter execFunctions "allowUnauthorizedCerts" itemIndex
                (Some (VBool false)) = Ok allow)
    (Husername : getNodeParameter execFunctions "username" itemIndex None = Ok username)
    (Hpassword : getNodeParameter execFunctions "password" itemIndex None = Ok password)
    (Hnonempty : truthy username && truthy password = true)
    (Hdescriptor : h !! descriptor = Some (CObj od)) :
  ∃ o : obj,
    ZammadDynamicCredentialsHelper.applyDynamicCredentials execFunctions (VRef descriptor)
      itemIndex h
    = (Ok (VRef (length h)),
       h ++ [CObj o; CObj (<["user" := username]> (<["pass" := password]> ∅))])
    ∧ o !! "auth" = Some (VRef (S (length h)))
    ∧ o !! "uri" = rewritten_uri baseUrl od
    ∧ o !! "rejectUnauthorized" = reject_unauthorized allow od
    ∧ ∀ k, k ≠ "auth" → k ≠ "uri" → k ≠ "rejectUnauthorized" → o !! k = od !! k.
Proof.
  pose proof (zammad_resolves_basic _ _ _ _ _ _ Hflag Hauth Hbase Hallow Husername Hpassword)
    as Hresolved.
  zammad_start Hflag Hresolved Hauth Hdescriptor.
  simpl_fields. rewrite Hnonempty. eval_strict_eq.
  unfold rewritten_uri, reject_unauthorized, strict_eq.
  assert (Hfinish : ∀ o1 : obj,
    o1 !! "uri" = rewritten_uri baseUrl od →
    (∀ k, k ≠ "uri" → o1 !! k = od !! k) →
    ∃ o : obj,
      ((auth ← alloc (CObj (<["user" := username]> (<["pass" := password]> ∅)));
        set_prop (VRef (length h)) "auth" auth);;
       (if negb (bool_decide (allow = VUndefined))
        then set_prop (VRef (length h)) "rejectUnauthorized" (VBool (negb (truthy allow)))
        else mret ());;
       mret (VRef (length h))) (h ++ [CObj o1])
      = (Ok (VRef (length h)),
         h ++ [CObj o; CObj (<["user" := username]> (<["pass" := password]> ∅))])
      ∧ o !! "auth" = Some (VRef (S (length h)))
      ∧ o !! "uri" = rewritten_uri baseUrl od
      ∧ o !! "rejectUnauthorized" = reject_unauthorized allow od
      ∧ ∀ k, k ≠ "auth" → k ≠ "uri" → k ≠ "rejectUnauthorized" → o !! k = od !! k).
  { intros o1 Huri Hother. unfold reject_unauthorized.
    case_bool_decide as Hallow'; cbn [negb]; run; flat_heap;
      (eexists; split; [reflexivity|]).
    - repeat split.
      + by rewrite lookup_insert_eq.
      + by rewrite lookup_insert_ne.
      + rewrite lookup_insert_ne by done. by apply Hother.
      + intros k ? ? ?. rewrite lookup_insert_ne by done. by apply Hother.
    - repeat split.
      + by rewrite lookup_insert_ne, lookup_insert_eq.
      + by rewrite !lookup_insert_ne.
      + by rewrite lookup_insert_eq.
      + intros k ? ? ?. rewrite !lookup_insert_ne by done. by apply Hother. }
  unfold rewritten_uri in Hfinish.
  destruct baseUrl as [| | | |b|]; try (rewrite run_ret; by apply Hfinish).
  destruct b as [|c b].
  - change (truthy (VStr "")) with false. cbv iota. rewrite run_ret. by apply Hfinish.
  - change (truthy (VStr (String c b))) with true. cbv iota.
    rewrite run_assoc. erewrite run_get_obj by apply lookup_alloc_new.
    erewrite run_set_obj by apply lookup_alloc_new. rewrite alloc1_written.
    apply Hfinish.
    + by rewrite lookup_insert_eq.
    + intros k Hk. by rewrite lookup_insert_ne.
Qed.

Lemma zammad_applyDynamicCredentials_basicAuth_witness :
  ∃ o : obj,
    ZammadDynamicCredentialsHelper.applyDynamicCredentials (store_exec zammad_basic_store)
      (VRef 0) 0 accepting_request
    = (Ok (VRef 2),
       accepting_request
       ++ [CObj o; CObj (<["user" := VStr "admin"]> (<["pass" := VStr "secret"]> ∅))])
    ∧ o !! "auth" = Some (VRef 3)
    ∧ o !! "uri" = Some (VStr "https://new.example.com/api/v1/tickets/5")
    ∧ o !! "rejectUnauthorized" = Some (VBool true)
    ∧ ∀ k, k ≠ "auth" → k ≠ "uri" → k ≠ "rejectUnauthorized" →
           o !! k = (<["uri" := VStr "https://old.example.com/api/v1/tickets/5"]>
                       (<["headers" := VRef 1]> ∅ : obj)) !! k.
Proof.
  exact (zammad_applyDynamicCredentials_basicAuth (store_exec zammad_basic_store) 0
           accepting_request 0
           (<["uri" := VStr "https://old.example.com/api/v1/tickets/5"]>
              (<["headers" := VRef 1]> ∅))
           (VStr "https://new.example.com/") (VBool false) (VStr "admin") (VStr "secret")
           eq_refl eq_refl eq_refl eq_refl eq_refl eq_refl eq_refl eq_refl).
Defined.

(** X20.  Zammad token authentication with a non-empty token that is a
    string (or another value of [plain_text]).  When the descriptor has a
    headers object, [Authorization: Token token=...] is written into that
    very object, which the caller and the returned copy then share; when it
    has none, the copy gets fresh headers that hold the header alone.  URI
    and [rejectUnauthorized] are set as for basic authentication. *)
Theorem zammad_applyDynamicCredentials_token
    (execFunctions : IExecuteFunctions) (itemIndex : Z) (h : heap)
    (descriptor : nat) (od : obj) (authenticationType baseUrl allow token : value)
    (Hflag : getNodeParameter execFunctions "useZammadDynamicCredentials" itemIndex None
             = Ok (VBool true))
    (Hauth : getNodeParameter execFunctions "authentication" itemIndex None
             = Ok authenticationType)
    (Hne : authenticationType ≠ VStr "basicAuth")
    (Hbase : getNodeParameter execFunctions "baseUrl" itemIndex (Some (VStr "")) = Ok baseUrl)
    (Hallow : getNodeParameter execFunctions "allowUnauthorizedCerts" itemIndex
                (Some (VBool false)) = Ok allow)
    (Htoken : getNodeParameter execFunctions "accessToken" itemIndex None = Ok token)
    (Hnonempty : truthy token = true)
    (Hplain : plain_text token = true)
    (Hdescriptor : h !! descriptor = Some (CObj od)) :
  let authorization := VStr ("Token token=" +:+ to_string token) in
  let run :=
    ZammadDynamicCredentialsHelper.applyDynamicCredentials execFunctions (VRef descriptor)
      itemIndex h in
  let rest (o : obj) :=
    o !! "uri" = rewritten_uri baseUrl od
    ∧ o !! "rejectUnauthorized" = reject_unauthorized allow od
    ∧ ∀ k, k ≠ "headers" → k ≠ "uri" → k ≠ "rejectUnauthorized" → o !! k = od !! k in
  (∀ (headers : nat) (oh : obj),
     od !! "headers" = Some (VRef headers) → h !! headers = Some (CObj oh) →
     ∃ o : obj,
       run = (Ok (VRef (length h)),
              <[headers := CObj (<["Authorization" := authorization]> oh)]> h ++ [CObj o])
       ∧ o !! "headers" = Some (VRef headers) ∧ rest o)
  ∧ (truthy (field od "headers") = false →
     ∃ o : obj,
       run = (Ok (VRef (length h)),
              h ++ [CObj o; CObj (<["Authorization" := authorization]> ∅)])
       ∧ o !! "headers" = Some (VRef (S (length h))) ∧ rest o).
Proof.
  cbv zeta.
  pose proof (zammad_resolves_token _ _ _ _ _ _ Hflag Hauth Hne Hbase Hallow Htoken)
    as Hresolved.
  assert (Hstart : ∀ P : result value * heap → Prop,
    (∀ o1 : obj,
       o1 !! "uri" = rewritten_uri baseUrl od →
       (∀ k, k ≠ "uri" → o1 !! k = od !! k) →
       P (((headers ← get_prop (VRef (length h)) "headers";
            headers' ← (if truthy headers then mret headers else alloc (CObj ∅));
            set_prop (VRef (length h)) "headers" headers';;
            headers ← get_prop (VRef (length h)) "headers";
            set_prop headers "Authorization" (VStr ("Token token=" +:+ to_string token)));;
           (if negb (bool_decide (allow = VUndefined))
            then set_prop (VRef (length h)) "rejectUnauthorized"
                   (VBool (negb (truthy allow)))
            else mret ());;
           mret (VRef (length h))) (h ++ [CObj o1]))) →
    P (ZammadDynamicCredentialsHelper.applyDynamicCredentials execFunctions
         (VRef descriptor) itemIndex h)).
  { intros P HP.
    zammad_start Hflag Hresolved Hauth Hdescriptor.
    simpl_fields. rewrite Hnonempty.
    unfold strict_eq. rewrite (bool_decide_eq_false_2 _ Hne).
    unfold rewritten_uri in HP.
    destruct baseUrl as [| | | |b|]; try (rewrite run_ret; by apply HP).
    destruct b as [|c b].
    - change (truthy (VStr "")) with false. cbv iota. rewrite run_ret. by apply HP.
    - change (truthy (VStr (String c b))) with true. cbv iota.
      rewrite run_assoc. erewrite run_get_obj by apply lookup_alloc_new.
      erewrite run_set_obj by apply lookup_alloc_new. rewrite alloc1_written.
      apply HP.
      + by rewrite lookup_insert_eq.
      + intros k Hk. by rewrite lookup_insert_ne. }
  split.
  - intros headers oh Hheaders Hcell.
    pose proof (lookup_lt_Some _ _ _ Hcell) as Hlt.
    apply Hstart. intros o1 Huri Hother.
    assert (Hfield : field o1 "headers" = VRef headers).
    { apply field_lookup. by rewrite Hother. }
    rewrite !run_assoc. erewrite run_get_obj by apply lookup_alloc_new.
    rewrite Hfield. cbn [truthy]. run.
    unfold reject_unauthorized.
    case_bool_decide as Hallow'; cbn [negb]; run.
    + rewrite alloc1_written, insert_app_l by done.
      eexists. split; [reflexivity|]. repeat split.
      * by rewrite lookup_insert_eq.
      * by rewrite lookup_insert_ne.
      * rewrite lookup_insert_ne by done. by apply Hother.
      * intros k ? ? ?. rewrite lookup_insert_ne by done. by apply Hother.
    + rewrite alloc1_written, insert_app_l by done.
      rewrite <- (length_insert h headers
                    (CObj (<["Authorization" := VStr ("Token token=" +:+ to_string token)]> oh))).
      rewrite alloc1_written.
      eexists. split; [reflexivity|]. repeat split.
      * by rewrite lookup_insert_ne, lookup_insert_eq.
      * by rewrite !lookup_insert_ne.
      * by rewrite lookup_insert_eq.
      * intros k ? ? ?. rewrite !lookup_insert_ne by done. by apply Hother.
  - intros Hfalsy.
    apply Hstart. intros o1 Huri Hother.
    assert (Hfield : field o1 "headers" = field od "headers").
    { unfold field. by rewrite Hother. }
    rewrite !run_assoc. erewrite run_get_obj by apply lookup_alloc_new.
    rewrite Hfield, Hfalsy. run.
    unfold reject_unauthorized.
    case_bool_decide as Hallow'; cbn [negb]; run; flat_heap;
      (eexists; split; [reflexivity|]); repeat split.
    + by rewrite lookup_insert_eq.
    + by rewrite lookup_insert_ne.
    + rewrite lookup_insert_ne by done. by apply Hother.
    + intros k ? ? ?. rewrite lookup_insert_ne by done. by apply Hother.
    + by rewrite lookup_insert_ne, lookup_insert_eq.
    + by rewrite !lookup_insert_ne.
    + by rewrite lookup_insert_eq.
    + intros k ? ? ?. rewrite !lookup_insert_ne by done. by apply Hother.
Qed.

Lemma zammad_applyDynamicCredentials_token_witness :
  (∃ o : obj,
     ZammadDynamicCredentialsHelper.applyDynamicCredentials (store_exec zammad_token_store)
       (VRef 0) 0 accepting_request
     = (Ok (VRef 2),
        [CObj (<["uri" := VStr "https://old.example.com/api/v1/tickets/5"]>
                 (<["headers" := VRef 1]> ∅));
         CObj (<["Authorization" := VStr "Token token=secret"]>
                 (<["Accept" := VStr "application/json"]> ∅));
         CObj o])
     ∧ o !! "headers" = Some (VRef 1)
     ∧ o !! "uri" = Some (VStr "https://new.example.com/api/v1/tickets/5")
     ∧ o !! "rejectUnauthorized" = Some (VBool true))
  ∧ (∃ o : obj,
       ZammadDynamicCredentialsHelper.applyDynamicCredentials (store_exec zammad_token_store)
         (VRef 0) 0 old_ticket
       = (Ok (VRef 1),
          old_ticket ++ [CObj o; CObj (<["Authorization" := VStr "Token token=secret"]> ∅)])
       ∧ o !! "headers" = Some (VRef 2)
       ∧ o !! "uri" = Some (VStr "https://new.example.com/api/v1/tickets/5")
       ∧ o !! "rejectUnauthorized" = Some (VBool true)).
Proof.
  split.
  - destruct (proj1 (zammad_applyDynamicCredentials_token (store_exec zammad_token_store) 0
                       accepting_request 0
                       (<["uri" := VStr "https://old.example.com/api/v1/tickets/5"]>
                          (<["headers" := VRef 1]> ∅))
                       (VStr "tokenAuth") (VStr "https://new.example.com/") (VBool false)
                       (VStr "secret") eq_refl eq_refl ltac:(discriminate) eq_refl eq_refl
                       eq_refl eq_refl eq_refl eq_refl)
                1%nat (<["Accept" := VStr "application/json"]> ∅) eq_refl eq_refl)
      as (o & Hrun & Hheaders & Huri & Hreject & _).
    exists o. split; [exact Hrun|]. split; [exact Hheaders|]. split; [exact Huri|exact Hreject].
  - destruct (proj2 (zammad_applyDynamicCredentials_token (store_exec zammad_token_store) 0
                       old_ticket 0
                       (<["uri" := VStr "https://old.example.com/api/v1/tickets/5"]> ∅)
                       (VStr "tokenAuth") (VStr "https://new.example.com/") (VBool false)
                       (VStr "secret") eq_refl eq_refl ltac:(discriminate) eq_refl eq_refl
                       eq_refl eq_refl eq_refl eq_refl)
                eq_refl)
      as (o & Hrun & Hheaders & Huri & Hreject & _).
    exists o. split; [exact Hrun|]. split; [exact Hheaders|]. split; [exact Huri|exact Hreject].
Defined.

(** ** The transforms never write to what they are given *)

Lemma extends_refl h : extends h h.
Proof. exists []. by rewrite app_nil_r. Qed.

Lemma extends_app h s ext : extends h s → extends h (s ++ ext).
Proof. intros [e ->]. exists (e ++ ext). by rewrite app_assoc. Qed.

Lemma extends_length h s : extends h s → (length h ≤ length s)%nat.
Proof. intros [e ->]. rewrite length_app. lia. Qed.

Lemma extends_insert h s l c : (length h ≤ l)%nat → extends h s → extends h (<[l := c]> s).
Proof.
  intros Hl [e ->]. exists (<[l - length h := c]> e)%nat.
  by rewrite insert_app_r_alt.
Qed.

Section OnlyAllocates.

Variable h : heap.

Lemma alloc_extends c :
  triple (extends h) (alloc c) (λ v s, extends h s ∧ fresh_for h v) (extends h).
Proof.
  intros s Hs. cbn. split; [by apply extends_app|].
  intros l [= <-]. by apply extends_length.
Qed.

Lemma set_prop_extends v k x : fresh_for h v → keeps (extends h) (set_prop v k x).
Proof.
  intros Hv s Hs. unfold set_prop. destruct v as [| | | | |l]; try done.
  destruct (s !! l) as [[o|a]|]; try done. cbn.
  apply extends_insert; [by apply Hv|done].
Qed.

Lemma get_prop_extends v k : keeps (extends h) (get_prop v k).
Proof.
  intros s Hs. unfold get_prop. destruct v as [| | | |t|l]; try done.
  - by destruct (String.eqb k "length").
  - destruct (s !! l) as [[o|a]|]; try done. by destruct (String.eqb k "length").
Qed.

Lemma own_props_extends v : keeps (extends h) (own_props v).
Proof. by intros s Hs. Qed.

Lemma iterate_extends v : keeps (extends h) (iterate v).
Proof.
  intros s Hs. unfold iterate. destruct v as [| | | |t|l]; try done.
  by destruct (s !! l) as [[o|a]|].
Qed.

Lemma parse_elements_extends js s : ∃ vs ext, parse_elements js s = (Ok vs, s ++ ext).
Proof.
  revert s. induction js as [|j js IH]; intros s.
  - by exists [], []; rewrite app_nil_r.
  - destruct (parse_extends j s) as (v & ext1 & E1).
    destruct (IH (s ++ ext1)) as (vs & ext2 & E2).
    exists (v :: vs), (ext1 ++ ext2).
    rewrite parse_elements_cons.
    rewrite (run_bind_ok _ _ _ _ _ E1), (run_bind_ok _ _ _ _ _ E2).
    by rewrite app_assoc.
Qed.

Lemma parse_members_extends kjs s : ∃ kvs ext, parse_members kjs s = (Ok kvs, s ++ ext).
Proof.
  revert s. induction kjs as [|kj kjs IH]; intros s.
  - by exists [], []; rewrite app_nil_r.
  - destruct (parse_extends kj.2 s) as (v & ext1 & E1).
    destruct (IH (s ++ ext1)) as (kvs & ext2 & E2).
    exists ((kj.1, v) :: kvs), (ext1 ++ ext2).
    rewrite parse_members_cons.
    rewrite (run_bind_ok _ _ _ _ _ E1), (run_bind_ok _ _ _ _ _ E2).
    by rewrite app_assoc.
Qed.

(** What [parse] returns is a primitive or a reference to a new cell. *)
Lemma parse_fresh j s : ∃ v ext, parse j s = (Ok v, s ++ ext) ∧ fresh_for s v.
Proof.
  destruct j as [|b|n|t|js|kjs].
  - exists VNull, []. by rewrite app_nil_r.
  - exists (VBool b), []. by rewrite app_nil_r.
  - exists (VNum n), []. by rewrite app_nil_r.
  - exists (VStr t), []. by rewrite app_nil_r.
  - destruct (parse_elements_extends js s) as (vs & ext & E).
    exists (VRef (length (s ++ ext))), (ext ++ [CArr vs]). split.
    + rewrite parse_JArr, (run_bind_ok _ _ _ _ _ E). unfold alloc. by rewrite app_assoc.
    + intros l [= <-]. rewrite length_app. lia.
  - destruct (parse_members_extends kjs s) as (kvs & ext & E).
    exists (VRef (length (s ++ ext))), (ext ++ [CObj (obj_of_members kvs)]). split.
    + rewrite parse_JObj, (run_bind_ok _ _ _ _ _ E). unfold alloc. by rewrite app_assoc.
    + intros l [= <-]. rewrite length_app. lia.
Qed.

Lemma parse_extends_fresh j :
  triple (extends h) (parse j) (λ v s, extends h s ∧ fresh_for h v) (extends h).
Proof.
  intros s Hs. destruct (parse_fresh j s) as (v & ext & -> & Hv).
  split; [by apply extends_app|].
  intros l Hl. specialize (Hv l Hl). apply extends_length in Hs. lia.
Qed.

Lemma JSON_clone_extends v :
  triple (extends h) (JSON_clone v) (λ v s, extends h s ∧ fresh_for h v) (extends h).
Proof.
  unfold JSON_clone. apply (triple_bind _ _ _ (λ _, extends h)).
  { intros s Hs. change (match JSON_stringify s v with
                                | Ok _ => extends h s
                                | Throw _ => extends h s
                                end).
    by destruct (JSON_stringify s v). }
  intros [j|]; [apply parse_extends_fresh|by intros s Hs].
Qed.

Lemma mapM_extends (f : value → St heap value) (l : list value) :
  (∀ v, keeps (extends h) (f v)) → keeps (extends h) (mapM_St f l).
Proof.
  intros Hf. induction l as [|v l IH]; cbn [mapM_St]; [apply keeps_ret|].
  apply keeps_bind; [apply Hf|intros ?].
  apply keeps_bind; [apply IH|intros ?]. apply keeps_ret.
Qed.

Lemma array_map_extends (f : value → St heap value) (v : value) :
  (∀ v, keeps (extends h) (f v)) →
  triple (extends h) (array_map f v) (λ v s, extends h s ∧ fresh_for h v) (extends h).
Proof.
  intros Hf s Hs. unfold array_map. destruct v as [| | | | |l]; try done.
  destruct (s !! l) as [[o|a]|]; try done.
  revert s Hs. change (triple (extends h) (vs ← mapM_St f a; alloc (CArr vs))
                         (λ v s, extends h s ∧ fresh_for h v) (extends h)).
  eapply triple_bind; [by apply mapM_extends|intros ?]. apply alloc_extends.
Qed.

End OnlyAllocates.

Ltac extends_step :=
  lazymatch goal with
  | |- keeps _ (mret _) => apply keeps_ret
  | |- keeps _ (lift _) => apply keeps_lift
  | |- keeps _ (if _ then _ else _) => apply keeps_if
  | |- keeps _ (_ ≫= _) => apply keeps_bind; [|intros ?]
  | |- keeps _ (get_prop _ _) => apply get_prop_extends
  | |- keeps _ (own_props _) => apply own_props_extends
  | |- keeps _ (iterate _) => apply iterate_extends
  | |- keeps _ (set_prop _ _ _) => apply set_prop_extends; assumption
  | |- keeps (extends ?h) (alloc ?c) =>
      eapply triple_weaken; [apply (alloc_extends h c)|done|by intros ? ? []|done]
  end.

(** X21.  Whatever description, property table and heap they are given,
    and whether they return or throw, the two transforms leave every cell
    that existed in place and unchanged: neither the caller's description nor
    the shared property table is written. *)
Theorem addDynamicCredentialsProperties_only_allocates
    (dynamicCredentialsProperties nodeDescription : value) (h : heap) :
  (∃ ext,
     (DynamicCredentialsProperties.addDynamicCredentialsProperties
        dynamicCredentialsProperties nodeDescription h).2 = h ++ ext)
  ∧ (∃ ext,
       (ZammadDynamicCredentialsProperties.addDynamicCredentialsToZammad
          dynamicCredentialsProperties nodeDescription h).2 = h ++ ext).
Proof.
  assert (Hgeneric : extends h
            (DynamicCredentialsProperties.addDynamicCredentialsProperties
               dynamicCredentialsProperties nodeDescription h).2); [|by split].
  apply keeps_final; [|apply extends_refl].
  unfold DynamicCredentialsProperties.addDynamicCredentialsProperties.
  eapply triple_bind; [apply JSON_clone_extends|intros newDescription].
  apply triple_pure. intros Hnew.
  change (keeps (extends h)
    (dynamic ← iterate dynamicCredentialsProperties;
     properties ← get_prop newDescription "properties";
     properties' ← (if truthy properties then mret properties else alloc (CArr []));
     existing ← iterate properties';
     merged ← alloc (CArr (dynamic ++ existing));
     set_prop newDescription "properties" merged;;
     credentials ← get_prop newDescription "credentials";
     (if truthy credentials then
        mapped ← array_map
          (λ credential,
             copied ← own_props credential;
             alloc (CObj (<["required" := VBool false]> copied)))
          credentials;
        set_prop newDescription "credentials" mapped
      else mret ());;
     mret newDescription)).
  do 7 (apply keeps_bind; [repeat extends_step|intros ?]).
  apply keeps_bind; [|intros ?; apply keeps_ret].
  apply keeps_if; [|apply keeps_ret].
  apply keeps_bind; [|intros ?; by apply set_prop_extends].
  eapply triple_weaken;
    [apply array_map_extends; intros ?; repeat extends_step|done|by intros ? ? []|done].
Qed.

Lemma mapM_result_only {A B} (f : A → result B) (l : list A) (c : error) :
  (∀ x e, f x = Throw e → e = c) → ∀ e, mapM_result f l = Throw e → e = c.
Proof.
  intros Hf. induction l as [|y l IH]; intros e; cbn [mapM_result]; [done|].
  destruct (f y) as [b|e'] eqn:Hy; cbn.
  - destruct (mapM_result f l) as [bs|e'']; cbn; [done|]. intros [= <-]. by apply IH.
  - intros [= <-]. by eapply Hf.
Qed.

Lemma mapM_result_throws {A B} (f : A → result B) (l : list A) (c : error) (x : A) :
  (∀ y e, f y = Throw e → e = c) → x ∈ l → f x = Throw c → mapM_result f l = Throw c.
Proof.
  intros Hf Hx Hthrow. induction l as [|y l IH]; [by apply elem_of_nil in Hx|].
  cbn [mapM_result]. destruct (f y) as [b|e] eqn:Hy; cbn.
  - apply elem_of_cons in Hx as [->|Hx]; [congruence|]. by rewrite (IH Hx).
  - by rewrite (Hf _ _ Hy).
Qed.

(** [JSON.stringify] fails in one way only. *)
Lemma stringify_only_circular fuel stack h v e :
  stringify fuel stack h v = Throw e → e = circular.
Proof.
  revert stack v e. induction fuel as [|fuel IH]; intros stack v e.
  - destruct v as [| | | | |l]; cbn; try done.
    case_bool_decide; by intros [= <-].
  - destruct v as [| | | | |l]; cbn [stringify]; try done.
    case_bool_decide; [by intros [= <-]|].
    destruct (h !! l) as [[o|a]|]; [| |done].
    + destruct (mapM_result _ (map_to_list o)) as [members|e'] eqn:Hm; cbn; [done|].
      intros [= <-]. eapply mapM_result_only; [|exact Hm].
      intros [k x] e''. cbn.
      destruct (stringify fuel (l :: stack) h x) as [j|e3] eqn:Hx; cbn; [done|].
      intros [= <-]. by eapply IH.
    + destruct (mapM_result _ a) as [elements|e'] eqn:Hm; cbn; [done|].
      intros [= <-]. eapply mapM_result_only; [|exact Hm].
      intros x e''. by apply IH.
Qed.

Lemma stringify_meets_again h stack l :
  meets_again h stack l → ∀ fuel, stringify fuel stack h (VRef l) = Throw circular.
Proof.
  induction 1 as [stack l Hin|stack l l' Hchild _ IH]; intros fuel.
  - destruct fuel; cbn [stringify]; by rewrite bool_decide_eq_true_2.
  - destruct fuel as [|fuel]; cbn [stringify]; case_bool_decide; try done.
    unfold child in Hchild.
    destruct (h !! l) as [[o|a]|]; [| |done].
    + destruct Hchild as [k Hk].
      erewrite (mapM_result_throws _ _ circular (k, VRef l')); [done| | |].
      * intros [k' x] e. cbn.
        destruct (stringify fuel (l :: stack) h x) as [j|e3] eqn:Hx; cbn; [done|].
        intros [= <-]. by eapply stringify_only_circular.
      * by apply elem_of_map_to_list.
      * cbn. by rewrite IH.
    + erewrite (mapM_result_throws _ _ circular (VRef l')); [done| |done|apply IH].
      intros x e. apply stringify_only_circular.
Qed.

(** ** Circular descriptions *)

Lemma bounded_NoDup_length (stack : list nat) (n : nat) :
  NoDup stack → (∀ x, x ∈ stack → (x < n)%nat) → (length stack ≤ n)%nat.
Proof.
  intros Hnodup Hbound.
  transitivity (length (seq 0 n)); [|by rewrite length_seq].
  apply submseteq_length.
  apply NoDup_submseteq; [done|].
  intros x Hx. apply elem_of_seq. specialize (Hbound x Hx). lia.
Qed.

Lemma mapM_result_ok {A B} (f : A → result B) (l : list A) :
  (∀ x, x ∈ l → ∃ y, f x = Ok y) → ∃ ys, mapM_result f l = Ok ys.
Proof.
  induction l as [|x l IH]; intros Hf; [by exists []|].
  destruct (Hf x) as [y Hy]; [by left|].
  destruct IH as [ys Hys]; [intros z Hz; apply Hf; by right|].
  exists (y :: ys). cbn [mapM_result]. by rewrite Hy, Hys.
Qed.

Lemma mapM_result_throw_inv {A B} (f : A → result B) (l : list A) e :
  mapM_result f l = Throw e → ∃ x, x ∈ l ∧ f x = Throw e.
Proof.
  induction l as [|y l IH]; cbn [mapM_result]; [done|].
  destruct (f y) as [b|e'] eqn:Hy; cbn.
  - destruct (mapM_result f l) as [bs|e'']; cbn; [done|]. intros [= <-].
    destruct IH as (x & Hx & Hfx); [done|]. exists x. split; [by right|done].
  - intros [= <-]. exists y. split; [by left|done].
Qed.

(** With the fuel [JSON_stringify] starts from, a failure always comes from
    a cell met for the second time. *)
Lemma stringify_throw_inv (h : heap) fuel stack l e :
  NoDup stack → (∀ x, x ∈ stack → (x < length h)%nat) →
  (length h < fuel + length stack)%nat →
  stringify fuel stack h (VRef l) = Throw e → meets_again h stack l.
Proof.
  revert stack l e. induction fuel as [|fuel IH]; intros stack l e Hnodup Hbound Hfuel.
  - pose proof (bounded_NoDup_length _ _ Hnodup Hbound). lia.
  - cbn [stringify]. case_bool_decide as Hin; [intros _; by apply meets_here|].
    destruct (h !! l) as [[o|a]|] eqn:Hcell; [| |done].
    + destruct (mapM_result _ (map_to_list o)) as [members|e'] eqn:Hm; cbn; [done|].
      intros _. apply mapM_result_throw_inv in Hm as ([k x] & Hx & Hthrow).
      cbn in Hthrow.
      destruct (stringify fuel (l :: stack) h x) as [j|e3] eqn:Hs; [done|].
      destruct x as [| | | | |l']; try (by destruct fuel).
      apply (meets_below h stack l l').
      * unfold child. rewrite Hcell. exists k. by apply elem_of_map_to_list in Hx.
      * eapply IH; [| | |exact Hs].
        -- by constructor.
        -- intros y [->|Hy]%elem_of_cons; [by eapply lookup_lt_Some|by apply Hbound].
        -- cbn. lia.
    + destruct (mapM_result _ a) as [elements|e'] eqn:Hm; cbn; [done|].
      intros _. apply mapM_result_throw_inv in Hm as (x & Hx & Hthrow).
      destruct x as [| | | | |l']; try (by destruct fuel).
      apply (meets_below h stack l l').
      * unfold child. by rewrite Hcell.
      * eapply IH; [| | |exact Hthrow].
        -- by constructor.
        -- intros y [->|Hy]%elem_of_cons; [by eapply lookup_lt_Some|by apply Hbound].
        -- cbn. lia.
Qed.

(** The clone the transform starts with fails exactly on circular
    descriptions, and then with the circular-structure error. *)
Lemma JSON_clone_fails_when_circular (h : heap) (nodeDescription : nat) :
  (JSON_clone (VRef nodeDescription) h = (Throw circular, h)
   ↔ meets_again h [] nodeDescription)
  ∧ (∀ e, (JSON_clone (VRef nodeDescription) h).1 = Throw e → e = circular).
Proof.
  assert (Hrun : JSON_clone (VRef nodeDescription) h
                 = match JSON_stringify h (VRef nodeDescription) with
                   | Ok (Some j) => parse j h
                   | Ok None =>
                       (Throw (new_Error "Unexpected token u in JSON at position 0"), h)
                   | Throw e => (Throw e, h)
                   end).
  { unfold JSON_clone, mbind, St_bind.
    by destruct (JSON_stringify h (VRef nodeDescription)) as [[j|]|e]. }
  assert (Hsome : ∀ r, JSON_stringify h (VRef nodeDescription) = Ok r → ∃ j, r = Some j).
  { unfold JSON_stringify. cbn [stringify]. case_bool_decide; [done|].
    destruct (h !! nodeDescription) as [[o|a]|].
    - destruct (mapM_result _ (map_to_list o)); cbn; [|done]. intros r [= <-]. eauto.
    - destruct (mapM_result _ a); cbn; [|done]. intros r [= <-]. eauto.
    - intros r [= <-]. eauto. }
  rewrite Hrun. split; [split|].
  - destruct (JSON_stringify h (VRef nodeDescription)) as [r|e] eqn:Hs.
    + destruct (Hsome r eq_refl) as [j ->].
      destruct (parse_extends j h) as (v & ext & ->). done.
    + intros _. unfold JSON_stringify in Hs.
      apply (stringify_throw_inv h (S (length h)) [] nodeDescription e);
        [apply NoDup_nil_2| |cbn [length]; lia|exact Hs].
      intros x Hx. by apply elem_of_nil in Hx.
  - intros Hcycle. unfold JSON_stringify. by rewrite stringify_meets_again.
  - intros e. destruct (JSON_stringify h (VRef nodeDescription)) as [r|e'] eqn:Hs.
    + destruct (Hsome r eq_refl) as [j ->].
      destruct (parse_extends j h) as (v & ext & ->). done.
    + cbn. intros [= <-]. by eapply stringify_only_circular.
Qed.

Section Grows.

(** The heap has at least [n] cells. *)
Variable n : nat.

Local Abbreviation at_least := (λ s : heap, (n ≤ length s)%nat).

Lemma alloc_grows c : keeps at_least (alloc c).
Proof. intros s Hs. cbn. rewrite length_app. lia. Qed.

Lemma set_prop_grows v k x : keeps at_least (set_prop v k x).
Proof.
  intros s Hs. unfold set_prop. destruct v as [| | | | |l]; try done.
  destruct (s !! l) as [[o|a]|]; try done. cbn. by rewrite length_insert.
Qed.

Lemma get_prop_grows v k : keeps at_least (get_prop v k).
Proof.
  intros s Hs. unfold get_prop. destruct v as [| | | |t|l]; try done.
  - by destruct (String.eqb k "length").
  - destruct (s !! l) as [[o|a]|]; try done. by destruct (String.eqb k "length").
Qed.

Lemma iterate_grows v : keeps at_least (iterate v).
Proof.
  intros s Hs. unfold iterate. destruct v as [| | | |t|l]; try done.
  by destruct (s !! l) as [[o|a]|].
Qed.

Lemma mapM_grows (f : value → St heap value) (l : list value) :
  (∀ v, keeps at_least (f v)) → keeps at_least (mapM_St f l).
Proof.
  intros Hf. induction l as [|v l IH]; cbn [mapM_St]; [apply keeps_ret|].
  apply keeps_bind; [apply Hf|intros ?].
  apply keeps_bind; [apply IH|intros ?]. apply keeps_ret.
Qed.

Lemma array_map_grows (f : value → St heap value) (v : value) :
  (∀ v, keeps at_least (f v)) → keeps at_least (array_map f v).
Proof.
  intros Hf s Hs. unfold array_map. destruct v as [| | | | |l]; try done.
  destruct (s !! l) as [[o|a]|]; try done.
  revert s Hs. change (keeps at_least (vs ← mapM_St f a; alloc (CArr vs))).
  apply keeps_bind; [by apply mapM_grows|intros ?]. apply alloc_grows.
Qed.

(** The transform after the clone. *)
Lemma merge_grows (dynamicCredentialsProperties newDescription : value) :
  keeps at_least
    (dynamic ← iterate dynamicCredentialsProperties;
     properties ← get_prop newDescription "properties";
     properties' ← (if truthy properties then mret properties else alloc (CArr []));
     existing ← iterate properties';
     merged ← alloc (CArr (dynamic ++ existing));
     set_prop newDescription "properties" merged;;
     credentials ← get_prop newDescription "credentials";
     (if truthy credentials then
        mapped ← array_map
          (λ credential,
             copied ← own_props credential;
             alloc (CObj (<["required" := VBool false]> copied)))
          credentials;
        set_prop newDescription "credentials" mapped
      else mret ());;
     mret newDescription).
Proof.
  repeat first
    [ apply alloc_grows | apply set_prop_grows | apply get_prop_grows | apply iterate_grows
    | apply keeps_ret
    | apply array_map_grows; intros ?
    | apply keeps_if
    | apply keeps_bind; [|intros ?]
    | by intros s Hs ].
Qed.

End Grows.

(** Parsing the text of an object or array allocates at least its root. *)
Lemma parse_root_allocates (j : json) (s : heap) :
  (∃ js, j = JArr js) ∨ (∃ kjs, j = JObj kjs) →
  ∃ v ext c, parse j s = (Ok v, (s ++ ext) ++ [c]).
Proof.
  intros [[js ->]|[kjs ->]].
  - destruct (parse_elements_extends js s) as (vs & ext & E).
    exists (VRef (length (s ++ ext))), ext, (CArr vs).
    by rewrite parse_JArr, (run_bind_ok _ _ _ _ _ E).
  - destruct (parse_members_extends kjs s) as (kvs & ext & E).
    exists (VRef (length (s ++ ext))), ext, (CObj (obj_of_members kvs)).
    by rewrite parse_JObj, (run_bind_ok _ _ _ _ _ E).
Qed.

(** A clone of a reference that succeeds has allocated. *)
Lemma JSON_clone_grows (h : heap) (l : nat) v h' :
  JSON_clone (VRef l) h = (Ok v, h') → (length h < length h')%nat.
Proof.
  assert (Hparse : ∀ j, (∃ js, j = JArr js) ∨ (∃ kjs, j = JObj kjs) →
            parse j h = (Ok v, h') → (length h < length h')%nat).
  { intros j Hj. destruct (parse_root_allocates j h Hj) as (v' & ext & c & ->).
    intros [= <- <-]. rewrite !length_app. cbn. lia. }
  unfold JSON_clone, mbind, St_bind, JSON_stringify. cbn [stringify].
  case_bool_decide; [done|].
  destruct (h !! l) as [[o|a]|].
  - destruct (mapM_result _ (map_to_list o)); [|done]. apply Hparse. right. eauto.
  - destruct (mapM_result _ a); [|done]. apply Hparse. left. eauto.
  - apply Hparse. right. eauto.
Qed.

(** X22.  The two transforms throw before they have allocated anything
    exactly on the descriptions that reach one of their own objects again.
    What they throw then is the error that [JSON.stringify] raised for the
    description, passed on as it is. *)
Theorem addDynamicCredentialsProperties_circular
    (dynamicCredentialsProperties : value) (h : heap) (nodeDescription : nat) :
  let passes_on (run : result value * heap) :=
    (meets_again h [] nodeDescription ↔ ∃ e, run = (Throw e, h))
    ∧ ∀ e, run = (Throw e, h) → JSON_stringify h (VRef nodeDescription) = Throw e in
  passes_on (DynamicCredentialsProperties.addDynamicCredentialsProperties
               dynamicCredentialsProperties (VRef nodeDescription) h)
  ∧ passes_on (ZammadDynamicCredentialsProperties.addDynamicCredentialsToZammad
                 dynamicCredentialsProperties (VRef nodeDescription) h).
Proof.
  cbv zeta.
  assert (Hstopped : ∀ e,
    DynamicCredentialsProperties.addDynamicCredentialsProperties
      dynamicCredentialsProperties (VRef nodeDescription) h = (Throw e, h) →
    JSON_stringify h (VRef nodeDescription) = Throw e).
  { intros e Hrun.
    destruct (JSON_clone (VRef nodeDescription) h) as [[v|e'] h'] eqn:Hclone.
    - exfalso. pose proof (JSON_clone_grows _ _ _ _ Hclone) as Hgrown.
      pose proof (merge_grows (length h') dynamicCredentialsProperties v h'
                    ltac:(cbv beta; lia)) as Hrest.
      unfold DynamicCredentialsProperties.addDynamicCredentialsProperties in Hrun.
      rewrite (run_bind_ok _ _ _ _ _ Hclone) in Hrun.
      rewrite Hrun in Hrest. cbv beta in Hrest. lia.
    - unfold DynamicCredentialsProperties.addDynamicCredentialsProperties in Hrun.
      rewrite (run_bind_throw _ _ _ _ _ Hclone) in Hrun. injection Hrun as -> ->.
      unfold JSON_clone, mbind, St_bind in Hclone.
      destruct (JSON_stringify h (VRef nodeDescription)) as [[j|]|e'] eqn:Htext.
      + by destruct (parse_extends j h) as (v & ext & Hparse); rewrite Hparse in Hclone.
      + exfalso. unfold JSON_stringify in Htext. cbn [stringify] in Htext.
        case_bool_decide; [done|].
        destruct (h !! nodeDescription) as [[o|a]|]; [| |done].
        * by destruct (mapM_result _ (map_to_list o)).
        * by destruct (mapM_result _ a).
      + by injection Hclone as ->. }
  assert (Hgeneric :
    (meets_again h [] nodeDescription
     ↔ ∃ e, DynamicCredentialsProperties.addDynamicCredentialsProperties
              dynamicCredentialsProperties (VRef nodeDescription) h = (Throw e, h))
    ∧ ∀ e, DynamicCredentialsProperties.addDynamicCredentialsProperties
             dynamicCredentialsProperties (VRef nodeDescription) h = (Throw e, h) →
           JSON_stringify h (VRef nodeDescription) = Throw e); [|by split].
  split; [|exact Hstopped]. split.
  - intros Hcycle. exists circular.
    unfold DynamicCredentialsProperties.addDynamicCredentialsProperties.
    apply run_bind_throw. by apply (JSON_clone_fails_when_circular h nodeDescription).
  - intros [e Hrun]. apply (JSON_clone_fails_when_circular h nodeDescription).
    pose proof (Hstopped e Hrun) as Htext.
    pose proof (stringify_only_circular _ _ _ _ _ Htext) as ->.
    unfold JSON_clone, mbind, St_bind. by rewrite Htext.
Qed.

(** ** The requests of the Outlook transport *)

Section Events.

Context {H : Type}.
Variable this : MicrosoftOutlook.Context H.
Variable before : list MicrosoftOutlook.event.

Implicit Types (J : list MicrosoftOutlook.event → Prop).

Lemma on_heap_events {A} J (m : St heap A) : keeps (@on_events H J) (MicrosoftOutlook.on_heap m).
Proof.
  intros [h s evs] HJ. unfold MicrosoftOutlook.on_heap, on_events in *. cbn in *.
  by destruct (m h) as [[a|e] h'].
Qed.

Lemma or_default_events J v (d : St heap value) :
  keeps (@on_events H J) (MicrosoftOutlook.or_default v d).
Proof.
  unfold MicrosoftOutlook.or_default. apply keeps_if; [apply on_heap_events|apply keeps_ret].
Qed.

Lemma host_call_events J J' ev f :
  (∀ evs h, J evs → J' (evs ++ [ev h])) →
  triple (@on_events H J) (MicrosoftOutlook.host_call ev f)
    (λ _, on_events J') (@on_events H J').
Proof.
  intros Hstep [h s evs] HJ. unfold MicrosoftOutlook.host_call, on_events in *. cbn in *.
  destruct (f h s) as [[j|e] s']; [|by apply Hstep].
  unfold MicrosoftOutlook.on_heap. cbn.
  destruct (parse j h) as [[v|e] h']; by apply Hstep.
Qed.

Lemma getCredentials_looked_up n :
  triple (looked_up before n []) (MicrosoftOutlook.getCredentials this "microsoftOutlookOAuth2Api")
    (λ _, looked_up before (S n) []) (looked_up before (S n) []).
Proof.
  apply (host_call_events (lookups_then before n []) (lookups_then before (S n) [])).
  intros evs _ (lookups & -> & Hall & Hlen).
  exists (lookups ++ [MicrosoftOutlook.EvGetCredentials "microsoftOutlookOAuth2Api"]).
  rewrite !app_nil_r, app_assoc. split; [done|]. split.
  - apply Forall_app. split; [done|]. by constructor.
  - rewrite length_app. cbn. lia.
Qed.

Lemma looked_up_mono n m requests (w : MicrosoftOutlook.world H) :
  (n ≤ m)%nat → looked_up before n requests w → looked_up before m requests w.
Proof. intros Hnm (lookups & ? & ? & ?). exists lookups. repeat split; [done..|lia]. Qed.

Ltac events_step :=
  lazymatch goal with
  | |- keeps _ (mret _) => apply keeps_ret
  | |- keeps _ (lift _) => apply keeps_lift
  | |- keeps _ (if _ then _ else _) => apply keeps_if
  | |- keeps _ (_ ≫= _) => apply keeps_bind; [|intros ?]
  | |- keeps _ (MicrosoftOutlook.on_heap _) => apply on_heap_events
  | |- keeps _ (MicrosoftOutlook.or_default _ _) => apply or_default_events
  end.

Lemma input_credentials_looked_up n itemIndex :
  keeps (looked_up before n []) (MicrosoftOutlook.input_credentials this itemIndex).
Proof.
  unfold MicrosoftOutlook.input_credentials.
  change (looked_up before n []) with (@on_events H (lookups_then before n [])).
  repeat events_step.
Qed.

Lemma looked_up_weaken {A} (m : St (MicrosoftOutlook.world H) A) n k k' :
  triple (looked_up before n []) m (λ _, looked_up before k []) (looked_up before k []) →
  (k ≤ k')%nat →
  triple (looked_up before n []) m (λ _, looked_up before k' []) (looked_up before k' []).
Proof.
  intros Hm Hk. eapply triple_weaken; [exact Hm|done| |].
  - intros ? w. by apply looked_up_mono.
  - intros w. by apply looked_up_mono.
Qed.

Lemma resolve_credentials_looked_up itemIndex :
  triple (looked_up before 0 []) (MicrosoftOutlook.resolve_credentials this itemIndex)
    (λ _, looked_up before 2 []) (looked_up before 2 []).
Proof.
  unfold MicrosoftOutlook.resolve_credentials.
  assert (Hone : triple (looked_up before 0 [])
                   (MicrosoftOutlook.getCredentials this "microsoftOutlookOAuth2Api")
                   (λ _, looked_up before 1 []) (looked_up before 1 [])).
  { apply (getCredentials_looked_up 0). }
  destruct (MicrosoftOutlook.has_parameters_and_input this);
    [|apply (looked_up_weaken _ 0 1 2); [exact Hone|lia]].
  apply (triple_try_catch _ _ _ _ (looked_up before 1 [])).
  - apply (triple_bind _ _ _ (λ _, looked_up before 0 [])).
    { apply triple_lift; [done|]. intros w. apply looked_up_mono. lia. }
    intros credentialsSource.
    apply (triple_weaken _ (looked_up before 0 []) _ _ (λ _, looked_up before 1 []) _
             (looked_up before 1 []));
      [|done|intros ? w; apply looked_up_mono; lia|done].
    destruct (strict_eq credentialsSource (VStr "dynamic")); [|exact Hone].
    apply (looked_up_weaken _ 0 0 1); [apply input_credentials_looked_up|lia].
  - intros _. apply (getCredentials_looked_up 1).
Qed.

Lemma looked_up_requested dynamic (w : MicrosoftOutlook.world H) :
  looked_up before 2 [] w → requested before dynamic w.
Proof. intros Hw. exists []. split; [done|]. split; [cbn; lia|constructor]. Qed.

Lemma request_requested dynamic ev (f : heap → H → result json * H) :
  (∀ h, is_authenticated_request (ev h) ∨ (is_plain_request (ev h) ∧ dynamic)) →
  triple (looked_up before 2 []) (MicrosoftOutlook.host_call ev f)
    (λ _, requested before dynamic) (requested before dynamic).
Proof.
  intros Hev.
  apply (host_call_events (lookups_then before 2 []) (requests_then before dynamic)).
  intros evs h (lookups & -> & Hall & Hlen).
  exists [ev h]. split; [|split; [cbn; lia|by constructor]].
  exists lookups. by rewrite !app_nil_r, app_assoc.
Qed.

Lemma microsoftApiRequest_requested method resource body qs uri headers option itemIndex :
  triple (looked_up before 0 [])
    (MicrosoftOutlook.microsoftApiRequest this method resource body qs uri headers option
       itemIndex)
    (λ _, requested before
            (MicrosoftOutlook.this_getNodeParameter this "credentialsSource" itemIndex
               (Some (VStr "static")) = Ok (VStr "dynamic")))
    (requested before
       (MicrosoftOutlook.this_getNodeParameter this "credentialsSource" itemIndex
          (Some (VStr "static")) = Ok (VStr "dynamic"))).
Proof.
  set (dynamic := MicrosoftOutlook.this_getNodeParameter this "credentialsSource" itemIndex
                    (Some (VStr "static")) = Ok (VStr "dynamic")).
  unfold MicrosoftOutlook.microsoftApiRequest.
  assert (Hkeep0 : ∀ A (m : St heap A),
            triple (@looked_up H before 0 []) (MicrosoftOutlook.on_heap m)
              (λ _, looked_up before 0 []) (requested before dynamic)).
  { intros A m. eapply triple_weaken;
      [apply (on_heap_events (lookups_then before 0 []))|done|done|].
    intros w Hw. apply looked_up_requested. eapply looked_up_mono; [|exact Hw]. lia. }
  assert (Hdefault0 : ∀ v d,
            triple (@looked_up H before 0 []) (MicrosoftOutlook.or_default v d)
              (λ _, looked_up before 0 []) (requested before dynamic)).
  { intros v d. unfold MicrosoftOutlook.or_default.
    destruct (strict_eq v VUndefined); [apply Hkeep0|by apply triple_ret]. }
  assert (Hkeep2 : ∀ A (m : St heap A),
            triple (@looked_up H before 2 []) (MicrosoftOutlook.on_heap m)
              (λ _, looked_up before 2 []) (requested before dynamic)).
  { intros A m. eapply triple_weaken;
      [apply (on_heap_events (lookups_then before 2 []))|done|done|].
    intros w Hw. by apply looked_up_requested. }
  do 4 (eapply triple_bind; [apply Hdefault0|intros ?]).
  eapply triple_bind.
  { eapply triple_weaken; [apply resolve_credentials_looked_up|done|done|].
    intros w. apply looked_up_requested. }
  intros credentials.
  eapply triple_bind; [apply Hkeep2|intros useShared].
  apply (triple_bind _ _ _ (λ _, looked_up before 2 [])).
  { destruct (truthy useShared); [apply Hkeep2|by apply triple_ret]. }
  intros userPrincipalName.
  do 2 (eapply triple_bind; [apply Hkeep2|intros ?]).
  apply (triple_try_catch _ _ _ _ (requested before dynamic)).
  2: { intros caught.
       apply (triple_bind _ _ _ (λ _, requested before dynamic));
         [by apply triple_lift|intros ?].
       by apply triple_lift. }
  eapply triple_bind; [apply Hkeep2|intros ?].
  eapply triple_bind; [apply Hkeep2|intros n].
  apply (triple_bind _ _ _ (λ _, looked_up before 2 [])).
  { destruct (negb (n =? 0)%nat); [|by apply triple_ret].
    do 4 (eapply triple_bind; [apply Hkeep2|intros ?]). apply Hkeep2. }
  intros ?.
  eapply triple_bind; [apply Hkeep2|intros m].
  apply (triple_bind _ _ _ (λ _, looked_up before 2 [])).
  { destruct (m =? 0)%nat; [apply Hkeep2|by apply triple_ret]. }
  intros ?.
  apply (triple_bind _ _ _ (λ (b : bool) w, looked_up before 2 [] w ∧ (b = true → dynamic))).
  { destruct (truthy credentials && MicrosoftOutlook.has_parameters_and_input this).
    - intros w Hw. unfold mbind, St_bind, lift.
      destruct (MicrosoftOutlook.this_getNodeParameter this "credentialsSource" itemIndex
                  (Some (VStr "static"))) as [source|e] eqn:Hsource; cbn.
      + split; [done|]. intros Heq. apply bool_decide_eq_true_1 in Heq.
        unfold dynamic. by rewrite Heq.
      + by apply looked_up_requested.
    - apply triple_ret. intros w Hw. by split. }
  intros [|].
  - apply triple_pure. intros Hdynamic. specialize (Hdynamic eq_refl).
    do 5 (eapply triple_bind; [apply Hkeep2|intros ?]).
    apply request_requested. intros h. right. split; [|done]. by eexists _, _.
  - apply triple_pure. intros _.
    apply request_requested. intros h. left. by eexists _, _.
Qed.

End Events.

(** X23.  One call of [microsoftApiRequest] looks the stored
    credentials up at most twice and then sends at most one request.  The
    request goes through [helpers.request], which adds no authentication of
    its own, only when the [credentialsSource] parameter reads ['dynamic'];
    otherwise it goes through [helpers.requestWithAuthentication] with the
    stored Outlook credentials. *)
Theorem microsoftApiRequest_requests {H : Type} (this : MicrosoftOutlook.Context H)
    (method resource body qs uri headers option : value) (itemIndex : Z)
    (w : MicrosoftOutlook.world H) :
  let after :=
    (MicrosoftOutlook.microsoftApiRequest this method resource body qs uri headers option
       itemIndex w).2 in
  let dynamic :=
    MicrosoftOutlook.this_getNodeParameter this "credentialsSource" itemIndex
      (Some (VStr "static")) = Ok (VStr "dynamic") in
  ∃ lookups requests,
    MicrosoftOutlook.w_events after = MicrosoftOutlook.w_events w ++ lookups ++ requests
    ∧ Forall is_lookup lookups ∧ (length lookups ≤ 2)%nat
    ∧ (length requests ≤ 1)%nat
    ∧ Forall (λ ev, is_authenticated_request ev ∨ (is_plain_request ev ∧ dynamic)) requests.
Proof.
  cbv zeta.
  pose proof (microsoftApiRequest_requested this (MicrosoftOutlook.w_events w) method
                resource body qs uri headers option itemIndex w) as Hrun.
  destruct (MicrosoftOutlook.microsoftApiRequest this method resource body qs uri headers
              option itemIndex w) as [[r|e] w'];
    (destruct Hrun as (requests & (lookups & ? & ? & ?) & ? & ?);
     [exists []; by rewrite app_nil_r|by exists lookups, requests]).
Qed.

Section IsObj.

Variable l : nat.

Lemma is_obj_insert h l' o : is_obj l h → is_obj l (<[l' := CObj o]> h).
Proof.
  intros [o' Ho']. destruct (decide (l' = l)) as [->|Hne].
  - exists o. apply list_lookup_insert_eq. by eapply lookup_lt_Some.
  - exists o'. by rewrite list_lookup_insert_ne.
Qed.

Lemma is_obj_alloc h c : is_obj l h → is_obj l (alloc c h).2.
Proof. intros [o Ho]. exists o. by apply lookup_extend. Qed.

Lemma is_obj_get v k h : is_obj l h → is_obj l (get_prop v k h).2.
Proof.
  intros Hl. unfold get_prop. destruct v as [| | | |t|l']; try done.
  - by destruct (String.eqb k "length").
  - destruct (h !! l') as [[o|a]|]; try done. by destruct (String.eqb k "length").
Qed.

Lemma is_obj_set v k x h : is_obj l h → is_obj l (set_prop v k x h).2.
Proof.
  intros Hl. unfold set_prop. destruct v as [| | | | |l']; try done.
  destruct (h !! l') as [[o|a]|]; try done. by apply is_obj_insert.
Qed.

Lemma is_obj_delete v k h : is_obj l h → is_obj l (delete_prop v k h).2.
Proof.
  intros Hl. unfold delete_prop. destruct v as [| | | | |l']; try done.
  destruct (h !! l') as [[o|a]|]; try done. by apply is_obj_insert.
Qed.

Lemma is_obj_assign target source h :
  is_obj l h → is_obj l (MicrosoftOutlook.Object_assign target source h).2.
Proof.
  intros Hl. unfold MicrosoftOutlook.Object_assign. destruct target as [| | | | |l']; try done.
  destruct (h !! l') as [[o|a]|]; try done. by apply is_obj_insert.
Qed.

Lemma is_obj_keys_length v h : is_obj l h → is_obj l (MicrosoftOutlook.keys_length v h).2.
Proof. intros Hl. by destruct v. Qed.

Lemma is_obj_parse j h : is_obj l h → is_obj l (parse j h).2.
Proof.
  intros [o Ho]. destruct (parse_extends j h) as (v & ext & ->).
  exists o. by apply lookup_extend.
Qed.

End IsObj.

Section Bearer.

Context {H : Type}.
Variable this : MicrosoftOutlook.Context H.
Variable before : list MicrosoftOutlook.event.

Local Abbreviation bearer_sent := (@bearer_since H before).
Local Abbreviation bearer_sent_obj := (@bearer_since_obj H before).

Lemma on_heap_bearer_obj {A} l (m : St heap A) :
  (∀ h, is_obj l h → is_obj l (m h).2) →
  keeps (bearer_sent_obj l) (MicrosoftOutlook.on_heap m).
Proof.
  intros Hm [h s evs] [Hsent Hobj]. unfold MicrosoftOutlook.on_heap. cbn in *.
  specialize (Hm h Hobj). destruct (m h) as [[a|e] h']; by split.
Qed.

Lemma host_call_bearer ev (f : heap → H → result json * H) :
  (∀ h, carries_bearer (ev h)) →
  keeps bearer_sent (MicrosoftOutlook.host_call ev f).
Proof.
  intros Hev.
  apply (host_call_events (sent_since carries_bearer before)
           (sent_since carries_bearer before)).
  intros evs h (sent & -> & Hall). exists (sent ++ [ev h]).
  split; [by rewrite app_assoc|]. apply Forall_app. split; [done|]. by constructor.
Qed.

Lemma alloc_bearer_obj o :
  triple bearer_sent (MicrosoftOutlook.on_heap (alloc (CObj o)))
    (λ v w, ∃ l, v = VRef l ∧ bearer_sent_obj l w) bearer_sent.
Proof.
  intros [h s evs] Hsent. cbn in *. exists (length h).
  split; [done|]. split; [done|]. exists o. cbn. apply lookup_alloc_new.
Qed.

(** The last steps of the dynamic branch: the headers with the token are
    allocated, written into the options, and the request leaves. *)
Lemma bearer_request l (copied : obj) (token : string) :
  triple (bearer_sent_obj l)
    (withAuth ← MicrosoftOutlook.on_heap
       (alloc (CObj (<["Authorization" := VStr ("Bearer " +:+ token)]> copied)));
     MicrosoftOutlook.on_heap (set_prop (VRef l) "headers" withAuth);;
     MicrosoftOutlook.helpers_request this (VRef l))
    (λ _, bearer_sent) bearer_sent.
Proof.
  intros [h s evs] [(sent & Hevs & Hall) [o Ho]]. cbn in Hevs, Ho. subst evs.
  pose proof (lookup_lt_Some _ _ _ Ho) as Hlt.
  unfold mbind, St_bind, MicrosoftOutlook.on_heap, MicrosoftOutlook.helpers_request,
    MicrosoftOutlook.host_call, alloc, set_prop.
  cbn. rewrite (lookup_extend _ _ _ _ Ho). cbn.
  set (c := CObj (<["Authorization" := VStr ("Bearer " +:+ token)]> copied)).
  set (h' := <[l := CObj (<["headers" := VRef (length h)]> o)]> (h ++ [c])).
  assert (Hgood : carries_bearer (MicrosoftOutlook.EvRequest (VRef l) h')).
  { exists l, (<["headers" := VRef (length h)]> o), (length h),
      (<["Authorization" := VStr ("Bearer " +:+ token)]> copied), token.
    split; [done|]. split.
    { apply list_lookup_insert_eq. rewrite length_app. cbn. lia. }
    split; [apply lookup_insert_eq|]. split; [|apply lookup_insert_eq].
    unfold h'. rewrite list_lookup_insert_ne by lia. apply lookup_alloc_new. }
  assert (Hsent : sent_since carries_bearer before
                    ((before ++ sent) ++ [MicrosoftOutlook.EvRequest (VRef l) h'])).
  { exists (sent ++ [MicrosoftOutlook.EvRequest (VRef l) h']).
    split; [by rewrite app_assoc|]. apply Forall_app. split; [done|]. by constructor. }
  destruct (MicrosoftOutlook.ctx_request this (VRef l) h' s) as [[j|e] s']; [|exact Hsent].
  unfold MicrosoftOutlook.on_heap. cbn.
  by destruct (parse j h') as [[v|e] h''].
Qed.

Ltac obj_step :=
  lazymatch goal with
  | |- keeps _ (mret _) => apply keeps_ret
  | |- keeps _ (lift _) => apply keeps_lift
  | |- keeps _ (if _ then _ else _) => apply keeps_if
  | |- keeps _ (_ ≫= _) => apply keeps_bind; [|intros ?]
  | |- keeps _ (MicrosoftOutlook.on_heap (get_prop _ _)) =>
      apply on_heap_bearer_obj; intros ?; apply is_obj_get
  | |- keeps _ (MicrosoftOutlook.on_heap (own_props _)) =>
      apply on_heap_bearer_obj; by intros ?
  | |- keeps _ (MicrosoftOutlook.on_heap (MicrosoftOutlook.keys_length _)) =>
      apply on_heap_bearer_obj; intros ?; apply is_obj_keys_length
  | |- keeps _ (MicrosoftOutlook.on_heap (alloc _)) =>
      apply on_heap_bearer_obj; intros ?; apply is_obj_alloc
  | |- keeps _ (MicrosoftOutlook.on_heap (set_prop _ _ _)) =>
      apply on_heap_bearer_obj; intros ?; apply is_obj_set
  | |- keeps _ (MicrosoftOutlook.on_heap (delete_prop _ _)) =>
      apply on_heap_bearer_obj; intros ?; apply is_obj_delete
  | |- keeps _ (MicrosoftOutlook.on_heap (MicrosoftOutlook.Object_assign _ _)) =>
      apply on_heap_bearer_obj; intros ?; apply is_obj_assign
  end.

Ltac sent_step :=
  lazymatch goal with
  | |- keeps _ (mret _) => apply keeps_ret
  | |- keeps _ (lift _) => apply keeps_lift
  | |- keeps _ (if _ then _ else _) => apply keeps_if
  | |- keeps _ (st_try_catch _ _) => apply keeps_try_catch; [|intros ?]
  | |- keeps _ (_ ≫= _) => apply keeps_bind; [|intros ?]
  | |- keeps _ (MicrosoftOutlook.on_heap _) =>
      apply (on_heap_events (sent_since carries_bearer before))
  | |- keeps _ (MicrosoftOutlook.or_default _ _) =>
      apply (or_default_events (sent_since carries_bearer before))
  | |- keeps _ (MicrosoftOutlook.getCredentials _ _) => by apply host_call_bearer
  end.

Lemma microsoftApiRequest_bearer_sent method resource body qs uri headers option itemIndex :
  keeps bearer_sent
    (MicrosoftOutlook.microsoftApiRequest this method resource body qs uri headers option
       itemIndex).
Proof.
  unfold MicrosoftOutlook.microsoftApiRequest.
  apply keeps_bind; [sent_step|intros body'].
  apply keeps_bind; [sent_step|intros qs'].
  apply keeps_bind; [sent_step|intros headers'].
  apply keeps_bind; [sent_step|intros option'].
  apply keeps_bind.
  { unfold MicrosoftOutlook.resolve_credentials, MicrosoftOutlook.input_credentials.
    repeat sent_step. }
  intros credentials.
  do 3 (apply keeps_bind; [repeat sent_step|intros ?]).
  eapply triple_bind; [apply alloc_bearer_obj|intros options].
  apply (triple_weaken _ (λ w, ∃ l, options = VRef l ∧ bearer_sent_obj l w) _ _
           (λ _, bearer_sent) _ bearer_sent); [|done..].
  intros w (l & -> & Hw). revert w Hw.
  change (triple (bearer_sent_obj l)
    (st_try_catch
       (MicrosoftOutlook.on_heap (MicrosoftOutlook.Object_assign (VRef l) option');;
        n ← MicrosoftOutlook.on_heap (MicrosoftOutlook.keys_length headers');
        (if negb (n =? 0)%nat then
           merged ← MicrosoftOutlook.on_heap (alloc (CObj ∅));
           current ← MicrosoftOutlook.on_heap (get_prop (VRef l) "headers");
           MicrosoftOutlook.on_heap (MicrosoftOutlook.Object_assign merged current);;
           MicrosoftOutlook.on_heap (MicrosoftOutlook.Object_assign merged headers');;
           MicrosoftOutlook.on_heap (set_prop (VRef l) "headers" merged)
         else mret ());;
        m ← MicrosoftOutlook.on_heap (MicrosoftOutlook.keys_length body');
        (if (m =? 0)%nat then MicrosoftOutlook.on_heap (delete_prop (VRef l) "body")
         else mret ());;
        dynamic ←
          ((if truthy credentials && MicrosoftOutlook.has_parameters_and_input this then
              credentialsSource ←
                lift (MicrosoftOutlook.this_getNodeParameter this "credentialsSource"
                        itemIndex (Some (VStr "static")));
              mret (strict_eq credentialsSource (VStr "dynamic"))
            else mret false) : St (MicrosoftOutlook.world H) bool);
        (if dynamic : bool then
          current ← MicrosoftOutlook.on_heap (get_prop (VRef l) "headers");
          copied ← MicrosoftOutlook.on_heap (own_props current);
          token ← MicrosoftOutlook.on_heap (get_prop credentials "access_token");
          withAuth ← MicrosoftOutlook.on_heap (alloc (CObj
            (<["Authorization" := VStr ("Bearer " +:+ to_string token)]> copied)));
          MicrosoftOutlook.on_heap (set_prop (VRef l) "headers" withAuth);;
          MicrosoftOutlook.helpers_request this (VRef l)
        else
          MicrosoftOutlook.helpers_requestWithAuthentication this
            "microsoftOutlookOAuth2Api" (VRef l))
         : St (MicrosoftOutlook.world H) value)
       (λ caught, thrown ← lift (MicrosoftOutlook.api_error this caught);
                  lift (Throw thrown)))
    (λ _, bearer_sent) bearer_sent).
  apply (triple_try_catch _ _ _ _ bearer_sent).
  2: { intros caught.
       apply (triple_bind _ _ _ (λ _, bearer_sent)); [by apply triple_lift|intros ?].
       by apply triple_lift. }
  assert (Hdrop : ∀ A (m : St (MicrosoftOutlook.world H) A),
            keeps (bearer_sent_obj l) m →
            triple (bearer_sent_obj l) m (λ _, bearer_sent_obj l) bearer_sent).
  { intros A m Hm. eapply triple_weaken; [exact Hm|done|done|by intros w []]. }
  do 5 (eapply triple_bind; [apply Hdrop; repeat obj_step|intros ?]).
  eapply triple_bind; [apply Hdrop; repeat obj_step|intros dynamic].
  destruct dynamic.
  - do 3 (eapply triple_bind; [apply Hdrop; repeat obj_step|intros ?]).
    apply bearer_request.
  - eapply triple_weaken;
      [apply (host_call_bearer
                (MicrosoftOutlook.EvRequestWithAuthentication "microsoftOutlookOAuth2Api"
                   (VRef l)) _ (λ h, I))
      |by intros w []|done|done].
Qed.

Lemma pages_bearer_sent fuel propertyName method endpoint body query headers itemIndex
    returnData nextLink :
  keeps bearer_sent
    (MicrosoftOutlook.pages this fuel propertyName method endpoint body query headers
       itemIndex returnData nextLink).
Proof.
  revert nextLink. induction fuel as [|fuel IH]; intros nextLink; cbn [MicrosoftOutlook.pages].
  - apply keeps_ret.
  - repeat first [apply microsoftApiRequest_bearer_sent | apply IH | sent_step].
Qed.

Lemma microsoftApiRequestAllItems_bearer_sent fuel propertyName method endpoint body query
    headers itemIndex :
  keeps bearer_sent
    (MicrosoftOutlook.microsoftApiRequestAllItems this fuel propertyName method endpoint
       body query headers itemIndex).
Proof.
  unfold MicrosoftOutlook.microsoftApiRequestAllItems.
  repeat first [apply pages_bearer_sent | sent_step].
Qed.

End Bearer.

(** X24.  Whenever [microsoftApiRequest] sends a request through
    [helpers.request], the headers of that request hold an [Authorization]
    of the form [Bearer ...] that the function wrote itself: no request
    leaves through the plain client without it.  The same holds of every
    request of a paginated call. *)
Theorem microsoftApiRequest_plain_carries_bearer {H : Type}
    (this : MicrosoftOutlook.Context H)
    (method resource body qs uri headers option propertyName : value) (itemIndex : Z)
    (fuel : nat) (w : MicrosoftOutlook.world H) :
  let sent_with_bearer (after : MicrosoftOutlook.world H) :=
    ∃ sent,
      MicrosoftOutlook.w_events after = MicrosoftOutlook.w_events w ++ sent
      ∧ Forall carries_bearer sent in
  sent_with_bearer
    (MicrosoftOutlook.microsoftApiRequest this method resource body qs uri headers option
       itemIndex w).2
  ∧ sent_with_bearer
      (MicrosoftOutlook.microsoftApiRequestAllItems this fuel propertyName method resource
         body qs headers itemIndex w).2.
Proof.
  cbv zeta. split.
  - apply (keeps_final (bearer_since (MicrosoftOutlook.w_events w))).
    + apply microsoftApiRequest_bearer_sent.
    + exists []. by rewrite app_nil_r.
  - apply (keeps_final (bearer_since (MicrosoftOutlook.w_events w))).
    + apply microsoftApiRequestAllItems_bearer_sent.
    + exists []. by rewrite app_nil_r.
Qed.

(** ** Pagination over a single page *)

Lemma triple_conj {S A} (P P' : S → Prop) (m : St S A) (Q Q' : A → S → Prop)
    (E E' : S → Prop) :
  triple P m Q E → triple P' m Q' E' →
  triple (λ s, P s ∧ P' s) m (λ a s, Q a s ∧ Q' a s) (λ s, E s ∧ E' s).
Proof.
  intros Hm Hm' s [Hs Hs']. specialize (Hm s Hs). specialize (Hm' s Hs').
  by destruct (m s) as [[a|e] s'].
Qed.

Lemma on_heap_run {H A B} (m : St heap A) (f : A → St (MicrosoftOutlook.world H) B)
    h s evs :
  (MicrosoftOutlook.on_heap m ≫= f)
    {| MicrosoftOutlook.w_heap := h; MicrosoftOutlook.w_host := s;
       MicrosoftOutlook.w_events := evs |}
  = match m h with
    | (Ok a, h') => f a {| MicrosoftOutlook.w_heap := h'; MicrosoftOutlook.w_host := s;
                           MicrosoftOutlook.w_events := evs |}
    | (Throw e, h') => (Throw e, {| MicrosoftOutlook.w_heap := h';
                                    MicrosoftOutlook.w_host := s;
                                    MicrosoftOutlook.w_events := evs |})
    end.
Proof.
  unfold mbind, St_bind, MicrosoftOutlook.on_heap. cbn. by destruct (m h) as [[a|e] h'].
Qed.

(** [JSON.parse] builds the text in new cells only: the text is there
    whatever the cells before them hold. *)
Lemma parse_repr_above (j : json) (h : heap) :
  ∃ v ext, parse j h = (Ok v, h ++ ext)
           ∧ ∀ h0, length h0 = length h → repr (h0 ++ ext) v j.
Proof.
  revert h. induction j as [|b|n|s|js IH|kjs IH] using json_ind'; intros h.
  - by exists VNull, []; rewrite app_nil_r.
  - by exists (VBool b), []; rewrite app_nil_r.
  - by exists (VNum n), []; rewrite app_nil_r.
  - by exists (VStr s), []; rewrite app_nil_r.
  - assert (Hloop : ∀ h, ∃ vs ext, parse_elements js h = (Ok vs, h ++ ext)
               ∧ ∀ h0, length h0 = length h → Forall2 (repr (h0 ++ ext)) vs js).
    { clear h. induction IH as [|j js Hj _ IHjs]; intros h.
      - exists [], []. rewrite app_nil_r. by split.
      - destruct (Hj h) as (v & ext1 & E1 & R1).
        destruct (IHjs (h ++ ext1)) as (vs & ext2 & E2 & R2).
        exists (v :: vs), (ext1 ++ ext2).
        rewrite parse_elements_cons.
        rewrite (run_bind_ok _ _ _ _ _ E1), (run_bind_ok _ _ _ _ _ E2).
        rewrite app_assoc. split; [done|]. intros h0 Hlen. rewrite app_assoc.
        constructor.
        + eapply repr_transfer; [|exact (R1 h0 Hlen)]. intros l c. apply lookup_extend.
        + apply R2. rewrite !length_app. lia. }
    destruct (Hloop h) as (vs & ext & E & R).
    exists (VRef (length (h ++ ext))), (ext ++ [CArr vs]).
    rewrite parse_JArr, (run_bind_ok _ _ _ _ _ E).
    unfold alloc. rewrite app_assoc. split; [done|]. intros h0 Hlen. rewrite app_assoc.
    apply repr_JArr. exists (length (h ++ ext)), vs.
    split; [done|]. split.
    + replace (length (h ++ ext)) with (length (h0 ++ ext)) by (rewrite !length_app; lia).
      apply lookup_alloc_new.
    + eapply Forall2_impl; [exact (R h0 Hlen)|]. intros v j' Hv.
      eapply repr_transfer; [|exact Hv]. intros l c. apply lookup_extend.
  - assert (Hloop : ∀ h, ∃ kvs ext, parse_members kjs h = (Ok kvs, h ++ ext)
               ∧ ∀ h0, length h0 = length h → Forall2 (repr_member (h0 ++ ext)) kvs kjs).
    { clear h. induction IH as [|kj kjs Hj _ IHkjs]; intros h.
      - exists [], []. rewrite app_nil_r. by split.
      - destruct (Hj h) as (v & ext1 & E1 & R1).
        destruct (IHkjs (h ++ ext1)) as (kvs & ext2 & E2 & R2).
        exists ((kj.1, v) :: kvs), (ext1 ++ ext2).
        rewrite parse_members_cons.
        rewrite (run_bind_ok _ _ _ _ _ E1), (run_bind_ok _ _ _ _ _ E2).
        rewrite app_assoc. split; [done|]. intros h0 Hlen. rewrite app_assoc.
        constructor.
        + split; [done|]. cbn.
          eapply repr_transfer; [|exact (R1 h0 Hlen)]. intros l c. apply lookup_extend.
        + apply R2. rewrite !length_app. lia. }
    destruct (Hloop h) as (kvs & ext & E & R).
    exists (VRef (length (h ++ ext))), (ext ++ [CObj (obj_of_members kvs)]).
    rewrite parse_JObj, (run_bind_ok _ _ _ _ _ E).
    unfold alloc. rewrite app_assoc. split; [done|]. intros h0 Hlen. rewrite app_assoc.
    apply repr_JObj. exists (length (h ++ ext)), kvs.
    split; [done|]. split.
    + replace (length (h ++ ext)) with (length (h0 ++ ext)) by (rewrite !length_app; lia).
      apply lookup_alloc_new.
    + eapply Forall2_impl; [exact (R h0 Hlen)|]. intros kv kj [Hk Hv]. split; [done|].
      eapply repr_transfer; [|exact Hv]. intros l c. apply lookup_extend.
Qed.

Section HoldsArray.

Variable r : nat.
Variable a : list value.

Lemma holds_array_write h l o o' :
  h !! l = Some (CObj o) → holds_array r a h → holds_array r a (<[l := CObj o']> h).
Proof.
  intros Hl Hr. unfold holds_array in *.
  rewrite list_lookup_insert_ne; [done|]. intros ->. congruence.
Qed.

Lemma holds_array_alloc c h : holds_array r a h → holds_array r a (alloc c h).2.
Proof. apply lookup_extend. Qed.

Lemma holds_array_get v k h : holds_array r a h → holds_array r a (get_prop v k h).2.
Proof.
  intros Hr. unfold get_prop. destruct v as [| | | |t|l]; try done.
  - by destruct (String.eqb k "length").
  - destruct (h !! l) as [[o|a']|]; try done. by destruct (String.eqb k "length").
Qed.

Lemma holds_array_set v k x h : holds_array r a h → holds_array r a (set_prop v k x h).2.
Proof.
  intros Hr. unfold set_prop. destruct v as [| | | | |l]; try done.
  destruct (h !! l) as [[o|a']|] eqn:E; try done. by eapply holds_array_write.
Qed.

Lemma holds_array_delete v k h : holds_array r a h → holds_array r a (delete_prop v k h).2.
Proof.
  intros Hr. unfold delete_prop. destruct v as [| | | | |l]; try done.
  destruct (h !! l) as [[o|a']|] eqn:E; try done. by eapply holds_array_write.
Qed.

Lemma holds_array_assign target source h :
  holds_array r a h → holds_array r a (MicrosoftOutlook.Object_assign target source h).2.
Proof.
  intros Hr. unfold MicrosoftOutlook.Object_assign. destruct target as [| | | | |l]; try done.
  destruct (h !! l) as [[o|a']|] eqn:E; try done. by eapply holds_array_write.
Qed.

Lemma holds_array_keys_length v h :
  holds_array r a h → holds_array r a (MicrosoftOutlook.keys_length v h).2.
Proof. intros Hr. by destruct v. Qed.

Lemma holds_array_parse j h : holds_array r a h → holds_array r a (parse j h).2.
Proof.
  intros Hr. destruct (parse_extends j h) as (v & ext & ->). by apply lookup_extend.
Qed.

End HoldsArray.

Section Served.

Context {H : Type}.
Variable this : MicrosoftOutlook.Context H.
Variable n rd : nat.

Local Abbreviation started := (@round_started H n rd).

Lemma on_heap_started {A} (m : St heap A) :
  (∀ h, holds_array rd [] h → holds_array rd [] (m h).2) →
  keeps started (MicrosoftOutlook.on_heap m).
Proof.
  intros Hm [h s evs] [Hn Hr]. unfold MicrosoftOutlook.on_heap. cbn in *.
  specialize (Hm h Hr). destruct (m h) as [[x|e] h']; by split.
Qed.

Lemma host_call_started ev (f : heap → H → result json * H) :
  keeps started (MicrosoftOutlook.host_call ev f).
Proof.
  intros [h s evs] [Hn Hr]. unfold MicrosoftOutlook.host_call. cbn in *.
  destruct (f h s) as [[j|e] s'].
  - unfold MicrosoftOutlook.on_heap. cbn.
    pose proof (holds_array_parse rd [] j h Hr) as Hparsed.
    destruct (parse j h) as [[v|e] h']; cbn in *;
      (split; cbn; [rewrite length_app; cbn; lia|done]).
  - split; cbn; [rewrite length_app; cbn; lia|done].
Qed.

Ltac array_step :=
  lazymatch goal with
  | |- keeps _ (mret _) => apply keeps_ret
  | |- keeps _ (lift _) => apply keeps_lift
  | |- keeps _ (if _ then _ else _) => apply keeps_if
  | |- keeps _ (st_try_catch _ _) => apply keeps_try_catch; [|intros ?]
  | |- keeps _ (_ ≫= _) => apply keeps_bind; [|intros ?]
  | |- keeps _ (MicrosoftOutlook.getCredentials _ _) => apply host_call_started
  | |- keeps _ (MicrosoftOutlook.or_default _ _) =>
      unfold MicrosoftOutlook.or_default
  | |- keeps _ (MicrosoftOutlook.on_heap (get_prop _ _)) =>
      apply on_heap_started; intros ?; apply holds_array_get
  | |- keeps _ (MicrosoftOutlook.on_heap (own_props _)) =>
      apply on_heap_started; by intros ?
  | |- keeps _ (MicrosoftOutlook.on_heap (MicrosoftOutlook.keys_length _)) =>
      apply on_heap_started; intros ?; apply holds_array_keys_length
  | |- keeps _ (MicrosoftOutlook.on_heap (alloc _)) =>
      apply on_heap_started; intros ?; apply holds_array_alloc
  | |- keeps _ (MicrosoftOutlook.on_heap (set_prop _ _ _)) =>
      apply on_heap_started; intros ?; apply holds_array_set
  | |- keeps _ (MicrosoftOutlook.on_heap (delete_prop _ _)) =>
      apply on_heap_started; intros ?; apply holds_array_delete
  | |- keeps _ (MicrosoftOutlook.on_heap (MicrosoftOutlook.Object_assign _ _)) =>
      apply on_heap_started; intros ?; apply holds_array_assign
  end.

Lemma resolve_credentials_started itemIndex :
  keeps started (MicrosoftOutlook.resolve_credentials this itemIndex).
Proof.
  unfold MicrosoftOutlook.resolve_credentials, MicrosoftOutlook.input_credentials.
  repeat array_step.
Qed.

Lemma started_kept {A} (m : St (MicrosoftOutlook.world H) A) :
  keeps started m → triple started m (λ _, started) (λ _, True).
Proof. intros Hm. by eapply triple_weaken; [exact Hm|..]. Qed.

Lemma host_call_served ev (f : heap → H → result json * H) :
  (∀ h s j s', f h s = (Ok j, s') →
     ∃ members, j = JObj members ∧ json_fields members !! "@odata.nextLink" = None) →
  (∀ h s j s', f h s = (Ok j, s') → answers this (ev h) j s') →
  triple started (MicrosoftOutlook.host_call ev f) (served this n rd) (λ _, True).
Proof.
  intros Hf Hans [h s evs] [Hn Hr]. unfold MicrosoftOutlook.host_call.
  cbn [MicrosoftOutlook.w_heap MicrosoftOutlook.w_host MicrosoftOutlook.w_events] in *.
  destruct (f h s) as [[j|e] s'] eqn:Hanswer; [|done].
  destruct (Hf _ _ _ _ Hanswer) as (members & -> & Hnone).
  destruct (parse_repr_above (JObj members) h) as (v & ext & Hrun & Hrepr).
  unfold MicrosoftOutlook.on_heap.
  cbn [MicrosoftOutlook.w_heap MicrosoftOutlook.w_host MicrosoftOutlook.w_events].
  rewrite Hrun. split; [by apply lookup_extend|].
  exists evs, (ev h), members.
  cbn [MicrosoftOutlook.w_heap MicrosoftOutlook.w_host MicrosoftOutlook.w_events].
  split; [done|]. split; [done|]. split; [by apply (Hans _ _ _ _ Hanswer)|].
  split; [done|]. intros c.
  rewrite insert_app_l by (by eapply lookup_lt_Some).
  apply Hrepr. by rewrite length_insert.
Qed.

Lemma microsoftApiRequest_served method resource body qs uri headers option itemIndex :
  single_page this →
  triple started
    (MicrosoftOutlook.microsoftApiRequest this method resource body qs uri headers option
       itemIndex)
    (served this n rd) (λ _, True).
Proof.
  intros [Hplain Hauthenticated].
  unfold MicrosoftOutlook.microsoftApiRequest.
  do 9 (apply (triple_bind _ _ _ (λ _, started));
        [apply started_kept; repeat first [apply resolve_credentials_started | array_step]
        |intros ?]).
  apply (triple_try_catch _ _ _ _ (λ _, True)).
  2: { intros caught w _. unfold mbind, St_bind, lift.
       by destruct (MicrosoftOutlook.api_error this caught). }
  do 6 (apply (triple_bind _ _ _ (λ _, started));
        [apply started_kept; repeat array_step|intros ?]).
  match goal with |- triple _ (if ?b then _ else _) _ _ => destruct b end.
  - do 5 (apply (triple_bind _ _ _ (λ _, started));
          [apply started_kept; repeat array_step|intros ?]).
    apply host_call_served.
    + intros h s j s'. apply Hplain.
    + intros h s j s' Hanswer. by exists s.
  - apply host_call_served.
    + intros h s j s'. apply Hauthenticated.
    + intros h s j s' Hanswer. by exists s.
Qed.

End Served.

(** A field of a parsed response, read from the cell that holds it. *)
Lemma response_field (h : heap) (l : nat) (o : obj) members (k : string) :
  h !! l = Some (CObj o) →
  repr h (VRef l) (JObj members) →
  match json_fields members !! k with
  | Some j => ∃ v, o !! k = Some v ∧ repr h v j
  | None => o !! k = None
  end.
Proof.
  intros Hl Hrepr. apply repr_JObj in Hrepr as (l' & kvs & [= <-] & Hl' & Hall).
  rewrite Hl in Hl'. injection Hl' as ->. by apply members_lookup.
Qed.

(** What [push.apply] adds to the empty array [rd] from the field [k] of a
    parsed response. *)
Lemma push_apply_accumulated (h h' : heap) (rd l : nat) (o : obj) members (k : string) :
  holds_array rd [] h →
  h !! l = Some (CObj o) →
  (∀ c, repr (<[rd := c]> h) (VRef l) (JObj members)) →
  MicrosoftOutlook.push_apply (VRef rd) (field o k) h = (Ok (), h') →
  h' !! l = Some (CObj o)
  ∧ ∃ items, holds_array rd items h' ∧ accumulated h' members k items.
Proof.
  intros Hrd Hl Hrepr Hpush.
  assert (Hne : rd ≠ l) by (intros ->; unfold holds_array in Hrd; congruence).
  assert (Hfield : ∀ c, match json_fields members !! k with
                        | Some j => ∃ v, o !! k = Some v ∧ repr (<[rd := c]> h) v j
                        | None => o !! k = None
                        end).
  { intros c. apply (response_field _ l); [|done]. by rewrite list_lookup_insert_ne. }
  pose proof (Hfield (CArr [])) as Hnow. rewrite list_insert_id in Hnow by exact Hrd.
  destruct (json_fields members !! k) as [j|] eqn:Hk.
  - destruct Hnow as (v & Hv & Hrv). rewrite (field_lookup _ _ _ Hv) in Hpush.
    destruct j as [|b|n|t|js|kjs]; cbn in Hrv.
    + subst v. injection Hpush as <-. split; [done|]. exists []. split; [done|].
      unfold accumulated. rewrite Hk. by repeat split.
    + by subst v.
    + by subst v.
    + by subst v.
    + destruct (proj1 (repr_JArr h v js) Hrv) as (la & vs & -> & Hla & Hvs).
      unfold MicrosoftOutlook.push_apply in Hpush. rewrite Hla, Hrd in Hpush.
      injection Hpush as <-. cbn [app].
      split; [by rewrite list_lookup_insert_ne|].
      exists vs. split.
      { apply list_lookup_insert_eq. by eapply lookup_lt_Some. }
      unfold accumulated. rewrite Hk. split; [|by split].
      intros js' [= <-].
      destruct (Hfield (CArr vs)) as (v' & Hv' & Hrv').
      rewrite Hv in Hv'. injection Hv' as <-.
      apply repr_JArr in Hrv' as (la' & vs' & [= <-] & Hla' & Hvs').
      assert (vs' = vs) as ->; [|done].
      destruct (decide (rd = la)) as [<-|Hother].
      * rewrite list_lookup_insert_eq in Hla' by (by eapply lookup_lt_Some). congruence.
      * rewrite list_lookup_insert_ne in Hla' by done. congruence.
    + destruct Hrv as (lo & kvs & -> & Hlo & _).
      unfold MicrosoftOutlook.push_apply in Hpush. rewrite Hlo, Hrd in Hpush.
      injection Hpush as <-. cbn [app].
      split; [by rewrite list_lookup_insert_ne|].
      exists []. split; [|unfold accumulated; rewrite Hk; by repeat split].
      apply list_lookup_insert_eq. by eapply lookup_lt_Some.
  - rewrite (field_absent _ _ Hnow) in Hpush. injection Hpush as <-.
    split; [done|]. exists []. split; [done|].
    unfold accumulated. rewrite Hk. by repeat split.
Qed.

(** The events of a round whose request was answered. *)
Lemma answered_events {H} (this : MicrosoftOutlook.Context H)
    (before evs evs0 : list MicrosoftOutlook.event) (dynamic : Prop) ev j s :
  requests_then before dynamic evs →
  evs = evs0 ++ [ev] → (length before ≤ length evs0)%nat →
  answers this ev j s →
  ∃ lookups, evs = before ++ lookups ++ [ev]
             ∧ Forall is_lookup lookups ∧ (length lookups ≤ 2)%nat.
Proof.
  intros (requests & (lookups & Hevs & Hall & Hlen) & Hone & _) -> Hbefore Hans.
  destruct requests as [|request [|? ?]]; [| |cbn in Hone; lia].
  - exfalso. rewrite app_nil_r in Hevs.
    destruct (decide (lookups = [])) as [->|Hsome].
    + rewrite app_nil_r in Hevs. subst before. rewrite length_app in Hbefore. cbn in *. lia.
    + destruct (exists_last Hsome) as (lookups' & x & ->).
      rewrite app_assoc in Hevs. apply app_inj_tail in Hevs as [_ <-].
      apply Forall_app in Hall as [_ Hx]. apply Forall_inv in Hx.
      unfold is_lookup in Hx. subst ev. done.
  - rewrite !app_assoc in Hevs. apply app_inj_tail in Hevs as [-> <-].
    exists lookups. by rewrite <- app_assoc.
Qed.

Section Collected.

Context {H : Type}.
Variable this : MicrosoftOutlook.Context H.
Hypothesis Hsingle : single_page this.
Variable before : list MicrosoftOutlook.event.
Variable itemIndex : Z.

Local Abbreviation dynamic :=
  (MicrosoftOutlook.this_getNodeParameter this "credentialsSource" itemIndex
     (Some (VStr "static")) = Ok (VStr "dynamic")).

(** What follows the request in one round of the loop, on a last page:
    the items are pushed and the loop ends. *)
Lemma collect_round (k : string) (rd : nat) (r : value)
    (again : value → St (MicrosoftOutlook.world H) bool) :
  triple (λ w, requested before dynamic w ∧ served this (length before) rd r w)
    (nextLink' ← MicrosoftOutlook.on_heap (get_prop r "@odata.nextLink");
     items ← MicrosoftOutlook.on_heap (get_prop r k);
     MicrosoftOutlook.on_heap (MicrosoftOutlook.push_apply (VRef rd) items);;
     link ← MicrosoftOutlook.on_heap (get_prop r "@odata.nextLink");
     if negb (strict_eq link VUndefined) then again nextLink' else mret true)
    (λ finished w, finished = true ∧ collected this before rd k w)
    (requested before dynamic).
Proof.
  intros [h s evs]
    [Hreq (Hrd & evs0 & ev & members & Hevs & Hlen & Hans & Hnone & Hrepr)].
  cbn [MicrosoftOutlook.w_heap MicrosoftOutlook.w_host MicrosoftOutlook.w_events] in *.
  pose proof (Hrepr (CArr [])) as Hnow. rewrite list_insert_id in Hnow by exact Hrd.
  destruct (proj1 (repr_JObj _ _ _) Hnow) as (l & kvs & -> & Hl & _).
  set (o := obj_of_members kvs) in *.
  pose proof (response_field h l o members "@odata.nextLink" Hl Hnow) as Hlink.
  rewrite Hnone in Hlink.
  assert (Hget : ∀ h', h' !! l = Some (CObj o) →
            get_prop (VRef l) "@odata.nextLink" h' = (Ok VUndefined, h')).
  { intros h' Hh'. unfold get_prop. rewrite Hh'. by rewrite (field_absent _ _ Hlink). }
  rewrite on_heap_run, (Hget h Hl).
  rewrite on_heap_run. unfold get_prop at 1. rewrite Hl.
  rewrite on_heap_run.
  destruct (MicrosoftOutlook.push_apply (VRef rd) (field o k) h) as [[[]|e] h'] eqn:Hrun;
    [|done].
  destruct (push_apply_accumulated h h' rd l o members k Hrd Hl Hrepr Hrun)
    as (Hl' & items & Hitems & Hacc).
  rewrite on_heap_run, (Hget h' Hl').
  cbn. split; [done|].
  destruct (answered_events this before evs evs0 dynamic ev (JObj members) s Hreq Hevs
              Hlen Hans) as (lookups & Hevs' & Hall & Hle).
  by exists items, lookups, ev, members.
Qed.

Lemma pages_collected fuel propertyName method endpoint body query headers
    (rd : nat) nextLink :
  triple (λ w, looked_up before 0 [] w ∧ round_started (length before) rd w)
    (MicrosoftOutlook.pages this (S fuel) propertyName method endpoint body query headers
       itemIndex (VRef rd) nextLink)
    (λ finished w, finished = true ∧ collected this before rd (to_string propertyName) w)
    (requested before dynamic).
Proof.
  cbn [MicrosoftOutlook.pages].
  apply (triple_bind _ _ _
           (λ _ w, looked_up before 0 [] w ∧ round_started (length before) rd w)).
  { eapply triple_weaken.
    - apply triple_conj;
        [apply (on_heap_events (lookups_then before 0 []))
        |apply on_heap_started; intros ?; apply holds_array_alloc].
    - intros w [Hw Hw']. by split.
    - intros ? w [Hw Hw']. by split.
    - intros w [Hw _]. apply looked_up_requested. eapply looked_up_mono; [|exact Hw]. lia. }
  intros option.
  apply (triple_bind _ _ _
           (λ r w, requested before dynamic w ∧ served this (length before) rd r w)).
  { eapply triple_weaken.
    - apply triple_conj;
        [apply (microsoftApiRequest_requested this before)
        |apply (microsoftApiRequest_served this (length before) rd); exact Hsingle].
    - done.
    - done.
    - by intros w [].  }
  intros responseData.
  apply (collect_round (to_string propertyName) rd responseData
           (λ nextLink', MicrosoftOutlook.pages this fuel propertyName method endpoint body
                           query headers itemIndex (VRef rd) nextLink')).
Qed.

End Collected.

(** X25.  When every response is an object without a continuation link,
    a paginated call is over after its first round.  It throws, having sent
    at most one request, or it returns a new array after exactly one
    request: the array holds the elements of the array that the answer has
    under the property name, in order, and nothing when the answer has
    [null] there, or has no such member and inherits none.  The call is
    never cut short by the bound on the number of rounds.  The property name
    is a string (or another value of [plain_text]). *)
Theorem microsoftApiRequestAllItems_single_page {H : Type}
    (this : MicrosoftOutlook.Context H) (fuel : nat)
    (propertyName method endpoint body query headers : value) (itemIndex : Z)
    (w : MicrosoftOutlook.world H)
    (Hsingle : single_page this)
    (Hname : plain_text propertyName = true) :
  let run :=
    MicrosoftOutlook.microsoftApiRequestAllItems this (S fuel) propertyName method endpoint
      body query headers itemIndex w in
  (∃ r items lookups request members,
     run.1 = Ok (Some (VRef r))
     ∧ MicrosoftOutlook.w_heap w !! r = None
     ∧ MicrosoftOutlook.w_heap run.2 !! r = Some (CArr items)
     ∧ MicrosoftOutlook.w_events run.2 = MicrosoftOutlook.w_events w ++ lookups ++ [request]
     ∧ Forall is_lookup lookups ∧ (length lookups ≤ 2)%nat
     ∧ answers this request (JObj members) (MicrosoftOutlook.w_host run.2)
     ∧ accumulated (MicrosoftOutlook.w_heap run.2) members (to_string propertyName) items)
  ∨ (∃ e lookups requests,
       run.1 = Throw e
       ∧ MicrosoftOutlook.w_events run.2 = MicrosoftOutlook.w_events w ++ lookups ++ requests
       ∧ Forall is_lookup lookups ∧ (length lookups ≤ 2)%nat
       ∧ (length requests ≤ 1)%nat).
Proof.
  cbv zeta. destruct w as [h s before].
  cbn [MicrosoftOutlook.w_heap MicrosoftOutlook.w_host MicrosoftOutlook.w_events].
  unfold MicrosoftOutlook.microsoftApiRequestAllItems.
  destruct (or_default_run body (CObj ∅) (MicrosoftOutlook.World h s before))
    as (body' & ext1 & E1 & _).
  rewrite (run_bind_ok _ _ _ _ _ E1).
  cbn [MicrosoftOutlook.w_heap MicrosoftOutlook.w_host MicrosoftOutlook.w_events].
  match goal with |- context [MicrosoftOutlook.or_default query ?d ≫= _] =>
    destruct (or_default_run query (CObj ∅) (MicrosoftOutlook.World (h ++ ext1) s before))
      as (query' & ext2 & E2 & _) end.
  rewrite (run_bind_ok _ _ _ _ _ E2).
  cbn [MicrosoftOutlook.w_heap MicrosoftOutlook.w_host MicrosoftOutlook.w_events].
  destruct (or_default_run headers (CObj ∅)
              (MicrosoftOutlook.World ((h ++ ext1) ++ ext2) s before))
    as (headers' & ext3 & E3 & _).
  rewrite (run_bind_ok _ _ _ _ _ E3).
  cbn [MicrosoftOutlook.w_heap MicrosoftOutlook.w_host MicrosoftOutlook.w_events].
  set (h3 := ((h ++ ext1) ++ ext2) ++ ext3).
  rewrite on_heap_run.
  change (alloc (CArr []) h3) with (Ok (VRef (length h3)) : result value, h3 ++ [CArr []]).
  cbv iota. rewrite on_heap_run.
  assert (Hrd4 : holds_array (length h3) [] (h3 ++ [CArr []])) by apply lookup_alloc_new.
  pose proof (holds_array_set (length h3) [] query' "$top" (VNum 100) _ Hrd4) as Hrd5.
  destruct (set_prop query' "$top" (VNum 100) (h3 ++ [CArr []])) as [[[]|e] h5] eqn:Hset;
    cbn [snd] in Hrd5.
  2: { right. exists e, [], []. cbn. rewrite app_nil_r. repeat split; [constructor|lia|lia]. }
  pose proof (pages_collected this Hsingle before itemIndex fuel propertyName method endpoint
                body' query' headers' (length h3) VUndefined
                (MicrosoftOutlook.World h5 s before)) as Hpages.
  destruct (MicrosoftOutlook.pages this (S fuel) propertyName method endpoint body' query'
              headers' itemIndex (VRef (length h3)) VUndefined
              (MicrosoftOutlook.World h5 s before)) as [[finished|e] w'] eqn:Hrun.
  - rewrite (run_bind_ok _ _ _ _ _ Hrun).
    destruct Hpages as [-> (items & lookups & request & members & Hitems & Hevs & Hall
                            & Hlen & Hans & Hacc)].
    { split; [|split; [cbn; lia|exact Hrd5]].
      exists []. rewrite !app_nil_r. cbn. by repeat split; [constructor|lia]. }
    left. exists (length h3), items, lookups, request, members. cbn.
    split; [done|]. split; [|done].
    apply lookup_ge_None. unfold h3. rewrite !length_app. lia.
  - rewrite (run_bind_throw _ _ _ _ _ Hrun).
    destruct Hpages as (requests & (lookups & Hevs & Hall & Hlen) & Hone & _).
    { split; [|split; [cbn; lia|exact Hrd5]].
      exists []. rewrite !app_nil_r. cbn. by repeat split; [constructor|lia]. }
    right. by exists e, lookups, requests.
Qed.

Lemma microsoftApiRequestAllItems_single_page_witness :
  let run :=
    MicrosoftOutlook.microsoftApiRequestAllItems one_page_mailbox 5 (VStr "value")
      (VStr "GET") (VStr "/messages") VUndefined (VRef 0) VUndefined 0 unread_query in
  (∃ r items lookups request members,
     run.1 = Ok (Some (VRef r))
     ∧ MicrosoftOutlook.w_heap unread_query !! r = None
     ∧ MicrosoftOutlook.w_heap run.2 !! r = Some (CArr items)
     ∧ MicrosoftOutlook.w_events run.2 = [] ++ lookups ++ [request]
     ∧ Forall is_lookup lookups ∧ (length lookups ≤ 2)%nat
     ∧ answers one_page_mailbox request (JObj members) (MicrosoftOutlook.w_host run.2)
     ∧ accumulated (MicrosoftOutlook.w_heap run.2) members "value" items)
  ∨ (∃ e lookups requests,
       run.1 = Throw e
       ∧ MicrosoftOutlook.w_events run.2 = [] ++ lookups ++ requests
       ∧ Forall is_lookup lookups ∧ (length lookups ≤ 2)%nat
       ∧ (length requests ≤ 1)%nat).
Proof.
  refine (microsoftApiRequestAllItems_single_page one_page_mailbox 4 (VStr "value")
            (VStr "GET") (VStr "/messages") VUndefined (VRef 0) VUndefined 0 unread_query
            _ eq_refl).
  split.
  - intros options h s j s' [= <- <-]. by eexists.
  - intros name options h s j s' [= <- <-]. by eexists.
Defined.
